(** * multisig-ops: payload report classifiers and bribe CSV processing

    A shallow embedding of

      - [action-scripts/brownie/scripts/report_gauges.py]
      - [tools/python/brownie/scripts/maxi_operations/bribe_ecosystems.py]

    Python values are an inductive type, dictionaries read from JSON are
    association lists (insertion order kept), the dictionaries and sets the
    scripts build themselves are stdpp maps and sets where only lookups
    matter.  Everything the scripts reach outside their own file (the
    chain client, the address book, the helpers of [script_utils], the file
    system) is a field of a [World] record acting on an abstract state, so
    that every statement holds for every behaviour of those services. *)

From Stdlib Require Import Ascii String ZArith.
From stdpp Require Import gmap strings list fin_maps sorting.

Open Scope string_scope.

(** ** Python exceptions and results *)

Inductive exn : Type :=
| ValueError (msg : string)
| KeyError (key : string)
| IndexError
| TypeError
| AttributeError
| AssertionError
| UnboundLocalError (var : string)
| OtherError (msg : string).

Inductive outcome (A : Type) : Type :=
| Ret (a : A)
| Raise (e : exn).
Arguments Ret {A} a.
Arguments Raise {A} e.

Definition obind {A B} (x : outcome A) (k : A -> outcome B) : outcome B :=
  match x with
  | Ret a => k a
  | Raise e => Raise e
  end.

Definition is_Ret {A} (x : outcome A) : Prop :=
  match x with Ret _ => True | Raise _ => False end.

(** [for x in xs: acc = f(acc, x)], stopping at the first exception. *)
Fixpoint ofold {A B} (f : B -> A -> outcome B) (xs : list A) (acc : B)
  : outcome B :=
  match xs with
  | [] => Ret acc
  | x :: xs' => obind (f acc x) (ofold f xs')
  end.

(** ** bribe_ecosystems.py *)

Module BribeEcosystems.

(** One record of [csv.DictReader] over a file with the header
    [target, platform, amount]. *)
Record bribe_row : Type := mk_bribe_row {
  target : string;
  platform : string;
  amount : string;
}.

Section process.
(** [float(s)] on a CSV cell: the parsed number, or [ValueError]. *)
Context {F : Type} (float : string -> outcome F).

(** [bribes = {"aura": {}, "balancer": {}}] *)
Definition bribes_init : gmap string (gmap string F) :=
  <["aura" := ∅]> (<["balancer" := ∅]> ∅).

(** [bribes[bribe["platform"]][bribe["target"]] = float(bribe["amount"])]:
    the right-hand side is evaluated first, then the subscript
    [bribes[platform]] (a [KeyError] for an unknown platform), then the
    item is stored. *)
Definition store_bribe (bribes : gmap string (gmap string F))
    (bribe : bribe_row) : outcome (gmap string (gmap string F)) :=
  obind (float (amount bribe)) (fun v =>
    match bribes !! platform bribe with
    | None => Raise (KeyError (platform bribe))
    | Some inner =>
        Ret (<[platform bribe := <[target bribe := v]> inner]> bribes)
    end).

Definition process_bribe_csv (bribe_csv : list bribe_row)
  : outcome (gmap string (gmap string F)) :=
  ofold store_bribe bribe_csv bribes_init.

(** [bribes[p][t]] read back, [None] when either key is absent. *)
Definition bribe_of (bribes : gmap string (gmap string F))
    (p t : string) : option F :=
  bribes !! p ≫= λ inner, inner !! t.

Definition same_slot (r r' : bribe_row) : Prop :=
  platform r = platform r' ∧ target r = target r'.

Definition known_platform (r : bribe_row) : Prop :=
  platform r = "aura" ∨ platform r = "balancer".

Definition amount_parses (r : bribe_row) : Prop := is_Ret (float (amount r)).

(** The number a cell parses to, when it does. *)
Definition parsed (a : string) : option F :=
  match float a with
  | Ret v => Some v
  | Raise _ => None
  end.

(** The [amount] cell of the last row of [rows] for platform [p] and
    target [t]. *)
Fixpoint last_amount (rows : list bribe_row) (p t : string)
  : option string :=
  match rows with
  | [] => None
  | r :: rest =>
      match last_amount rest p t with
      | Some a => Some a
      | None =>
          if decide (platform r = p ∧ target r = t)
          then Some (amount r) else None
      end
  end.

(** [r] is the last row of [rows] writing its (platform, target) slot. *)
Definition last_of_slot (rows : list bribe_row) (i : nat) (r : bribe_row)
  : Prop :=
  rows !! i = Some r ∧
  ∀ j r', i < j → rows !! j = Some r' → ¬ same_slot r r'.

End process.

(** [float] on unsigned decimal integer literals, which it converts
    exactly below 2^53; every other cell is left to [ValueError] here.  It
    instantiates the cell parser where a concrete run is evaluated. *)
Definition digit_of (c : ascii) : option Z :=
  let n := nat_of_ascii c in
  if (48 <=? n)%nat && (n <=? 57)%nat then Some (Z.of_nat (n - 48)) else None.

Fixpoint digits_value (acc : Z) (s : string) : option Z :=
  match s with
  | EmptyString => Some acc
  | String c s' =>
      match digit_of c with
      | Some d => digits_value (10 * acc + d) s'
      | None => None
      end
  end.

Definition float_of_digits (s : string) : outcome Z :=
  match s with
  | EmptyString => Raise (ValueError "could not convert string to float")
  | _ =>
      match digits_value 0 s with
      | Some z => Ret z
      | None => Raise (ValueError "could not convert string to float")
      end
  end.

End BribeEcosystems.

(** ** Python values, as the report script meets them *)

Module Py.

#[local] Set Warnings "-register-all".

(** A value loaded from JSON or returned by a remote call.  A dict keeps
    its items in insertion order, one item per key. *)
Inductive pyval : Type :=
| PNone
| PBool (b : bool)
| PInt (z : Z)
| PStr (s : string)
| PList (l : list pyval)
| PDict (d : list (string * pyval)).

Definition dict : Type := list (string * pyval).

(** [bool(v)] *)
Definition truthy (v : pyval) : bool :=
  match v with
  | PNone => false
  | PBool b => b
  | PInt z => negb (z =? 0)%Z
  | PStr s => negb (String.eqb s "")
  | PList l => match l with [] => false | _ => true end
  | PDict d => match d with [] => false | _ => true end
  end.

(** [v == "lit"] for a string literal. *)
Definition eq_str (v : pyval) (lit : string) : bool :=
  match v with
  | PStr s => String.eqb s lit
  | _ => false
  end.

Fixpoint dict_lookup {A} (k : string) (d : list (string * A)) : option A :=
  match d with
  | [] => None
  | (k', v) :: d' => if String.eqb k k' then Some v else dict_lookup k d'
  end.

(** [d[k] = v] on an insertion-ordered dict: an existing key keeps its
    place, a new key goes last. *)
Fixpoint dict_set {A} (k : string) (v : A) (d : list (string * A))
  : list (string * A) :=
  match d with
  | [] => [(k, v)]
  | (k', v') :: d' =>
      if String.eqb k k' then (k', v) :: d' else (k', v') :: dict_set k v d'
  end.

(** [d.get(k, default)] on a dict. *)
Definition dict_get (d : dict) (k : string) (default : pyval) : pyval :=
  match dict_lookup k d with
  | Some v => v
  | None => default
  end.

(** [v.get(k, default)] on any value: only dicts have [get]. *)
Definition py_get (v : pyval) (k : string) (default : pyval) : outcome pyval :=
  match v with
  | PDict d => Ret (dict_get d k default)
  | _ => Raise AttributeError
  end.

(** [d[k]] on a dict. *)
Definition dict_item (d : dict) (k : string) : outcome pyval :=
  match dict_lookup k d with
  | Some v => Ret v
  | None => Raise (KeyError k)
  end.

(** [v[k]] with a string key on any value. *)
Definition py_item (v : pyval) (k : string) : outcome pyval :=
  match v with
  | PDict d => dict_item d k
  | _ => Raise TypeError
  end.

(** [sub in s] on strings. *)
Fixpoint is_prefix (p s : string) : bool :=
  match p, s with
  | EmptyString, _ => true
  | String a p', String b s' => Ascii.eqb a b && is_prefix p' s'
  | String _ _, EmptyString => false
  end.

Fixpoint contains (sub s : string) : bool :=
  is_prefix sub s ||
  match s with
  | EmptyString => false
  | String _ s' => contains sub s'
  end.

(** [k in v] for a string [k]: substring of a str, key of a dict, element
    of a list; other values are not iterable. *)
Definition py_in (k : string) (v : pyval) : outcome bool :=
  match v with
  | PStr s => Ret (contains k s)
  | PDict d => Ret (bool_decide (is_Some (dict_lookup k d)))
  | PList l => Ret (existsb (fun x => eq_str x k) l)
  | _ => Raise TypeError
  end.

(** [s.replace(old, new)] for a non-empty [old]: occurrences are replaced
    left to right and do not overlap.  [skip] counts the characters of a
    matched occurrence still to be dropped. *)
Fixpoint replace_from (old new : string) (skip : nat) (s : string) : string :=
  match s with
  | EmptyString => EmptyString
  | String c s' =>
      match skip with
      | S k => replace_from old new k s'
      | O =>
          if is_prefix old s
          then new ++ replace_from old new (String.length old - 1) s'
          else String c (replace_from old new 0 s')
      end
  end.

Definition str_replace (old new s : string) : string :=
  replace_from old new 0 s.

(** What can be put in a set: [None], integers (with [True == 1] and
    [False == 0]) and strings; lists and dicts are unhashable. *)
Inductive hkey : Type :=
| KNone
| KInt (z : Z)
| KStr (s : string).

Definition hash_key (v : pyval) : outcome hkey :=
  match v with
  | PNone => Ret KNone
  | PBool b => Ret (KInt (if b then 1 else 0))
  | PInt z => Ret (KInt z)
  | PStr s => Ret (KStr s)
  | PList _ | PDict _ => Raise TypeError
  end.

#[global] Instance hkey_eq_dec : EqDecision hkey.
Proof. solve_decision. Defined.

#[global] Instance hkey_countable : Countable hkey.
Proof.
  refine (inj_countable'
    (fun k => match k with
              | KNone => inl ()
              | KInt z => inr (inl z)
              | KStr s => inr (inr s)
              end)
    (fun x => match x with
              | inl _ => KNone
              | inr (inl z) => KInt z
              | inr (inr s) => KStr s
              end) _).
  by intros [].
Defined.

(** [set(range(n))] *)
Definition range_set (n : nat) : gset hkey :=
  list_to_set ((fun i : nat => KInt (Z.of_nat i)) <$> seq 0 n).

(** [for i in s] over a set of indexes.  CPython keeps the small
    non-negative integers of a set made from a range each in the slot of
    its own value, so that the loop meets them in ascending order; where
    other keys come goes by their hashes, and they are put after the
    integers here. *)
Definition int_of_key (k : hkey) : option Z :=
  match k with
  | KInt z => Some z
  | _ => None
  end.

Definition set_iter (s : gset hkey) : list hkey :=
  ((KInt <$> merge_sort Z.le (omap int_of_key (elements s)))
   ++ filter (fun k => int_of_key k = None) (elements s))%list.

(** [l[i]] on a list, for an element [i] of a set: negative integers count
    from the end. *)
Definition list_item {A} (l : list A) (i : hkey) : outcome A :=
  match i with
  | KInt z =>
      let pos := if (z <? 0)%Z then (Z.of_nat (length l) + z)%Z else z in
      if (pos <? 0)%Z then Raise IndexError
      else match l !! Z.to_nat pos with
           | Some x => Ret x
           | None => Raise IndexError
           end
  | _ => Raise TypeError
  end.

End Py.

(** ** bribe_ecosystems.py: the lookups

    The three helpers that read a JSON answer of a remote service.  The
    answer, [response.json()], is their input here. *)

Module BribeEcosystemsApi.
Import Py.

(** [for option in options: if option["title"] == target_name: return
    option["proposalHash"]], then [return False]. *)
Fixpoint find_proposal (options : list pyval) (target_name : string)
  : outcome pyval :=
  match options with
  | [] => Ret (PBool false)
  | option :: rest =>
      obind (py_item option "title") (fun title =>
        if eq_str title target_name then py_item option "proposalHash"
        else find_proposal rest target_name)
  end.

(** An option of the proposal service under another title. *)
Definition other_title (target_name : string) (option : pyval) : Prop :=
  exists title,
    py_item option "title" = Ret title /\ eq_str title target_name = false.

(** [get_hh_aura_target(target_name)] on the answer of the proposal
    service.  Looping over a dict or a str takes its keys or characters,
    which have no ["title"]; other values cannot be looped over. *)
Definition get_hh_aura_target (response_json : pyval) (target_name : string)
  : outcome pyval :=
  obind (py_item response_json "data") (fun options =>
    match options with
    | PList l => find_proposal l target_name
    | PDict [] | PStr EmptyString => Ret (PBool false)
    | _ => Raise TypeError
    end).

Section gauge_names.
(** [web3.toChecksumAddress] *)
Context (toChecksumAddress : pyval -> outcome string).

(** [output[web3.toChecksumAddress(mapping["gauge"])] = mapping["label"]] *)
Definition add_gauge_name (output : dict) (mapping : pyval) : outcome dict :=
  obind (py_item mapping "gauge") (fun gauge =>
    obind (toChecksumAddress gauge) (fun gauge_address =>
      obind (py_item mapping "label") (fun label =>
        Ret (dict_set gauge_address label output)))).

(** [get_gauge_name_map()] on the list of the label file. *)
Definition get_gauge_name_map (item_list : list pyval) : outcome dict :=
  ofold add_gauge_name item_list [].

(** The label a mapping of the label file gives the address [a], when
    its checksummed gauge is [a]. *)
Definition label_for (a : string) (mapping : pyval) : option pyval :=
  match py_item mapping "gauge" with
  | Ret gauge =>
      match toChecksumAddress gauge with
      | Ret a' =>
          if String.eqb a a'
          then match py_item mapping "label" with
               | Ret label => Some label
               | Raise _ => None
               end
          else None
      | Raise _ => None
      end
  | Raise _ => None
  end.

(** The label of the last mapping of the list for the address [a]. *)
Fixpoint last_label (item_list : list pyval) (a : string) : option pyval :=
  match item_list with
  | [] => None
  | mapping :: rest =>
      match last_label rest a with
      | Some label => Some label
      | None => label_for a mapping
      end
  end.
End gauge_names.

(** [choices.index(target)] on a list: the first position of an equal
    element.  The message of the [ValueError] is cut to its fixed part;
    Python puts the repr of the target before it. *)
Fixpoint list_index (choices : list pyval) (target : string) : outcome nat :=
  match choices with
  | [] => Raise (ValueError "is not in list")
  | choice :: rest =>
      if eq_str choice target then Ret 0%nat
      else obind (list_index rest target) (fun i => Ret (S i))
  end.

(** [s.index(sub)] on a str: the first position at which [sub] starts. *)
Fixpoint str_index (sub s : string) : outcome nat :=
  if is_prefix sub s then Ret 0%nat
  else match s with
       | EmptyString => Raise (ValueError "substring not found")
       | String _ s' => obind (str_index sub s') (fun i => Ret (S i))
       end.

(** [get_index(proposal_id, target)] on the answer of the snapshot
    service. *)
Definition get_index (response_json : pyval) (target : string)
  : outcome nat :=
  obind (py_item response_json "data") (fun data =>
    obind (py_item data "proposal") (fun proposal =>
      obind (py_item proposal "choices") (fun choices =>
        match choices with
        | PList l => list_index l target
        | PStr s => str_index target s
        | _ => Raise AttributeError
        end))).

(** Sample answers: three options of the proposal service, two of them
    under one title; a label file naming one gauge twice; an address
    function that takes the text of a str as it is. *)
Definition sample_options : pyval :=
  PDict [("data", PList
    [ PDict [("title", PStr "B-stETH"); ("proposalHash", PStr "0x01")];
      PDict [("title", PStr "B-rETH"); ("proposalHash", PStr "0x02")];
      PDict [("title", PStr "B-rETH"); ("proposalHash", PStr "0x03")] ])].

Definition sample_labels : list pyval :=
  [ PDict [("gauge", PStr "0xG"); ("label", PStr "old")];
    PDict [("gauge", PStr "0xH"); ("label", PStr "other")];
    PDict [("gauge", PStr "0xG"); ("label", PStr "new")] ].

Definition address_of_str (v : pyval) : outcome string :=
  match v with
  | PStr s => Ret s
  | _ => Raise TypeError
  end.

Definition sample_choices : pyval :=
  PDict [("data", PDict [("proposal", PDict [("choices",
    PList [PStr "B-stETH"; PStr "B-rETH"; PStr "B-rETH"])])])].

End BribeEcosystemsApi.

(** ** report_gauges.py *)

Module ReportGauges.
Import Py.

(** *** Constants of the module *)

Definition GAUGE_ADD_METHODS : list string := ["gauge"; "rootGauge"].
Definition CMD_GAUGE_KILL : string := "killGauge()".
Definition STYLE_MAINNET : string := "mainnet".
Definition STYLE_SINGLE_RECIPIENT : string := "Single Recipient".
Definition STYLE_CHILD_CHAIN_STREAMER : string := "ChildChainStreamer".
Definition STYLE_L0 : string := "L0 sidechain".
Definition CHAIN_MAINNET : string := "mainnet".

Definition TYPE_TO_CHAIN_MAP : list (string * string) :=
  [ ("Ethereum", CHAIN_MAINNET);
    ("Polygon", "polygon-main");
    ("Arbitrum", "arbitrum-main");
    ("Optimism", "optimism-main");
    ("Gnosis", "gnosis-main");
    ("PolygonZkEvm", "zkevm-main");
    ("Avalanche", "avax-main");
    ("Base", "base-main");
    ("EthereumSingleRecipientGauge", CHAIN_MAINNET) ].

Definition SELECTORS_MAPPING : list (string * string) :=
  [ ("getPolygonBridge", "polygon-main");
    ("getArbitrumBridge", "arbitrum-main");
    ("getGnosisBridge", "gnosis-main");
    ("getOptimismBridge", "optimism-main");
    ("getPolygonZkEVMBridge", "zkevm-main");
    ("getAvalancheBridge", "avax-main");
    ("getBaseBridge", "base-main") ].

(** The message with which the block explorer reports an unverified
    contract. *)
Definition UNVERIFIED_MESSAGE : string :=
  "Failed to retrieve data from API: {'status': '0', 'message': 'NOTOK', 'result': 'Contract source code not verified'}".

Definition CONTRACT_UNVERIFIED : pyval := PStr "CONTRACT_UNVERIFIED".

(** *** Data of the script *)

(** A transaction record of a batch file. *)
Definition transaction : Type := dict.

(** A batch file as [get_changed_files] hands it over: the JSON document
    with its [file_name] added. *)
Record file : Type := mk_file {
  file_name : string;
  chainId : pyval;
  meta : pyval;
  transactions : list transaction;
}.

(** The keyword arguments [handler] passes to a classifier. *)
Record kwargs : Type := mk_kwargs {
  chain_id : pyval;
  bip_number : pyval;
  tx_index : pyval;
}.

(** A report row: the flat dict a classifier returns. *)
Definition row : Type := dict.

(** The eight values of [get_pool_info]. *)
Record pool_info : Type := mk_pool_info {
  pool_name : pyval;
  pool_symbol : pyval;
  pool_id : pyval;
  pool_address : pyval;
  a_factor : pyval;
  fee : pyval;
  tokens : pyval;
  rate_providers : pyval;
}.

(** [report_data["file"]]: the whole file for a classifier's report, the
    file name alone for the catch-all report. *)
Record report_info : Type := mk_report_info {
  report_text : string;
  report_file : file + string;
  outputs : list row;
}.

(** What [handler] and [parse_no_reports_report] return: reports by file
    name. *)
Definition reports : Type := list (string * report_info).

(** *** The run-time state and its monad

    The script runs against services it does not own.  Their state is an
    abstract [S].  What the script does itself is logged next to it: the
    files it opens for writing and what it writes to them and, for a
    classifier wrapped by [recording], each call and what it returned. *)

Inductive event : Type :=
| Opened (path : string)                      (* [open(path, "w")] *)
| Written (path : string) (chunk : string)    (* [f.write(chunk)] *)
| Called (tx : transaction) (kw : kwargs)     (* [handler_func(tx, **kw)] *)
| Returned (data : option row).               (* ... and its value *)

Record st (S : Type) : Type := mk_st {
  ext : S;
  fs_log : list event;
}.
Arguments mk_st {S} ext fs_log.
Arguments ext {S} s.
Arguments fs_log {S} s.

(** A call into a service: it may change the service state and may raise. *)
Definition E (S A : Type) : Type := S -> outcome A * S.

(** A step of the script. *)
Definition M (S A : Type) : Type := st S -> outcome A * st S.

Definition ret {S A} (a : A) : M S A := fun s => (Ret a, s).

Definition raise {S A} (e : exn) : M S A := fun s => (Raise e, s).

Definition bind {S A B} (m : M S A) (k : A -> M S B) : M S B :=
  fun s =>
    match m s with
    | (Ret a, s') => k a s'
    | (Raise e, s') => (Raise e, s')
    end.

(** A pure Python expression that may raise. *)
Definition pure {S A} (x : outcome A) : M S A := fun s => (x, s).

(** A service call, leaving the write log alone. *)
Definition call_ext {S A} (c : E S A) : M S A :=
  fun s =>
    let '(r, x) := c (ext s) in (r, mk_st x (fs_log s)).

(** [try: m except: ...]: the exception, if any, is handed back as a
    value. *)
Definition try {S A} (m : M S A) : M S (exn + A) :=
  fun s =>
    match m s with
    | (Ret a, s') => (Ret (inr a), s')
    | (Raise e, s') => (Ret (inl e), s')
    end.

Definition log_event {S} (ev : event) : M S unit :=
  fun s => (Ret tt, mk_st (ext s) (fs_log s ++ [ev])).

Declare Scope py_scope.
Delimit Scope py_scope with py.
Notation "x <- m ; k" := (bind m (fun x => k))
  (at level 20, m at level 100, k at level 200, only parsing) : py_scope.
Notation "' pat <- m ; k" := (bind m (fun x => match x with pat => k end))
  (at level 20, pat pattern, m at level 100, k at level 200, only parsing)
  : py_scope.
Notation "m ;; k" := (bind m (fun _ => k))
  (at level 100, k at level 200, only parsing, right associativity)
  : py_scope.
Open Scope py_scope.

(** A step that logs nothing. *)
Definition quiet {S A} (m : M S A) : Prop :=
  forall s, fs_log (snd (m s)) = fs_log s.

(** A classifier whose calls and results are logged. *)
Definition recording {S}
    (handler_func : transaction -> kwargs -> M S (option row))
    (tx : transaction) (kw : kwargs) : M S (option row) :=
  log_event (Called tx kw);;
  data <- handler_func tx kw;
  log_event (Returned data);;
  ret data.

(** A classifier that hands back, in every row it returns, the index it
    was given. *)
Definition keeps_index {S}
    (handler_func : transaction -> kwargs -> M S (option row)) : Prop :=
  forall tx kw s r s',
    handler_func tx kw s = (Ret (Some r), s') ->
    dict_lookup "tx_index" r = Some (tx_index kw).

(** The row was returned by the classifier for the transaction at
    position [j] of the file, called with that position. *)
Definition returned_for {S}
    (handler_func : transaction -> kwargs -> M S (option row))
    (f : file) (j : nat) (r : row) : Prop :=
  exists tx kw s s',
    transactions f !! j = Some tx /\
    tx_index kw = PInt (Z.of_nat j) /\
    handler_func tx kw s = (Ret (Some r), s').

(** Some call of the classifier for the transaction, with the chain id
    of the file, has returned. *)
Definition returns_for {S}
    (handler_func : transaction -> kwargs -> M S (option row))
    (f : file) (tx : transaction) : Prop :=
  exists kw s data s',
    chain_id kw = chainId f /\ handler_func tx kw s = (Ret data, s').

(** A classifier reports a transaction when some call of it returns a
    row. *)
Definition reports_tx {S}
    (handler_func : transaction -> kwargs -> M S (option row))
    (tx : transaction) : Prop :=
  exists kw s r s', handler_func tx kw s = (Ret (Some r), s').

(** [for x in xs: acc = body(acc, x)] *)
Fixpoint for_each {S A B} (body : B -> A -> M S B) (xs : list A) (acc : B)
  : M S B :=
  match xs with
  | [] => ret acc
  | x :: xs' => acc' <- body acc x; for_each body xs' acc'
  end.

(** *** The services

    [C] is a brownie contract object, [AB] an address book, [BP] a
    permissions table.  The helpers of [script_utils] and the packages the
    script imports are fields of the world; so are the Python built-ins
    whose result is text formatting or number parsing. *)
Record World (S C AB BP : Type) : Type := mk_World {
  (* brownie *)
  Contract : pyval -> E S C;
  Contract_from_abi_ERC20 : pyval -> E S C;
  call : C -> string -> E S pyval;
  selectors_values : C -> list string;
  contract_name : C -> string;
  contract_address : C -> pyval;
  decode_input : C -> pyval -> E S (string * list pyval);
  (* bal_addresses *)
  to_checksum_address : pyval -> E S string;
  is_address : pyval -> bool;
  AddrBook : pyval -> E S AB;
  ADDR_BOOK : AB;
  chain_names_by_id : Z -> option pyval;
  chain_ids_by_name : list (string * pyval);
  book_chain : AB -> pyval;
  reversebook_get : AB -> pyval -> pyval -> outcome pyval;
  aura_briber : string;
  balancer_briber : string;
  gauge_adder_address : outcome string;
  BalPermissions : pyval -> E S BP;
  paths_by_action_id : BP -> pyval -> outcome (list pyval);
  (* script_utils *)
  parse_txbuilder_list_string : pyval -> E S (list pyval);
  prettify_gauge_list : list pyval -> AB -> E S pyval;
  prettify_int_amounts : list pyval -> pyval -> E S pyval;
  sum_list : list pyval -> E S pyval;
  return_hh_brib_maps : E S pyval;
  switch_chain_if_needed : pyval -> E S unit;
  get_pool_info : pyval -> E S pool_info;
  prettify_tokens_list : pyval -> E S pyval;
  prettify_contract_inputs_values : pyval -> pyval -> E S pyval;
  format_into_report : file -> list row -> pyval -> Z -> E S string;
  extract_bip_number : file -> E S pyval;
  extract_bip_number_from_file_name : string -> E S pyval;
  get_changed_files : E S (list file);
  merge_files : list reports -> E S (list (string * string));
  (* built-ins *)
  int_of_str : string -> outcome Z;
  render : string -> list pyval -> outcome pyval;
  open_w : string -> E S unit;
}.

Arguments Contract {S C AB BP} w.
Arguments Contract_from_abi_ERC20 {S C AB BP} w.
Arguments call {S C AB BP} w.
Arguments selectors_values {S C AB BP} w.
Arguments contract_name {S C AB BP} w.
Arguments contract_address {S C AB BP} w.
Arguments decode_input {S C AB BP} w.
Arguments to_checksum_address {S C AB BP} w.
Arguments is_address {S C AB BP} w.
Arguments AddrBook {S C AB BP} w.
Arguments ADDR_BOOK {S C AB BP} w.
Arguments chain_names_by_id {S C AB BP} w.
Arguments chain_ids_by_name {S C AB BP} w.
Arguments book_chain {S C AB BP} w.
Arguments reversebook_get {S C AB BP} w.
Arguments aura_briber {S C AB BP} w.
Arguments balancer_briber {S C AB BP} w.
Arguments gauge_adder_address {S C AB BP} w.
Arguments BalPermissions {S C AB BP} w.
Arguments paths_by_action_id {S C AB BP} w.
Arguments parse_txbuilder_list_string {S C AB BP} w.
Arguments prettify_gauge_list {S C AB BP} w.
Arguments prettify_int_amounts {S C AB BP} w.
Arguments sum_list {S C AB BP} w.
Arguments return_hh_brib_maps {S C AB BP} w.
Arguments switch_chain_if_needed {S C AB BP} w.
Arguments get_pool_info {S C AB BP} w.
Arguments prettify_tokens_list {S C AB BP} w.
Arguments prettify_contract_inputs_values {S C AB BP} w.
Arguments format_into_report {S C AB BP} w.
Arguments extract_bip_number {S C AB BP} w.
Arguments extract_bip_number_from_file_name {S C AB BP} w.
Arguments get_changed_files {S C AB BP} w.
Arguments merge_files {S C AB BP} w.
Arguments int_of_str {S C AB BP} w.
Arguments render {S C AB BP} w.
Arguments open_w {S C AB BP} w.

Section classifiers.
Context {S C AB BP : Type} (w : World S C AB BP).

Local Abbreviation M := (M S).

(** [int(v)] *)
Definition py_int (v : pyval) : outcome Z :=
  match v with
  | PInt z => Ret z
  | PBool b => Ret (if b then 1 else 0)%Z
  | PStr s => int_of_str w s
  | _ => Raise TypeError
  end.

(** [d.get(key, default)] where the key is itself a value. *)
Definition py_get_by (v key default : pyval) : outcome pyval :=
  match v with
  | PDict d =>
      match key with
      | PStr k => Ret (dict_get d k default)
      | PList _ | PDict _ => Raise TypeError
      | _ => Ret default
      end
  | _ => Raise AttributeError
  end.

(** [a or b] on values already computed. *)
Definition py_or (a b : pyval) : pyval := if truthy a then a else b.

(** The test every classifier starts with:
    [not transaction.get("contractInputsValues") or
     not transaction.get("contractMethod")]. *)
Definition lacks_inputs_or_method (tx : transaction) : bool :=
  negb (truthy (dict_get tx "contractInputsValues" PNone))
  || negb (truthy (dict_get tx "contractMethod" PNone)).

(** [transaction["contractInputsValues"]] and
    [transaction["contractMethod"]] once the test above has passed. *)
Definition civ_of (tx : transaction) : pyval :=
  dict_get tx "contractInputsValues" PNone.
Definition method_of (tx : transaction) : pyval :=
  dict_get tx "contractMethod" PNone.

(** **** _extract_pool *)

Definition unverified_pool : pool_info :=
  mk_pool_info CONTRACT_UNVERIFIED CONTRACT_UNVERIFIED CONTRACT_UNVERIFIED
    CONTRACT_UNVERIFIED CONTRACT_UNVERIFIED CONTRACT_UNVERIFIED
    (PList []) (PList []).

Definition no_escrow_pool : pool_info :=
  mk_pool_info (PStr "UNKNOWN - No escrow") (PStr "N/A")
    (PStr "N/A - No Escrow") (PStr "N/A") (PStr "N/A") (PStr "N/A")
    (PList [PStr "UNKNOWN"]) (PList [PStr "UNKNOWN"]).

(** [except ValueError as e:] of the sidechain branch: the unverified
    message gives the sentinels, any other exception is raised again. *)
Definition except_unverified (e : exn) : M pool_info :=
  match e with
  | ValueError msg =>
      if String.eqb msg UNVERIFIED_MESSAGE then ret unverified_pool
      else raise e
  | _ => raise e
  end.

(** The first statements of the sidechain [try]: the recipient contract,
    replaced by its reward receiver when it has one; [style] is assigned
    only after that replacement. *)
Definition sidechain_recipient_of (recipient : pyval)
  : M (C * option string) :=
  sidechain_recipient <- call_ext (Contract w recipient);
  if bool_decide ("reward_receiver" ∈ selectors_values w sidechain_recipient)
  then
    receiver <- call_ext (call w sidechain_recipient "reward_receiver");
    sidechain_recipient' <- call_ext (Contract w receiver);
    ret (sidechain_recipient', Some STYLE_CHILD_CHAIN_STREAMER)
  else ret (sidechain_recipient, None).

(** The last statement of the sidechain [try]. *)
Definition sidechain_pool_info (sidechain_recipient : C) : M pool_info :=
  lp <- call_ext (call w sidechain_recipient "lp_token");
  call_ext (get_pool_info w lp).

Definition sidechain_network_id (chain : option string) : outcome pyval :=
  match chain with
  | None => Raise AttributeError
  | Some c =>
      dict_item (chain_ids_by_name w)
        (str_replace "avax" "avalanche" (str_replace "-main" "" c))
  end.

(** The statements of the sidechain [try], run to their end or to the
    first exception: the value of [style] at that point, and the pool
    fields or the exception. *)
Definition sidechain_try (recipient : pyval)
  : M (option string * (exn + pool_info)) :=
  r1 <- try (sidechain_recipient_of recipient);
  match r1 with
  | inl e => ret (None, inl e)
  | inr (sidechain_recipient, style) =>
      r2 <- try (sidechain_pool_info sidechain_recipient);
      ret (style, r2)
  end.

(** The sidechain branch up to [style = style if style else STYLE_L0]. *)
Definition extract_sidechain_pool (chain : option string) (gauge : C)
  : M (pool_info * string) :=
  recipient <- call_ext (call w gauge "getRecipient");
  network_id <- pure (sidechain_network_id chain);
  call_ext (switch_chain_if_needed w network_id);;
  ' (style, r) <- sidechain_try recipient;
  info <-
    match r with
    | inl e => except_unverified e
    | inr info => ret info
    end;
  ret (info, default STYLE_L0 style).

(** The statements of the single-recipient [try]. *)
Definition escrow_pool_info (recipient : C) : M pool_info :=
  voting_escrow <- call_ext (call w recipient "getVotingEscrow");
  escrow <- call_ext (Contract w voting_escrow);
  token <- call_ext (call w escrow "token");
  call_ext (get_pool_info w token).

(** The single-recipient branch. *)
Definition extract_single_recipient_pool (gauge : C)
  : M (pool_info * string) :=
  recipient_address <- call_ext (call w gauge "getRecipient");
  recipient <- call_ext (Contract w recipient_address);
  r <- try (escrow_pool_info recipient);
  info <-
    match r with
    | inr info => ret info
    | inl AttributeError =>
        (* the warning printed here reads [gauge.getRecipient()] again *)
        call_ext (call w gauge "getRecipient");;
        ret no_escrow_pool
    | inl e => raise e
    end;
  ret (info, STYLE_SINGLE_RECIPIENT).

(** The mainnet branch. *)
Definition extract_mainnet_pool (gauge : C) : M (pool_info * string) :=
  lp <- call_ext (call w gauge "lp_token");
  info <- call_ext (get_pool_info w lp);
  ret (info, STYLE_MAINNET).

(** [_extract_pool(chain, gauge, gauge_selectors)]: the pool fields with
    the prettified token list, and the style. *)
Definition _extract_pool (chain : option string) (gauge : C)
    (gauge_selectors : list string) : M (pool_info * string) :=
  ' (info, style) <-
    (if negb (bool_decide (chain = Some CHAIN_MAINNET))
     then extract_sidechain_pool chain gauge
     else if negb (bool_decide ("name" ∈ gauge_selectors))
     then extract_single_recipient_pool gauge
     else extract_mainnet_pool gauge);
  tokens' <- call_ext (prettify_tokens_list w (tokens info));
  ret (mk_pool_info (pool_name info) (pool_symbol info) (pool_id info)
         (pool_address info) (a_factor info) (fee info) tokens'
         (rate_providers info),
       style).

(** [chain.replace("-main", "") if chain else "mainnet"] *)
Definition chain_label (chain : option string) : pyval :=
  match chain with
  | Some c => if String.eqb c "" then PStr "mainnet"
              else PStr (str_replace "-main" "" c)
  | None => PStr "mainnet"
  end.

(** [to_string], set by [if to_name == known: ... elif isinstance(to_name,
    str): ...] and unbound otherwise. *)
Definition to_string_of (known short template : string) (to_name : pyval)
  : outcome pyval :=
  if eq_str to_name known then Ret (PStr short)
  else match to_name with
       | PStr _ => render w template [to_name]
       | _ => Raise (UnboundLocalError "to_string")
       end.

(** The same two branches where other statements come between them and
    the first use of [to_string]: what the branches leave, and the use. *)
Definition to_string_if (known short template : string) (to_name : pyval)
  : outcome (option pyval) :=
  if eq_str to_name known then Ret (Some (PStr short))
  else match to_name with
       | PStr _ => obind (render w template [to_name]) (fun v => Ret (Some v))
       | _ => Ret None
       end.

Definition read_local (var : string) (v : option pyval) : outcome pyval :=
  match v with
  | Some x => Ret x
  | None => Raise (UnboundLocalError var)
  end.

(** [f"{gauge.getRelativeWeightCap() / 10 ** 16}%" if
    "getRelativeWeightCap" in gauge_selectors else "N/A"] *)
Definition gauge_cap_of (gauge : C) (gauge_selectors : list string)
  : M pyval :=
  if bool_decide ("getRelativeWeightCap" ∈ gauge_selectors)
  then cap <- call_ext (call w gauge "getRelativeWeightCap");
       pure (render w "{cap / 10 ** 16}%" [cap])
  else ret (PStr "N/A").

(** **** _parse_set_recipient_list *)

Definition _parse_set_recipient_list (tx : transaction) (kw : kwargs)
  : M (option row) :=
  id <- pure (py_int (chain_id kw));
  let chain_name := default PNone (chain_names_by_id w id) in
  chainbook <- call_ext (AddrBook w chain_name);
  if lacks_inputs_or_method tx then ret None else
  name <- pure (py_get (method_of tx) "name" PNone);
  if negb (eq_str name "setRecipientList") then ret None else
  to <- pure (dict_item tx "to");
  to_address <- call_ext (to_checksum_address w to);
  call_ext (switch_chain_if_needed w (chain_id kw));;
  injector <- call_ext (Contract w (PStr to_address));
  tokenAddress <- call_ext (call w injector "getInjectTokenAddress");
  token <- call_ext (Contract_from_abi_ERC20 w tokenAddress);
  decimals <- call_ext (call w token "decimals");
  symbol <- call_ext (call w token "symbol");
  raw_gauges <- pure (py_item (civ_of tx) "gaugeAddresses");
  gauge_addresses <- call_ext (parse_txbuilder_list_string w raw_gauges);
  raw_amounts <- pure (py_item (civ_of tx) "amountsPerPeriod");
  amounts_per_period <- call_ext (parse_txbuilder_list_string w raw_amounts);
  raw_periods <- pure (py_item (civ_of tx) "maxPeriods");
  max_periods <- call_ext (parse_txbuilder_list_string w raw_periods);
  if negb (bool_decide (length gauge_addresses = length amounts_per_period
                        ∧ length gauge_addresses = length max_periods))
  then raise AssertionError else
  pretty_gauges <- call_ext (prettify_gauge_list w gauge_addresses chainbook);
  pretty_amounts <-
    call_ext (prettify_int_amounts w amounts_per_period decimals);
  total_amount <- call_ext (sum_list w amounts_per_period);
  found <- pure (reversebook_get w chainbook (PStr to_address)
                   (PStr "Not Found"));
  injector_s <- pure (render w "{to_address}({found})"
                        [PStr to_address; found]);
  gauge_list <- pure (render w "json.dumps(indent=1)" [pretty_gauges]);
  amounts_s <- pure (render w "json.dumps(indent=1)" [pretty_amounts]);
  periods_s <- pure (render w "json.dumps(indent=1)" [PList max_periods]);
  total_s <- pure (render w
               "raw: {total_amount}/1e{decimals} = {total_amount / 10 ** decimals}"
               [total_amount; decimals]);
  ret (Some
    [ ("function", PStr "setRecipientList");
      ("chain", book_chain w chainbook);
      ("injector", injector_s);
      ("symbol", symbol);
      ("gaugeList", gauge_list);
      ("amounts_per_period", amounts_s);
      ("periods", periods_s);
      ("total_amount", total_s);
      ("tx_index", tx_index kw) ]).

(** **** _parse_hh_brib *)

Definition _parse_hh_brib (tx : transaction) (kw : kwargs)
  : M (option row) :=
  if lacks_inputs_or_method tx then ret None else
  name <- pure (py_get (method_of tx) "name" PNone);
  if negb (eq_str name "depositBribe") then ret None else
  prop_map <- call_ext (return_hh_brib_maps w);
  to <- pure (dict_item tx "to");
  to_address <- call_ext (to_checksum_address w to);
  match
    (if String.eqb to_address (aura_briber w) then Some "aura"
     else if String.eqb to_address (balancer_briber w) then Some "balancer"
     else None)
  with
  | None => ret None
  | Some market =>
      token_address <- pure (py_get (civ_of tx) "_token" PNone);
      token <- call_ext (Contract w token_address);
      token_symbol <- call_ext (call w token "symbol");
      token_decimals <- call_ext (call w token "decimals");
      amount_v <- pure (py_item (civ_of tx) "_amount");
      raw_amount <- pure (py_int amount_v);
      proposal_hash <- pure (py_item (civ_of tx) "_proposal");
      whole_amount <- pure (render w "{raw_amount / 10**token_decimals}"
                              [PInt raw_amount; token_decimals]);
      periods <- pure (py_get (civ_of tx) "_periods" (PStr "N/A"));
      market_props <- pure (py_item prop_map market);
      prop_data <- pure (py_get_by market_props proposal_hash PNone);
      match prop_data with
      | PDict props =>
          title <- pure (render w "{title} \n{poolId}"
                           [dict_get props "title" (PStr "Not Found");
                            dict_get props "poolId" (PStr "Not Found")]);
          paid <- pure (render w "{token_symbol} {whole_amount}({raw_amount})"
                          [token_symbol; whole_amount; PInt raw_amount]);
          mp <- pure (render w "{market} \n{proposal_hash}"
                        [PStr market; proposal_hash]);
          ret (Some
            [ ("function", PStr "depositBribe");
              ("chain", PStr "mainnet");
              ("title_and_poolId", title);
              ("incentive_paid", paid);
              ("market_and_prophash", mp);
              ("periods", periods);
              ("tx_index", tx_index kw) ])
      | _ =>
          err <- pure (render w
                   "Can not find proposal {proposal_hash} on the {market} incentive market."
                   [proposal_hash; PStr market]);
          ret (Some
            [ ("function", PStr "depositBribe");
              ("chain", PStr "mainnet");
              ("error", err);
              ("bip", bip_number kw);
              ("tx_index", tx_index kw) ])
      end
  end.

(** **** _parse_added_transaction *)

(** [any(method in transaction["contractInputsValues"] for method in
    GAUGE_ADD_METHODS)] *)
Fixpoint any_method_in (methods : list string) (civ : pyval)
  : outcome bool :=
  match methods with
  | [] => Ret false
  | method :: rest =>
      obind (py_in method civ) (fun b =>
        if b then Ret true else any_method_in rest civ)
  end.

(** [for method in GAUGE_ADD_METHODS: gauge_address = civ.get(method);
    if gauge_address: break], from [gauge_address = None]. *)
Fixpoint first_gauge_address (methods : list string) (civ : pyval)
    (gauge_address : pyval) : outcome pyval :=
  match methods with
  | [] => Ret gauge_address
  | method :: rest =>
      obind (py_get civ method PNone) (fun v =>
        if truthy v then Ret v else first_gauge_address rest civ v)
  end.

(** [TYPE_TO_CHAIN_MAP.get(gauge_type)] *)
Definition chain_of_gauge_type (gauge_type : pyval)
  : outcome (option string) :=
  match gauge_type with
  | PStr t => Ret (dict_lookup t TYPE_TO_CHAIN_MAP)
  | PList _ | PDict _ => Raise TypeError
  | _ => Ret None
  end.

Definition _parse_added_transaction (tx : transaction) (kw : kwargs)
  : M (option row) :=
  if lacks_inputs_or_method tx then ret None else
  is_add <- pure (any_method_in GAUGE_ADD_METHODS (civ_of tx));
  if negb is_add then ret None else
  command <- pure (py_item (method_of tx) "name");
  gauge_type <- pure (py_get (civ_of tx) "gaugeType" PNone);
  if negb (truthy gauge_type) then ret None else
  to <- pure (dict_item tx "to");
  adder <- pure (gauge_adder_address w);
  if negb (eq_str to adder) then ret None else
  call_ext (switch_chain_if_needed w (PInt 1));;
  chain <- pure (chain_of_gauge_type gauge_type);
  gauge_address <- pure (first_gauge_address GAUGE_ADD_METHODS (civ_of tx)
                           PNone);
  if negb (truthy gauge_address) then ret None else
  gauge <- call_ext (Contract w gauge_address);
  let gauge_selectors := selectors_values w gauge in
  gauge_cap <- gauge_cap_of gauge gauge_selectors;
  ' (info, style) <- _extract_pool chain gauge gauge_selectors;
  addr <- call_ext (AddrBook w (PStr "mainnet"));
  to <- pure (dict_item tx "to");
  to_name <- pure (reversebook_get w addr to (PStr "!!NOT-FOUND"));
  to_string <- pure (to_string_of "20230519-gauge-adder-v4/GaugeAdder"
                       "GaugeAdderV4" "!!f{to_name}??" to_name);
  function <- pure (render w "{to_string}/{command}" [to_string; command]);
  pool_s <- pure (render w "{pool_id} \npool_address: {pool_address}"
                    [pool_id info; pool_address info]);
  symbol_s <- pure (render w "{pool_symbol} \nfee: {fee}, a-factor: {a_factor}"
                      [pool_symbol info; fee info; a_factor info]);
  gauge_s <- pure (render w "{gauge_address}\nStyle: {style}, cap: {gauge_cap}"
                     [gauge_address; PStr style; gauge_cap]);
  tokens_s <- pure (render w "json.dumps(indent=2).strip('[\n]')"
                      [tokens info]);
  providers_s <- pure (render w "json.dumps(indent=2).strip('[\n ]')"
                         [rate_providers info]);
  ret (Some
    [ ("function", function);
      ("chain", chain_label chain);
      ("pool_id_and_address", pool_s);
      ("symbol_and_info", symbol_s);
      ("gauge_address_and_info", gauge_s);
      ("tokens", tokens_s);
      ("rate_providers", providers_s);
      ("bip", bip_number kw);
      ("tx_index", tx_index kw) ]).

(** **** _parse_removed_transaction *)

(** The body of the [try]: the target contract decodes the call data. *)
Definition decode_target_call (tx : transaction)
  : M (string * list pyval) :=
  target <- pure (py_item (civ_of tx) "target");
  target_address <- call_ext (to_checksum_address w target);
  target_contract <- call_ext (Contract w (PStr target_address));
  data <- pure (py_item (civ_of tx) "data");
  call_ext (decode_input w target_contract data).

(** [for selector in gauge_selectors: if selector in SELECTORS_MAPPING:
    chain = SELECTORS_MAPPING[selector]; break], from [CHAIN_MAINNET]. *)
Fixpoint chain_of_selectors (gauge_selectors : list string) : string :=
  match gauge_selectors with
  | [] => CHAIN_MAINNET
  | selector :: rest =>
      match dict_lookup selector SELECTORS_MAPPING with
      | Some chain => chain
      | None => chain_of_selectors rest
      end
  end.

Definition chain_of_root_gauge (name : string)
    (gauge_selectors : list string) : string :=
  if String.eqb name "AvalancheRootGauge" then "avax-main"
  else if String.eqb name "PolygonZkEVMRootGauge" then "zkevm-main"
  else if String.eqb name "PolygonRootGauge" then "polygon-main"
  else if String.eqb name "ArbitrumRootGauge" then "arbitrum-main"
  else if String.eqb name "OptimismRootGauge" then "optimism-main"
  else if String.eqb name "GnosisRootGauge" then "gnosis-main"
  else if String.eqb name "BaseRootGauge" then "base-main"
  else chain_of_selectors gauge_selectors.

Definition _parse_removed_transaction (tx : transaction) (kw : kwargs)
  : M (option row) :=
  if lacks_inputs_or_method tx then ret None else
  match civ_of tx with
  | PDict input_values =>
      let encoded_data := dict_get input_values "data" PNone in
      if negb (truthy encoded_data) then ret None else
      call_ext (switch_chain_if_needed w (PInt 1));;
      decoded <- try (decode_target_call tx);
      match decoded with
      | inl _ => ret None
      | inr (command, inputs) =>
          if negb (bool_decide (length inputs = 0)
                   && String.eqb command CMD_GAUGE_KILL)
          then ret None else
          gauge_address <- pure (py_item (civ_of tx) "target");
          gauge <- call_ext (Contract w gauge_address);
          let gauge_selectors := selectors_values w gauge in
          gauge_cap <- gauge_cap_of gauge gauge_selectors;
          let chain :=
            chain_of_root_gauge (contract_name w gauge) gauge_selectors in
          ' (info, style) <- _extract_pool (Some chain) gauge gauge_selectors;
          addr <- call_ext (AddrBook w (PStr "mainnet"));
          to <- pure (dict_item tx "to");
          to_name <- pure (reversebook_get w addr to (PStr "!!NOT-FOUND"));
          to_string <-
            pure (to_string_of
                    "20221124-authorizer-adaptor-entrypoint/AuthorizerAdaptorEntrypoint"
                    "AAEntrypoint" "!!f{to_name}??" to_name);
          function <- pure (render w "{to_string}/{command}"
                              [to_string; PStr command]);
          fee_s <- pure (render w "{fee}%" [fee info]);
          ret (Some
            [ ("function", function);
              ("chain", chain_label (Some chain));
              ("pool_id", pool_id info);
              ("symbol", pool_symbol info);
              ("a", a_factor info);
              ("gauge_address", gauge_address);
              ("fee", fee_s);
              ("cap", gauge_cap);
              ("style", PStr style);
              ("bip", bip_number kw);
              ("tx_index", tx_index kw);
              ("tokens", tokens info) ])
      end
  | _ => ret None
  end.

(** **** _parse_permissions *)

(** [fx_paths = [*fx_paths, *perms.paths_by_action_id[action_id]]] over
    the action ids. *)
Fixpoint collect_paths (perms : BP) (action_ids fx_paths : list pyval)
  : outcome (list pyval) :=
  match action_ids with
  | [] => Ret fx_paths
  | action_id :: rest =>
      obind (paths_by_action_id w perms action_id) (fun paths =>
        collect_paths perms rest (fx_paths ++ paths))
  end.

(** The action ids: the [role] input alone when [roles] is missing or
    empty, the comma-separated [roles] string otherwise. *)
Definition action_ids_of (civ : pyval) : outcome pyval :=
  obind (py_get civ "roles" PNone) (fun roles =>
    if negb (truthy roles)
    then obind (py_get civ "role" PNone) (fun role => Ret (PList [role]))
    else match roles with
         | PStr _ =>
             render w "strip('[ ]').replace(' ', '').split(',')" [roles]
         | _ => Raise AttributeError
         end).

Definition _parse_permissions (tx : transaction) (kw : kwargs)
  : M (option row) :=
  if lacks_inputs_or_method tx then ret None else
  function <- pure (py_get (method_of tx) "name" PNone);
  has_role <- pure (py_in "Role" function);
  if negb has_role then ret None else
  id <- pure (py_int (chain_id kw));
  let chain_name := default PNone (chain_names_by_id w id) in
  if negb (truthy chain_name) then ret None else
  perms <- call_ext (BalPermissions w chain_name);
  addr <- call_ext (AddrBook w chain_name);
  ids <- pure (action_ids_of (civ_of tx));
  match ids with
  | PList action_ids =>
      to <- pure (dict_item tx "to");
      to_name <- pure (reversebook_get w addr to (PStr "!!NOT-FOUND"));
      to_string <- pure (to_string_if "20210418-authorizer/Authorizer"
                           "Authorizer" "!!{to_name}??" to_name);
      caller_address <- pure (py_get (civ_of tx) "account" PNone);
      caller_name <- pure (reversebook_get w addr caller_address
                             (PStr "!!NOT FOUND!!"));
      fx_paths <- pure (collect_paths perms action_ids []);
      to_string <- pure (read_local "to_string" to_string);
      function_s <- pure (render w "{to_string}/{function}"
                            [to_string; function]);
      paths_s <- pure (render w "'\n'.join" [PList fx_paths]);
      ids_s <- pure (render w "'\n'.join" [PList action_ids]);
      ret (Some
        [ ("function", function_s);
          ("chain", chain_name);
          ("caller_name", caller_name);
          ("caller_address", caller_address);
          ("fx_paths", paths_s);
          ("action_ids", ids_s);
          ("bip", bip_number kw);
          ("tx_index", tx_index kw) ])
  | _ => ret None
  end.

(** **** _parse_transfer *)

(** The loop over [AddrBook.chain_ids_by_name.items()]: the first chain
    whose id equals [int(chain_id)] names the chain and opens its address
    book; without a match [chain_name] stays ["main"] and [addresses]
    stays unbound. *)
Fixpoint find_chain (items : list (string * pyval)) (chain_id : pyval)
  : M (string * option AB) :=
  match items with
  | [] => ret ("main", None)
  | (c_name, c_id) :: rest =>
      id <- pure (py_int chain_id);
      id' <- pure (py_int c_id);
      if (id =? id')%Z
      then
        addresses <- call_ext (AddrBook w (PStr c_name));
        ret (if String.eqb c_name "mainnet" then "mainnet"
             else c_name ++ "-main",
             Some addresses)
      else find_chain rest chain_id
  end.

(** [civ.get(k1) or civ.get(k2) or ...] *)
Fixpoint first_truthy (civ : pyval) (keys : list string) : outcome pyval :=
  match keys with
  | [] => Ret PNone
  | [k] => py_get civ k PNone
  | k :: rest =>
      obind (py_get civ k PNone) (fun v =>
        if truthy v then Ret v else first_truthy civ rest)
  end.

Definition _parse_transfer (tx : transaction) (kw : kwargs)
  : M (option row) :=
  if lacks_inputs_or_method tx then ret None else
  name <- pure (py_item (method_of tx) "name");
  if negb (eq_str name "transfer") then ret None else
  ' (chain_name, addresses) <- find_chain (chain_ids_by_name w) (chain_id kw);
  if String.eqb chain_name "" then ret None else
  call_ext (switch_chain_if_needed w (chain_id kw));;
  to <- pure (dict_item tx "to");
  token <- call_ext (Contract w to);
  found <- pure (first_truthy (civ_of tx) ["to"; "dst"; "recipient"; "_to"]);
  recipient_address <-
    (if is_address w found
     then a <- call_ext (to_checksum_address w found); ret (PStr a)
     else ret PNone);
  raw_amount <- pure (first_truthy (civ_of tx)
                        ["amount"; "value"; "wad"; "_value"]);
  amount <-
    (if truthy raw_amount
     then n <- pure (py_int raw_amount);
          decimals <- call_ext (call w token "decimals");
          pure (render w "{int(raw_amount) / 10 ** decimals}"
                  [PInt n; decimals])
     else ret (PStr "N/A"));
  symbol <- call_ext (call w token "symbol");
  recipient_name <-
    match addresses with
    | Some book =>
        pure (reversebook_get w book recipient_address (PStr "N/A"))
    | None => raise (UnboundLocalError "addresses")
    end;
  token_s <- pure (render w "{symbol}:{token.address}"
                     [symbol; contract_address w token]);
  recipient_s <- pure (render w "{recipient_name}:{recipient_address}"
                         [recipient_name; recipient_address]);
  amount_s <- pure (render w "{amount} (RAW: {raw_amount})"
                      [amount; raw_amount]);
  ret (Some
    [ ("function", PStr "transfer");
      ("chain", chain_label (Some chain_name));
      ("token_symbol", token_s);
      ("recipient", recipient_s);
      ("amount", amount_s);
      ("bip", bip_number kw);
      ("tx_index", tx_index kw) ]).

(** **** handler *)

(** [transaction.get("meta", {}).get("bip_number")] *)
Definition meta_bip_number (tx : transaction) : outcome pyval :=
  py_get (dict_get tx "meta" (PDict [])) "bip_number" PNone.

(** [if data: outputs.append(data)]: [None] and the empty dict are
    falsy. *)
Definition append_report (outputs : list row) (data : option row)
  : list row :=
  match data with
  | Some (item :: r) => (outputs ++ [item :: r])%list
  | _ => outputs
  end.

(** One turn of the loop over [tx_list]; the loop state is [outputs]
    and the counter [i]. *)
Definition handle_transaction
    (handler_func : transaction -> kwargs -> M (option row)) (f : file)
    (acc : list row * nat) (tx : transaction) : M (list row * nat) :=
  let '(outputs, i) := acc in
  b <- pure (meta_bip_number tx);
  bip <- (if truthy b then ret b else call_ext (extract_bip_number w f));
  data <- handler_func tx (mk_kwargs (chainId f) bip (PInt (Z.of_nat i)));
  ret (append_report outputs data, Datatypes.S i).

(** One turn of the loop over [files]. *)
Definition handle_file
    (handler_func : transaction -> kwargs -> M (option row))
    (reps : reports) (f : file) : M reports :=
  ' (outputs, _) <-
    for_each (handle_transaction handler_func f) (transactions f) ([], 0);
  match outputs with
  | [] => ret reps
  | _ =>
      multisig <- pure (py_item (meta f) "createdFromSafeAddress");
      id <- pure (py_int (chainId f));
      text <- call_ext (format_into_report w f outputs multisig id);
      ret (dict_set (file_name f) (mk_report_info text (inl f) outputs) reps)
  end.

Definition handler (files : list file)
    (handler_func : transaction -> kwargs -> M (option row)) : M reports :=
  for_each (handle_file handler_func) files [].

(** **** parse_no_reports_report *)

(** The three dicts filled by the first loop, all keyed by file name. *)
Definition tx_list_len_by_file (files : list file) : list (string * nat) :=
  foldl (fun d f => dict_set (file_name f) (length (transactions f)) d)
    [] files.

Definition empty_covered_by_file (files : list file)
  : list (string * gset hkey) :=
  foldl (fun d f => dict_set (file_name f) ∅ d) [] files.

Definition filedata_by_file (files : list file) : list (string * file) :=
  foldl (fun d f => dict_set (file_name f) f d) [] files.

(** [covered_indexs_by_file[filename].add(output.get("tx_index"))] *)
Definition cover_output (filename : string)
    (covered : list (string * gset hkey)) (output : row)
  : outcome (list (string * gset hkey)) :=
  match dict_lookup filename covered with
  | None => Raise (KeyError filename)
  | Some indexes =>
      obind (hash_key (dict_get output "tx_index" PNone)) (fun k =>
        Ret (dict_set filename (indexes ∪ {[k]}) covered))
  end.

(** The second loop: over the reports, their files and their outputs. *)
Definition cover_report (covered : list (string * gset hkey))
    (report_info : reports) : outcome (list (string * gset hkey)) :=
  ofold (fun cov '(filename, info) =>
           ofold (cover_output filename) (outputs info) cov)
    report_info covered.

Definition covered_indexs_by_file (all_reports : list reports)
    (files : list file) : outcome (list (string * gset hkey)) :=
  ofold cover_report all_reports (empty_covered_by_file files).

(** [set(all_indexes).symmetric_difference(covered_indexes)], with index 0
    added when nothing is covered. *)
Definition uncovered_indexs (tx_list_len : nat) (covered_indexes : gset hkey)
  : gset hkey :=
  let all_indexes := range_set tx_list_len in
  let uncovered :=
    (all_indexes ∖ covered_indexes) ∪ (covered_indexes ∖ all_indexes) in
  if bool_decide (size covered_indexes = 0)
  then uncovered ∪ {[KInt 0]} else uncovered.

(** The row reported for the uncovered transaction at index [i]. *)
Definition no_report_row (filename : string) (filedata : file)
    (chain_name : pyval) (addr : AB) (i : hkey) : M row :=
  tx <- pure (list_item (transactions filedata) i);
  to <- pure (dict_item tx "to");
  b <- pure (meta_bip_number tx);
  bip_number <-
    (if truthy b then ret b
     else call_ext (extract_bip_number_from_file_name w filename));
  let civ := dict_get tx "contractInputsValues" PNone in
  civ_parsed <-
    match civ with
    | PDict _ =>
        call_ext (prettify_contract_inputs_values w chain_name civ)
    | _ =>
        let data := dict_get tx "data" PNone in
        if truthy data then ret data else ret (PStr "N/A")
    end;
  let contractMethod := dict_get tx "contractMethod" (PDict []) in
  let value := dict_get tx "value" PNone in
  valuestring <-
    (if truthy value
     then v <- pure (py_int value);
          if (v =? 0)%Z then pure (render w "str(value)" [PInt v])
          else pure (render w "{value}/1e18 = {int(value) / 1e18}" [PInt v])
     else ret (PStr "N/A"));
  fx_name <-
    (if truthy contractMethod
     then pure (py_get contractMethod "name" (PStr "!!N/A!!"))
     else ret (PStr "!!N/A!!"));
  found <- pure (reversebook_get w addr to (PStr "Not Found"));
  to_s <- pure (render w "{to} ({found})" [to; found]);
  inputs <- pure (render w "json.dumps(indent=2)" [civ_parsed]);
  ret [ ("fx_name", fx_name);
        ("to", to_s);
        ("chain", chain_name);
        ("value", valuestring);
        ("inputs", inputs);
        ("bip_number", bip_number);
        ("tx_index", dict_get tx "tx_index" (PStr "N/A")) ].

(** One turn of the third loop, over
    [covered_indexs_by_file.items()].  The set of uncovered indexes is
    walked as [set_iter] has it. *)
Definition report_uncovered (files : list file) (reps : reports)
    (entry : string * gset hkey) : M reports :=
  let '(filename, covered_indexes) := entry in
  let tx_list_len :=
    default 0 (dict_lookup filename (tx_list_len_by_file files)) in
  let uncovered := uncovered_indexs tx_list_len covered_indexes in
  if bool_decide (size uncovered = 0) then ret reps else
  match dict_lookup filename (filedata_by_file files) with
  | None => raise (KeyError "meta")
  | Some filedata =>
      multisig <- pure (py_item (meta filedata) "createdFromSafeAddress");
      id <- pure (py_int (chainId filedata));
      let chain_name :=
        default (PStr "Chain_not_found") (chain_names_by_id w id) in
      addr <- call_ext (AddrBook w chain_name);
      no_reports <-
        for_each (fun rows i =>
                    r <- no_report_row filename filedata chain_name addr i;
                    ret (rows ++ [r])%list)
          (set_iter uncovered) [];
      id' <- pure (py_int (chainId filedata));
      text <- call_ext (format_into_report w filedata no_reports multisig id');
      ret (dict_set filename
             (mk_report_info text (inr filename) no_reports) reps)
  end.

Definition parse_no_reports_report (all_reports : list reports)
    (files : list file) : M reports :=
  covered <- pure (covered_indexs_by_file all_reports files);
  for_each (report_uncovered files) covered [].

(** **** main *)

(** [with open(path, "w") as f: for chunk in chunks: f.write(chunk)] *)
Definition write_file (path : string) (chunks : list string) : M unit :=
  call_ext (open_w w path);;
  log_event (Opened path);;
  for_each (fun _ chunk => log_event (Written path chunk)) chunks tt.

(** The name under which the report of [filename] is saved. *)
Definition report_path (filename : string) : string :=
  "../../" ++ str_replace ".json" ".report.txt" filename.

Definition main : M unit :=
  files <- call_ext (get_changed_files w);
  r1 <- handler files _parse_added_transaction;
  r2 <- handler files _parse_removed_transaction;
  r3 <- handler files _parse_transfer;
  r4 <- handler files _parse_permissions;
  r5 <- handler files _parse_hh_brib;
  r6 <- handler files _parse_set_recipient_list;
  let all_reports := [r1; r2; r3; r4; r5; r6] in
  no_reports_report <- parse_no_reports_report all_reports files;
  merged_files <-
    call_ext (merge_files w (all_reports ++ [no_reports_report])%list);
  (match merged_files with
   | [] => ret tt
   | _ => write_file "payload_reports.txt" (snd <$> merged_files)
   end);;
  for_each (fun _ '(filename, report) =>
              write_file (report_path filename) [report])
    merged_files tt.

(** **** Conditions used in the statements *)

(** The row is the one the catch-all reporter makes of the transaction:
    its [tx_index] is the transaction's own (or "N/A"), its [to] is made
    of the transaction's [to] and what the address book has for it, and
    its [fx_name] is the name of the transaction's method, "!!N/A!!"
    without one. *)
Definition unclassified_row (tx : transaction) (r : row) : Prop :=
  dict_lookup "tx_index" r = Some (dict_get tx "tx_index" (PStr "N/A")) /\
  (exists to found to_s,
     dict_lookup "to" tx = Some to /\
     render w "{to} ({found})" [to; found] = Ret to_s /\
     dict_lookup "to" r = Some to_s) /\
  (exists fx_name,
     (if truthy (dict_get tx "contractMethod" (PDict []))
      then py_get (dict_get tx "contractMethod" (PDict [])) "name"
             (PStr "!!N/A!!")
      else Ret (PStr "!!N/A!!")) = Ret fx_name /\
     dict_lookup "fx_name" r = Some fx_name).

(** Failed service calls.  [failures] reads, off the state of the
    services, the exceptions their calls have raised so far: a call
    records its failure when it adds the exception it raises to them, and
    nothing when it returns. *)
Definition records_failure {A} (failures : S -> list exn) (c : E S A)
  : Prop :=
  forall x,
    failures (snd (c x))
    = (failures x ++ match fst (c x) with
                     | Raise e => [e]
                     | Ret _ => []
                     end)%list.

(** ... and so does every service of the world. *)
Record failures_recorded (failures : S -> list exn) : Prop := {
  rec_Contract : forall a, records_failure failures (Contract w a);
  rec_Contract_from_abi_ERC20 :
    forall a, records_failure failures (Contract_from_abi_ERC20 w a);
  rec_call : forall c name, records_failure failures (call w c name);
  rec_decode_input :
    forall c data, records_failure failures (decode_input w c data);
  rec_to_checksum_address :
    forall a, records_failure failures (to_checksum_address w a);
  rec_AddrBook : forall chain, records_failure failures (AddrBook w chain);
  rec_BalPermissions :
    forall chain, records_failure failures (BalPermissions w chain);
  rec_parse_txbuilder_list_string :
    forall v, records_failure failures (parse_txbuilder_list_string w v);
  rec_prettify_gauge_list :
    forall l book, records_failure failures (prettify_gauge_list w l book);
  rec_prettify_int_amounts :
    forall l d, records_failure failures (prettify_int_amounts w l d);
  rec_sum_list : forall l, records_failure failures (sum_list w l);
  rec_return_hh_brib_maps :
    records_failure failures (return_hh_brib_maps w);
  rec_switch_chain_if_needed :
    forall id, records_failure failures (switch_chain_if_needed w id);
  rec_get_pool_info :
    forall a, records_failure failures (get_pool_info w a);
  rec_prettify_tokens_list :
    forall l, records_failure failures (prettify_tokens_list w l);
  rec_prettify_contract_inputs_values :
    forall chain civ,
      records_failure failures (prettify_contract_inputs_values w chain civ);
  rec_format_into_report :
    forall f rows multisig id,
      records_failure failures (format_into_report w f rows multisig id);
  rec_extract_bip_number :
    forall f, records_failure failures (extract_bip_number w f);
  rec_extract_bip_number_from_file_name :
    forall name,
      records_failure failures (extract_bip_number_from_file_name w name);
  rec_get_changed_files : records_failure failures (get_changed_files w);
  rec_merge_files :
    forall all_reports, records_failure failures (merge_files w all_reports);
  rec_open_w : forall path, records_failure failures (open_w w path);
}.

(** What a step does with the failures of the services it calls.  In a
    run that ends well, the failures recorded during the run were all
    swallowed, and [P] holds of them.  In a run that raises [e], [P]
    holds of the failures swallowed before, and [e] is the failure
    recorded last, unless no service but the script itself raised it. *)
Definition swallows_only {A} (failures : S -> list exn)
    (P : list exn -> Prop) (m : M A) : Prop :=
  forall s r s', m s = (r, s') ->
    exists l, failures (ext s') = (failures (ext s) ++ l)%list /\
      match r with
      | Ret _ => P l
      | Raise e => exists l0, P l0 /\ (l = l0 \/ l = (l0 ++ [e])%list)
      end.

(** No failure; the failures [_extract_pool] catches; one failure of any
    kind. *)
Definition nothing (l : list exn) : Prop := l = [].

Definition pool_catch (l : list exn) : Prop :=
  l = [] \/ l = [ValueError UNVERIFIED_MESSAGE] \/ l = [AttributeError].

Definition at_most_one (l : list exn) : Prop := (length l <= 1)%nat.

(** [_parse_set_recipient_list] opens the address book of the chain
    before it looks at the transaction; [x'] is the service state after
    that. *)
Definition book_opened (kw : kwargs) (s : st S) (x' : S) : Prop :=
  exists id book,
    py_int (chain_id kw) = Ret id /\
    AddrBook w (default PNone (chain_names_by_id w id)) (ext s)
      = (Ret book, x').

End classifiers.

(** *** The spec's wording of coverage

    The indices claimed for a file by the outputs of the reports handed to
    the catch-all reporter: the union, over every report and every entry
    of it filed under [filename], of the [tx_index] values of its
    outputs. *)
Definition claimed_index (output : row) : option hkey :=
  match hash_key (dict_get output "tx_index" PNone) with
  | Ret k => Some k
  | Raise _ => None
  end.

Definition claimed_by_entry (filename : string)
    (entry : string * report_info) : gset hkey :=
  if String.eqb filename (fst entry)
  then list_to_set (omap claimed_index (outputs (snd entry)))
  else ∅.

Definition claimed_by_report (filename : string) (report : reports)
  : gset hkey :=
  ⋃ (claimed_by_entry filename <$> report).

Definition claimed (all_reports : list reports) (filename : string)
  : gset hkey :=
  ⋃ (claimed_by_report filename <$> all_reports).

(** The row carries, under [tx_index], the position of one of the
    transactions of the file. *)
Definition index_of_file (f : file) (r : row) : Prop :=
  exists j : nat,
    (j < length (transactions f))%nat /\
    dict_lookup "tx_index" r = Some (PInt (Z.of_nat j)).

(** The report was made for the file: it is filed under the name of the
    file, holds the file, and has at least one output, each for a
    transaction of the file. *)
Definition report_of_file (f : file) (entry : string * report_info) : Prop :=
  fst entry = file_name f /\
  report_file (snd entry) = inl f /\
  outputs (snd entry) <> [] /\
  Forall (index_of_file f) (outputs (snd entry)).

(** A file's set of covered indices, when it has one, with [extra]
    added. *)
Definition add_claims (extra : gset hkey) (o : option (gset hkey))
  : option (gset hkey) :=
  (fun c => c ∪ extra) <$> o.

(** The file that the dicts of [parse_no_reports_report] keep under
    [filename]: the last one of that name. *)
Fixpoint last_file (filename : string) (files : list file) : option file :=
  match files with
  | [] => None
  | f :: rest =>
      match last_file filename rest with
      | Some f' => Some f'
      | None => if String.eqb filename (file_name f) then Some f else None
      end
  end.

(** *** merge_files

    Modelled from the spec: [merge_files] of [script_utils], which is not
    among the sources.  The spec has the run end with one text report per
    input file and a combined report holding every per-file report; the
    helper therefore joins, per file name, the [report_text] of every
    report given for that file, file names in order of first appearance. *)
Definition merge_report (merged : list (string * string))
    (entry : string * report_info) : list (string * string) :=
  let '(filename, info) := entry in
  dict_set filename
    (default "" (dict_lookup filename merged) ++ report_text info) merged.

Definition merge_files_model (all_reports : list reports)
  : list (string * string) :=
  foldl (fun merged report => foldl merge_report merged report) [] all_reports.

(** *** A world to run the script in

    Every service answers at once and keeps no state.  [lookup] is what
    constructing a contract object gives (a failure of the remote lookup
    when it is [Raise]); [changed] are the batch files of the run.  Any
    contract has the selector [name]; the address book knows no address;
    formatting yields its template. *)
Definition answer {A} (a : A) : E unit A := fun x => (Ret a, x).

Definition fail_or {A} (lookup : outcome unit) (a : A) : E unit A :=
  fun x => (obind lookup (fun _ => Ret a), x).

Definition sample_pool : pool_info :=
  mk_pool_info (PStr "pool") (PStr "SYM") (PStr "0xid") (PStr "0xpool")
    (PStr "N/A") (PStr "0.01") (PList []) (PList []).

Definition int_of_digits (s : string) : outcome Z :=
  match BribeEcosystems.float_of_digits s with
  | Ret z => Ret z
  | Raise _ => Raise (ValueError "invalid literal for int()")
  end.

Definition plain_world (lookup : outcome unit) (changed : list file)
  : World unit unit unit unit :=
  {| Contract := fun _ => fail_or lookup tt;
     Contract_from_abi_ERC20 := fun _ => fail_or lookup tt;
     call := fun _ _ => answer (PStr "0xresult");
     selectors_values := fun _ => ["name"];
     contract_name := fun _ => "Gauge";
     contract_address := fun _ => PStr "0xcontract";
     decode_input := fun _ _ => answer (CMD_GAUGE_KILL, []);
     to_checksum_address := fun v =>
       match v with
       | PStr a => answer a
       | _ => fun x => (Raise TypeError, x)
       end;
     is_address := fun v => match v with PStr _ => true | _ => false end;
     AddrBook := fun _ => answer tt;
     ADDR_BOOK := tt;
     chain_names_by_id := fun id =>
       if (id =? 1)%Z then Some (PStr "mainnet")
       else if (id =? 137)%Z then Some (PStr "polygon")
       else None;
     chain_ids_by_name := [("mainnet", PInt 1); ("polygon", PInt 137)];
     book_chain := fun _ => PStr "mainnet";
     reversebook_get := fun _ _ default => Ret default;
     aura_briber := "0xAuraBriber";
     balancer_briber := "0xBalancerBriber";
     gauge_adder_address := Ret "0xGaugeAdder";
     BalPermissions := fun _ => answer tt;
     paths_by_action_id := fun _ _ => Ret [];
     parse_txbuilder_list_string := fun _ => answer [];
     prettify_gauge_list := fun _ _ => answer (PList []);
     prettify_int_amounts := fun _ _ => answer (PList []);
     sum_list := fun _ => answer (PInt 0);
     return_hh_brib_maps :=
       answer (PDict [("aura", PDict []); ("balancer", PDict [])]);
     switch_chain_if_needed := fun _ => answer tt;
     get_pool_info := fun _ => answer sample_pool;
     prettify_tokens_list := fun tokens => answer tokens;
     prettify_contract_inputs_values := fun _ civ => answer civ;
     format_into_report := fun f _ _ _ => answer (file_name f);
     extract_bip_number := fun _ => answer (PStr "N/A");
     extract_bip_number_from_file_name := fun _ => answer (PStr "N/A");
     get_changed_files := answer changed;
     merge_files := fun all_reports => answer (merge_files_model all_reports);
     int_of_str := int_of_digits;
     render := fun template _ => Ret (PStr template);
     open_w := fun _ => answer tt |}.

(** The same services keeping a record of their failures: the state
    is paired with the exceptions raised so far. *)
Definition traced_call {S A} (c : E S A) : E (S * list exn) A :=
  fun x =>
    let '(r, x') := c (fst x) in
    (r, (x', (snd x ++ match r with
                       | Raise e => [e]
                       | Ret _ => []
                       end)%list)).

Definition traced {S C AB BP} (w : World S C AB BP)
  : World (S * list exn) C AB BP :=
  {| Contract := fun a => traced_call (Contract w a);
     Contract_from_abi_ERC20 := fun a =>
       traced_call (Contract_from_abi_ERC20 w a);
     call := fun c name => traced_call (call w c name);
     selectors_values := selectors_values w;
     contract_name := contract_name w;
     contract_address := contract_address w;
     decode_input := fun c data => traced_call (decode_input w c data);
     to_checksum_address := fun a => traced_call (to_checksum_address w a);
     is_address := is_address w;
     AddrBook := fun chain => traced_call (AddrBook w chain);
     ADDR_BOOK := ADDR_BOOK w;
     chain_names_by_id := chain_names_by_id w;
     chain_ids_by_name := chain_ids_by_name w;
     book_chain := book_chain w;
     reversebook_get := reversebook_get w;
     aura_briber := aura_briber w;
     balancer_briber := balancer_briber w;
     gauge_adder_address := gauge_adder_address w;
     BalPermissions := fun chain => traced_call (BalPermissions w chain);
     paths_by_action_id := paths_by_action_id w;
     parse_txbuilder_list_string := fun v =>
       traced_call (parse_txbuilder_list_string w v);
     prettify_gauge_list := fun l book =>
       traced_call (prettify_gauge_list w l book);
     prettify_int_amounts := fun l d =>
       traced_call (prettify_int_amounts w l d);
     sum_list := fun l => traced_call (sum_list w l);
     return_hh_brib_maps := traced_call (return_hh_brib_maps w);
     switch_chain_if_needed := fun id =>
       traced_call (switch_chain_if_needed w id);
     get_pool_info := fun a => traced_call (get_pool_info w a);
     prettify_tokens_list := fun l => traced_call (prettify_tokens_list w l);
     prettify_contract_inputs_values := fun chain civ =>
       traced_call (prettify_contract_inputs_values w chain civ);
     format_into_report := fun f rows multisig id =>
       traced_call (format_into_report w f rows multisig id);
     extract_bip_number := fun f => traced_call (extract_bip_number w f);
     extract_bip_number_from_file_name := fun name =>
       traced_call (extract_bip_number_from_file_name w name);
     get_changed_files := traced_call (get_changed_files w);
     merge_files := fun all_reports =>
       traced_call (merge_files w all_reports);
     int_of_str := int_of_str w;
     render := render w;
     open_w := fun path => traced_call (open_w w path) |}.

(** The state a run starts in: nothing logged yet. *)
Definition start : st unit := mk_st tt [].

(** Sample records.  A call of the gauge adder under a method name of
    one's choice; a transfer whose [contractMethod] has no name; a gauge
    removal through the authorizer adaptor; a batch file without
    transactions, one with the first two of these, and a report claiming
    index 0 of the latter. *)
Definition gauge_add_tx (name : string) : transaction :=
  [ ("to", PStr "0xGaugeAdder");
    ("value", PStr "0");
    ("contractMethod", PDict [("name", PStr name)]);
    ("contractInputsValues",
       PDict [("gauge", PStr "0xGauge"); ("gaugeType", PStr "Ethereum")]) ].

Definition nameless_transfer_tx : transaction :=
  [ ("to", PStr "0xToken");
    ("value", PStr "0");
    ("contractMethod", PDict [("payable", PBool false)]);
    ("contractInputsValues",
       PDict [("to", PStr "0xRecipient"); ("amount", PStr "1000")]) ].

Definition gauge_kill_tx : transaction :=
  [ ("to", PStr "0xEntrypoint");
    ("value", PStr "0");
    ("contractMethod", PDict [("name", PStr "performAction")]);
    ("contractInputsValues",
       PDict [("target", PStr "0xGauge"); ("data", PStr "0xab8f0945")]) ].

Definition empty_file : file :=
  mk_file "BIPs/BIP-1.json" (PInt 1)
    (PDict [("createdFromSafeAddress", PStr "0xSafe")]) [].

Definition sample_file : file :=
  mk_file "BIPs/BIP-2.json" (PInt 1)
    (PDict [("createdFromSafeAddress", PStr "0xSafe")])
    [gauge_add_tx "addGauge"; nameless_transfer_tx].

Definition sample_report : reports :=
  [ ("BIPs/BIP-2.json",
     mk_report_info "report" (inl sample_file)
       [[("function", PStr "GaugeAdderV4/addGauge");
         ("tx_index", PInt 0)]]) ].

(** More sample records: a token transfer, a call no classifier knows, a
    gauge-adder call with a gauge type outside [TYPE_TO_CHAIN_MAP]; a
    batch file with a gauge addition, a transfer and the unknown call, and
    the transfer alone in a batch for a chain the address book lacks. *)
Definition transfer_tx : transaction :=
  [ ("to", PStr "0xToken");
    ("value", PStr "0");
    ("contractMethod", PDict [("name", PStr "transfer")]);
    ("contractInputsValues",
       PDict [("to", PStr "0xRecipient"); ("amount", PStr "1000")]) ].

Definition delegate_tx : transaction :=
  [ ("to", PStr "0xRegistry");
    ("value", PStr "0");
    ("contractMethod", PDict [("name", PStr "setDelegate")]);
    ("contractInputsValues", PDict [("delegate", PStr "0xDelegate")]) ].

Definition fantom_gauge_tx : transaction :=
  [ ("to", PStr "0xGaugeAdder");
    ("value", PStr "0");
    ("contractMethod", PDict [("name", PStr "addGauge")]);
    ("contractInputsValues",
       PDict [("gauge", PStr "0xGauge"); ("gaugeType", PStr "Fantom")]) ].

Definition mixed_file : file :=
  mk_file "BIPs/BIP-3.json" (PInt 1)
    (PDict [("createdFromSafeAddress", PStr "0xSafe")])
    [gauge_add_tx "addGauge"; transfer_tx; delegate_tx].

Definition unknown_chain_file : file :=
  mk_file "BIPs/BIP-4.json" (PInt 999)
    (PDict [("createdFromSafeAddress", PStr "0xSafe")])
    [transfer_tx].

(** A record without inputs and method, and a batch holding it after a
    gauge addition. *)
Definition bare_tx : transaction :=
  [ ("to", PStr "0xSafe"); ("value", PStr "0") ].

Definition bare_file : file :=
  mk_file "BIPs/BIP-5.json" (PInt 1)
    (PDict [("createdFromSafeAddress", PStr "0xSafe")])
    [gauge_add_tx "addGauge"; bare_tx].

(** A bribe deposited with the aura briber. *)
Definition deposit_tx : transaction :=
  [ ("to", PStr "0xAuraBriber");
    ("value", PStr "0");
    ("contractMethod", PDict [("name", PStr "depositBribe")]);
    ("contractInputsValues",
       PDict [("_token", PStr "0xToken"); ("_amount", PStr "1000");
              ("_proposal", PStr "0xProposal")]) ].

Definition sample_kw : kwargs := mk_kwargs (PInt 1) (PStr "BIP-3") (PInt 0).

(** The exception of a lookup that fails for a reason of its own. *)
Definition connection_refused : exn := OtherError "connection refused".

(** [contractMethod.name] of a transaction whose [contractMethod] is a
    dict holding a name. *)
Definition method_name (tx : transaction) : option pyval :=
  match dict_lookup "contractMethod" tx with
  | Some (PDict m) => dict_lookup "name" m
  | _ => None
  end.

(** The files events of a log. *)
Definition is_file_event (ev : event) : bool :=
  match ev with
  | Opened _ | Written _ _ => true
  | _ => false
  end.

(** The calls of a log, as (transaction, chain id, index). *)
Definition call_of (ev : event) : option (transaction * pyval * pyval) :=
  match ev with
  | Called tx kw => Some (tx, chain_id kw, tx_index kw)
  | _ => None
  end.

(** The reports a classifier returned, in the order of a log. *)
Definition report_of (ev : event) : option row :=
  match ev with
  | Returned (Some (item :: r)) => Some (item :: r)
  | _ => None
  end.

(** What [main] writes for a merged map: the combined report when the map
    is not empty, then one report per entry. *)
Definition payload_events (merged : list (string * string)) : list event :=
  match merged with
  | [] => []
  | _ => Opened "payload_reports.txt"
         :: (Written "payload_reports.txt" <$> merged.*2)
  end.

Definition report_events (merged : list (string * string)) : list event :=
  flat_map (fun '(filename, report) =>
              [Opened (report_path filename);
               Written (report_path filename) report])
    merged.

(** The calls [handler] owes the transactions of a file from position [i]
    on, and the file as a whole: each transaction with its position. *)
Definition calls_from (f : file) (i : nat) (txs : list transaction)
  : list (transaction * pyval * pyval) :=
  imap (fun j tx => (tx, chainId f, PInt (Z.of_nat (i + j)))) txs.

Definition calls_of_file (f : file) : list (transaction * pyval * pyval) :=
  calls_from f 0 (transactions f).

End ReportGauges.

(** * Properties *)

(** ** bribe_ecosystems.py: [process_bribe_csv] *)

Module BribeEcosystemsSpec.
Import BribeEcosystems.

Section process_facts.
Context {F : Type} (float : string -> outcome F).

Local Abbreviation store := (store_bribe float).
Local Abbreviation run := (ofold (store_bribe float)).

Lemma store_bribe_Ret bribes r bribes' :
  store bribes r = Ret bribes' →
  ∃ v inner, float (amount r) = Ret v ∧ bribes !! platform r = Some inner ∧
    bribes' = <[platform r := <[target r := v]> inner]> bribes.
Proof.
  unfold store_bribe. destruct (float (amount r)) as [v|e]; simpl; [|done].
  destruct (bribes !! platform r) as [inner|] eqn:Hp; [|done].
  intros [= <-]. eauto.
Qed.

Lemma store_bribe_dom bribes r bribes' :
  store bribes r = Ret bribes' → dom bribes' = dom bribes.
Proof.
  intros (v & inner & _ & Hp & ->)%store_bribe_Ret.
  rewrite dom_insert_L. apply elem_of_dom_2 in Hp.
  apply subseteq_union_1_L. by apply singleton_subseteq_l.
Qed.

Lemma store_bribe_lookup bribes r bribes' p t :
  store bribes r = Ret bribes' →
  bribe_of bribes' p t =
    if decide (platform r = p ∧ target r = t)
    then parsed float (amount r) else bribe_of bribes p t.
Proof.
  intros (v & inner & Hv & Hp & ->)%store_bribe_Ret.
  unfold bribe_of, parsed. rewrite Hv.
  destruct (decide (platform r = p)) as [<-|Hne].
  - rewrite lookup_insert_eq. simpl.
    destruct (decide (target r = t)) as [<-|Hnt].
    + rewrite lookup_insert_eq. by rewrite decide_True.
    + rewrite lookup_insert_ne by done. rewrite Hp. simpl.
      rewrite decide_False; [done|]. by intros [_ ?].
  - rewrite lookup_insert_ne by done.
    rewrite decide_False; [done|]. by intros [? _].
Qed.

Lemma run_dom rows : ∀ bribes bribes',
  run rows bribes = Ret bribes' → dom bribes' = dom bribes.
Proof.
  induction rows as [|r rows IH]; intros bribes bribes'; simpl.
  - by intros [= ->].
  - destruct (store bribes r) as [b1|e] eqn:Hs; simpl; [|done].
    intros Hrun. rewrite (IH _ _ Hrun). by eapply store_bribe_dom.
Qed.

(** What a finished run holds in each slot: the parsed cell of the last
    row that wrote it, or what the slot held before. *)
Lemma run_lookup rows : ∀ bribes bribes' p t,
  run rows bribes = Ret bribes' →
  bribe_of bribes' p t =
    match last_amount rows p t with
    | Some a => parsed float a
    | None => bribe_of bribes p t
    end.
Proof.
  induction rows as [|r rows IH]; intros bribes bribes' p t; simpl.
  - by intros [= ->].
  - destruct (store bribes r) as [b1|e] eqn:Hs; simpl; [|done].
    intros Hrun. rewrite (IH _ _ p t Hrun).
    destruct (last_amount rows p t); [done|].
    rewrite (store_bribe_lookup _ _ _ p t Hs). by case_decide.
Qed.

Lemma run_total rows : ∀ bribes,
  Forall (λ r, is_Some (bribes !! platform r)) rows →
  Forall (amount_parses float) rows →
  is_Ret (run rows bribes).
Proof.
  induction rows as [|r rows IH]; intros bribes Hk Hp; simpl; [done|].
  inversion_clear Hk as [|? ? [inner Hin] Hk'].
  inversion_clear Hp as [|? ? Hr Hp'].
  unfold store_bribe at 1. unfold amount_parses in Hr.
  destruct (float (amount r)) as [v|e]; [|done]. simpl. rewrite Hin. simpl.
  apply IH; [|done].
  eapply Forall_impl; [exact Hk'|]. intros r' [i' Hi']. simpl.
  destruct (decide (platform r = platform r')) as [->|Hne].
  - rewrite lookup_insert_eq. eauto.
  - rewrite lookup_insert_ne by done. eauto.
Qed.

Lemma last_amount_Some rows p t a :
  last_amount rows p t = Some a →
  ∃ j r, rows !! j = Some r ∧ platform r = p ∧ target r = t ∧ amount r = a.
Proof.
  induction rows as [|r0 rows IH]; simpl; [done|].
  destruct (last_amount rows p t) as [a'|].
  - intros [= ->]. destruct (IH eq_refl) as (j & r & Hj & Hr).
    exists (S j), r. by split.
  - case_decide as Hd; [|done]. intros [= <-]. exists 0, r0.
    destruct Hd. by split.
Qed.

Lemma run_Ret_parses rows : ∀ bribes bribes',
  run rows bribes = Ret bribes' → Forall (amount_parses float) rows.
Proof.
  induction rows as [|r rows IH]; intros bribes bribes'; simpl; [done|].
  destruct (store bribes r) as [b1|e] eqn:Hs; simpl; [|done].
  intros Hrun. constructor; [|by eapply IH].
  apply store_bribe_Ret in Hs as (v & _ & Hv & _).
  unfold amount_parses. by rewrite Hv.
Qed.

Lemma parsed_Some a :
  is_Ret (float a) → ∃ v, float a = Ret v ∧ parsed float a = Some v.
Proof.
  unfold parsed. destruct (float a) as [v|e]; [|done]. eauto.
Qed.

Lemma bribes_init_dom :
  dom (bribes_init (F:=F)) = {["aura"; "balancer"]}.
Proof. unfold bribes_init. rewrite !dom_insert_L, dom_empty_L. set_solver. Qed.

Lemma bribes_init_lookup p t : bribe_of (bribes_init (F:=F)) p t = None.
Proof.
  unfold bribe_of, bribes_init.
  destruct (decide (p = "aura")) as [->|Ha]; [by rewrite lookup_insert_eq|].
  rewrite lookup_insert_ne by done.
  destruct (decide (p = "balancer")) as [->|Hb]; [by rewrite lookup_insert_eq|].
  by rewrite lookup_insert_ne.
Qed.

Lemma known_platform_init rows :
  Forall known_platform rows →
  Forall (λ r, is_Some (bribes_init (F:=F) !! platform r)) rows.
Proof.
  intros Hk. eapply Forall_impl; [exact Hk|].
  intros r [-> | ->]; unfold bribes_init.
  - rewrite lookup_insert_eq. eauto.
  - rewrite lookup_insert_ne by done. rewrite lookup_insert_eq. eauto.
Qed.

Lemma last_amount_None rows p t :
  last_amount rows p t = None →
  ∀ r, r ∈ rows → ¬ (platform r = p ∧ target r = t).
Proof.
  induction rows as [|r0 rows IH]; simpl; intros Hn r Hr.
  - by apply elem_of_nil in Hr.
  - destruct (last_amount rows p t); [done|]. case_decide as Hd; [done|].
    apply elem_of_cons in Hr as [->|Hr]; [done|]. by apply IH.
Qed.

Lemma last_amount_last rows : ∀ i r,
  last_of_slot rows i r →
  last_amount rows (platform r) (target r) = Some (amount r).
Proof.
  induction rows as [|r0 rows IH]; intros i r [Hi Hlast]; [done|].
  simpl. destruct i as [|i]; simpl in Hi.
  - injection Hi as ->.
    destruct (last_amount rows (platform r) (target r)) as [a|] eqn:Ha.
    + exfalso. apply last_amount_Some in Ha as (j & r' & Hj & Hp & Ht & _).
      apply (Hlast (S j) r'); [lia|done|]. by split.
    + by rewrite decide_True.
  - rewrite (IH i r); [done|]. split; [done|].
    intros j r' Hj Hr'. apply (Hlast (S j) r'); [lia|done].
Qed.

(** C6, as amended: for a CSV whose rows name the platform aura or
    balancer and whose amount cells all parse as numbers,
    [process_bribe_csv] returns a dict with exactly the keys aura and
    balancer; every row's target is a key under its platform, mapped to
    the parsed amount of the last row with that platform and target (the
    row's own amount when no later row repeats them), and the inner dicts
    hold no other key. *)
Theorem process_bribe_csv_maps_last_amount (rows : list bribe_row) :
  Forall known_platform rows →
  Forall (amount_parses float) rows →
  ∃ bribes,
    process_bribe_csv float rows = Ret bribes ∧
    dom bribes = {["aura"; "balancer"]} ∧
    (∀ i r, last_of_slot rows i r →
       ∃ v, float (amount r) = Ret v ∧
            bribe_of bribes (platform r) (target r) = Some v) ∧
    (∀ r, r ∈ rows → is_Some (bribe_of bribes (platform r) (target r))) ∧
    (∀ p t, is_Some (bribe_of bribes p t) →
       ∃ r, r ∈ rows ∧ platform r = p ∧ target r = t).
Proof.
  intros Hk Hp. unfold process_bribe_csv.
  pose proof (run_total rows bribes_init (known_platform_init rows Hk) Hp)
    as Htot.
  destruct (run rows bribes_init) as [bribes|e] eqn:Hrun; [|done].
  exists bribes. split; [done|]. split.
  { rewrite (run_dom _ _ _ Hrun). apply bribes_init_dom. }
  assert (Hcell : ∀ p t a, last_amount rows p t = Some a →
            ∃ v, float a = Ret v ∧ bribe_of bribes p t = Some v).
  { intros p t a Ha. rewrite (run_lookup _ _ _ p t Hrun), Ha.
    apply last_amount_Some in Ha as (j & r & Hj & _ & _ & <-).
    apply parsed_Some.
    rewrite Forall_forall in Hp. apply Hp. by eapply list_elem_of_lookup_2. }
  split; [|split].
  - intros i r Hlast. apply Hcell. by eapply last_amount_last.
  - intros r Hr.
    destruct (last_amount rows (platform r) (target r)) as [a|] eqn:Ha.
    + destruct (Hcell _ _ _ Ha) as (v & _ & ->). eauto.
    + exfalso. by eapply last_amount_None.
  - intros p t. rewrite (run_lookup _ _ _ p t Hrun).
    destruct (last_amount rows p t) as [a|] eqn:Ha.
    + intros _. apply last_amount_Some in Ha as (j & r & Hj & ? & ? & _).
      exists r. split; [by eapply list_elem_of_lookup_2|done].
    + rewrite bribes_init_lookup. by intros [? ?].
Qed.

(** C10: when two rows share platform and target, the dict returned by
    [process_bribe_csv] holds, for that target, the parsed amount of the
    last such row alone: the later row has overwritten the earlier one
    and nothing was added up. *)
Theorem process_bribe_csv_later_row_overwrites
    (rows : list bribe_row) bribes (i j : nat) (r1 r2 : bribe_row) :
  process_bribe_csv float rows = Ret bribes →
  rows !! i = Some r1 →
  i < j →
  last_of_slot rows j r2 →
  same_slot r1 r2 →
  ∃ v2, float (amount r2) = Ret v2 ∧
        bribe_of bribes (platform r1) (target r1) = Some v2.
Proof.
  intros Hrun _ _ Hlast [Hp Ht]. rewrite Hp, Ht.
  unfold process_bribe_csv in Hrun.
  rewrite (run_lookup _ _ _ (platform r2) (target r2) Hrun).
  rewrite (last_amount_last _ _ _ Hlast).
  apply parsed_Some.
  pose proof (run_Ret_parses _ _ _ Hrun) as Hall.
  rewrite Forall_forall in Hall. apply Hall.
  destruct Hlast as [Hj _]. by eapply list_elem_of_lookup_2.
Qed.

End process_facts.

(** Two rows for the same target on aura, with amounts 1 and 2. *)
Example process_bribe_csv_twice :
  ∃ bribes,
    process_bribe_csv float_of_digits
      [mk_bribe_row "0xG" "aura" "1"; mk_bribe_row "0xG" "aura" "2"]
      = Ret bribes ∧
    bribe_of bribes "aura" "0xG" = Some 2%Z.
Proof. eexists. split; [reflexivity|]. by vm_compute. Qed.

Lemma two_rows_known_platform (r1 r2 : bribe_row) :
  known_platform r1 → known_platform r2 → Forall known_platform [r1; r2].
Proof. intros H1 H2. constructor; [done|]. constructor; [done|]. constructor. Qed.

Lemma process_bribe_csv_maps_last_amount_witness :
  ∃ bribes,
    process_bribe_csv float_of_digits
      [mk_bribe_row "0xG" "aura" "1"; mk_bribe_row "0xH" "balancer" "25"]
      = Ret bribes ∧
    dom bribes = {["aura"; "balancer"]}.
Proof.
  assert (Hk : Forall known_platform
            [mk_bribe_row "0xG" "aura" "1"; mk_bribe_row "0xH" "balancer" "25"])
    by (apply two_rows_known_platform; [by left | by right]).
  assert (Hp : Forall (amount_parses float_of_digits)
            [mk_bribe_row "0xG" "aura" "1"; mk_bribe_row "0xH" "balancer" "25"])
    by (constructor; [done|]; constructor; [done|]; constructor).
  destruct (process_bribe_csv_maps_last_amount float_of_digits _ Hk Hp)
    as (bribes & Hrun & Hdom & _).
  exists bribes. by split.
Defined.

Lemma process_bribe_csv_later_row_overwrites_witness :
  ∃ bribes,
    process_bribe_csv float_of_digits
      [mk_bribe_row "0xG" "aura" "1"; mk_bribe_row "0xG" "aura" "2"]
      = Ret bribes ∧
    bribe_of bribes "aura" "0xG" = Some 2%Z.
Proof.
  assert (Hlast : last_of_slot
            [mk_bribe_row "0xG" "aura" "1"; mk_bribe_row "0xG" "aura" "2"]
            1 (mk_bribe_row "0xG" "aura" "2")).
  { split; [reflexivity|]. intros [|[|j]] r' Hj Hr'; [lia|lia|done]. }
  destruct (process_bribe_csv float_of_digits
              [mk_bribe_row "0xG" "aura" "1"; mk_bribe_row "0xG" "aura" "2"])
    as [bribes|e] eqn:Hrun; [|vm_compute in Hrun; discriminate].
  exists bribes. split; [reflexivity|].
  destruct (process_bribe_csv_later_row_overwrites float_of_digits
    _ bribes 0 1 (mk_bribe_row "0xG" "aura" "1") (mk_bribe_row "0xG" "aura" "2")
    Hrun eq_refl (le_n 1) Hlast (conj eq_refl eq_refl))
    as (v2 & Hv & Hb).
  vm_compute in Hv. injection Hv as <-. exact Hb.
Defined.

(** C6 as stated fails: with two rows for one target, the first row's
    target is mapped to the second row's amount, not to its own. *)
Lemma process_bribe_csv_not_every_row :
  ¬ (∀ rows : list bribe_row,
       Forall known_platform rows →
       Forall (amount_parses float_of_digits) rows →
       ∃ bribes,
         process_bribe_csv float_of_digits rows = Ret bribes ∧
         dom bribes = {["aura"; "balancer"]} ∧
         ∀ r, r ∈ rows →
           bribe_of bribes (platform r) (target r)
             = parsed float_of_digits (amount r)).
Proof.
  intros Hclaim.
  assert (Hk : Forall known_platform
            [mk_bribe_row "0xG" "aura" "1"; mk_bribe_row "0xG" "aura" "2"])
    by (apply two_rows_known_platform; by left).
  assert (Hp : Forall (amount_parses float_of_digits)
            [mk_bribe_row "0xG" "aura" "1"; mk_bribe_row "0xG" "aura" "2"])
    by (constructor; [done|]; constructor; [done|]; constructor).
  destruct (Hclaim _ Hk Hp) as (bribes & Hrun & _ & Hrows).
  injection Hrun as <-.
  assert (Hin : mk_bribe_row "0xG" "aura" "1"
            ∈ [mk_bribe_row "0xG" "aura" "1"; mk_bribe_row "0xG" "aura" "2"])
    by (apply elem_of_cons; by left).
  specialize (Hrows _ Hin). vm_compute in Hrows. discriminate.
Qed.

(** *** Failing rows and the order of rows *)

Lemma ofold_app {A B} (f : B → A → outcome B) (xs ys : list A) (acc : B) :
  ofold f (xs ++ ys)%list acc = obind (ofold f xs acc) (ofold f ys).
Proof.
  revert acc. induction xs as [|x xs IH]; intros acc; simpl; [done|].
  destruct (f acc x); simpl; [apply IH|done].
Qed.

Section process_more.
Context {F : Type} (float : string -> outcome F).

(** The slot a row writes. *)
Local Abbreviation slot r := (platform r, target r).

(** [process_bribe_csv] stops at the first row it cannot store, whatever
    follows.  The amount is parsed before the platform is looked up: a
    cell that does not parse raises the error of [float], also for an
    unknown platform; an unknown platform with an amount that parses
    raises [KeyError] with that platform. *)
Theorem process_bribe_csv_first_bad_row (good : list bribe_row)
    (bad : bribe_row) (rest : list bribe_row) :
  Forall known_platform good →
  Forall (amount_parses float) good →
  (∀ e, float (amount bad) = Raise e →
     process_bribe_csv float (good ++ bad :: rest)%list = Raise e) ∧
  (∀ v, float (amount bad) = Ret v → ¬ known_platform bad →
     process_bribe_csv float (good ++ bad :: rest)%list
     = Raise (KeyError (platform bad))).
Proof.
  intros Hk Hp. unfold process_bribe_csv. rewrite ofold_app.
  pose proof (run_total float good bribes_init
                (known_platform_init good Hk) Hp) as Htot.
  destruct (ofold (store_bribe float) good bribes_init) as [bribes|e0]
    eqn:Hrun; [|done].
  cbn [obind ofold]. split.
  - intros e He. unfold store_bribe at 1. by rewrite He.
  - intros v Hv Hunknown. unfold store_bribe at 1. rewrite Hv. cbn [obind].
    assert (bribes !! platform bad = None) as ->; [|done].
    apply (not_elem_of_dom (D:=gset string)).
    rewrite (run_dom _ _ _ _ Hrun), bribes_init_dom.
    intros Hin. apply Hunknown. unfold known_platform.
    apply elem_of_union in Hin as [Hin|Hin];
      apply elem_of_singleton in Hin; [by left|by right].
Qed.

Lemma last_amount_unique (rows : list bribe_row) r :
  NoDup ((λ r, slot r) <$> rows) → r ∈ rows →
  last_amount rows (platform r) (target r) = Some (amount r).
Proof.
  induction rows as [|r0 rows IH]; intros Hnd Hr.
  - by apply elem_of_nil in Hr.
  - rewrite fmap_cons in Hnd. apply NoDup_cons in Hnd as [Hr0 Hnd].
    simpl. apply elem_of_cons in Hr as [->|Hr].
    + destruct (last_amount rows (platform r0) (target r0)) as [a|] eqn:Ha.
      * exfalso. apply last_amount_Some in Ha as (j & r' & Hj & Hp & Ht & _).
        apply Hr0. apply list_elem_of_fmap. exists r'.
        split; [by rewrite Hp, Ht|by eapply list_elem_of_lookup_2].
      * by rewrite decide_True.
    + by rewrite (IH Hnd Hr).
Qed.

Lemma last_amount_permutation (rows rows' : list bribe_row) p t :
  rows ≡ₚ rows' → NoDup ((λ r, slot r) <$> rows) →
  last_amount rows p t = last_amount rows' p t.
Proof.
  intros Hperm Hnd.
  assert (Hnd' : NoDup ((λ r, slot r) <$> rows')) by (by rewrite <- Hperm).
  destruct (last_amount rows p t) as [a|] eqn:Ha.
  - apply last_amount_Some in Ha as (j & r & Hj & <- & <- & <-).
    symmetry. apply last_amount_unique; [done|].
    rewrite <- Hperm. by eapply list_elem_of_lookup_2.
  - destruct (last_amount rows' p t) as [a'|] eqn:Ha'; [|done].
    apply last_amount_Some in Ha' as (j & r & Hj & Hp & Ht & _).
    exfalso. eapply (last_amount_None rows p t Ha r); [|done].
    rewrite Hperm. by eapply list_elem_of_lookup_2.
Qed.

(** When no two rows name the same platform and target, the order of the
    rows does not matter: [process_bribe_csv] returns the same dict for
    any rearrangement of them. *)
Theorem process_bribe_csv_order_irrelevant (rows rows' : list bribe_row) :
  rows ≡ₚ rows' →
  NoDup ((λ r, slot r) <$> rows) →
  Forall known_platform rows →
  Forall (amount_parses float) rows →
  process_bribe_csv float rows = process_bribe_csv float rows' ∧
  is_Ret (process_bribe_csv float rows).
Proof.
  intros Hperm Hnd Hk Hp.
  assert (Hk' : Forall known_platform rows') by (by rewrite <- Hperm).
  assert (Hp' : Forall (amount_parses float) rows') by (by rewrite <- Hperm).
  unfold process_bribe_csv.
  pose proof (run_total float rows bribes_init
                (known_platform_init rows Hk) Hp) as Htot.
  pose proof (run_total float rows' bribes_init
                (known_platform_init rows' Hk') Hp') as Htot'.
  destruct (ofold (store_bribe float) rows bribes_init) as [d|e] eqn:Hrun;
    [|done].
  destruct (ofold (store_bribe float) rows' bribes_init) as [d'|e] eqn:Hrun';
    [|done].
  split; [|done]. f_equal. apply map_eq. intros p.
  assert (Hslot : ∀ t, bribe_of d p t = bribe_of d' p t).
  { intros t. rewrite (run_lookup float _ _ _ p t Hrun).
    rewrite (run_lookup float _ _ _ p t Hrun').
    by rewrite (last_amount_permutation rows rows' p t Hperm Hnd). }
  assert (Hdom : dom d = dom d')
    by (by rewrite (run_dom _ _ _ _ Hrun), (run_dom _ _ _ _ Hrun')).
  destruct (d !! p) as [inner|] eqn:Hd.
  - assert (is_Some (d' !! p)) as [inner' Hd'].
    { apply (elem_of_dom (D:=gset string)). rewrite <- Hdom.
      apply (elem_of_dom_2 (D:=gset string)) in Hd. done. }
    rewrite Hd'. f_equal. apply map_eq. intros t.
    specialize (Hslot t). unfold bribe_of in Hslot.
    by rewrite Hd, Hd' in Hslot.
  - symmetry. apply (not_elem_of_dom (D:=gset string)). rewrite <- Hdom.
    by apply (not_elem_of_dom (D:=gset string)).
Qed.
End process_more.


Lemma process_bribe_csv_first_bad_row_witness :
  process_bribe_csv float_of_digits
    [mk_bribe_row "0xG" "aura" "1"; mk_bribe_row "0xH" "votium" "x";
     mk_bribe_row "0xI" "balancer" "3"]
  = Raise (ValueError "could not convert string to float")
  ∧ process_bribe_csv float_of_digits
      [mk_bribe_row "0xG" "aura" "1"; mk_bribe_row "0xH" "votium" "2";
       mk_bribe_row "0xI" "balancer" "3"]
    = Raise (KeyError "votium").
Proof.
  assert (Hk : Forall known_platform [mk_bribe_row "0xG" "aura" "1"])
    by (constructor; [by left|constructor]).
  assert (Hp : Forall (amount_parses float_of_digits)
                 [mk_bribe_row "0xG" "aura" "1"])
    by (constructor; [done|constructor]).
  split.
  - exact (proj1 (process_bribe_csv_first_bad_row float_of_digits
             [mk_bribe_row "0xG" "aura" "1"] (mk_bribe_row "0xH" "votium" "x")
             [mk_bribe_row "0xI" "balancer" "3"] Hk Hp) _ eq_refl).
  - refine (proj2 (process_bribe_csv_first_bad_row float_of_digits
             [mk_bribe_row "0xG" "aura" "1"] (mk_bribe_row "0xH" "votium" "2")
             [mk_bribe_row "0xI" "balancer" "3"] Hk Hp) 2%Z eq_refl _).
    intros [H|H]; discriminate H.
Defined.

Lemma process_bribe_csv_order_irrelevant_witness :
  process_bribe_csv float_of_digits
    [mk_bribe_row "0xG" "aura" "1"; mk_bribe_row "0xH" "balancer" "25"]
  = process_bribe_csv float_of_digits
      [mk_bribe_row "0xH" "balancer" "25"; mk_bribe_row "0xG" "aura" "1"].
Proof.
  refine (proj1 (process_bribe_csv_order_irrelevant float_of_digits
            [mk_bribe_row "0xG" "aura" "1"; mk_bribe_row "0xH" "balancer" "25"]
            [mk_bribe_row "0xH" "balancer" "25"; mk_bribe_row "0xG" "aura" "1"]
            _ _ _ _)).
  - apply perm_swap.
  - rewrite !fmap_cons. apply NoDup_cons. split.
    + intros Hin. apply list_elem_of_singleton in Hin. discriminate Hin.
    + apply NoDup_singleton.
  - apply two_rows_known_platform; [by left|by right].
  - constructor; [done|]. constructor; [done|]. constructor.
Defined.
End BribeEcosystemsSpec.

(** ** report_gauges.py: the classifiers *)

Module ReportGaugesSpec.
Import Py ReportGauges.
#[local] Open Scope list_scope.

Section classifier_facts.
Context {S C AB BP : Type} (w : World S C AB BP).

Implicit Types (tx : transaction) (kw : kwargs) (s : st S).

(** Running a step: the equations of the monad. *)
Lemma run_bind {A B} (m : M S A) (k : A -> M S B) s :
  bind m k s =
    match m s with
    | (Ret a, s') => k a s'
    | (Raise e, s') => (Raise e, s')
    end.
Proof. reflexivity. Qed.

Lemma run_bind_Ret {A B} (m : M S A) (k : A -> M S B) s a s' :
  m s = (Ret a, s') → bind m k s = k a s'.
Proof. intros H. by rewrite run_bind, H. Qed.

Lemma run_bind_Raise {A B} (m : M S A) (k : A -> M S B) s e s' :
  m s = (Raise e, s') → bind m k s = (Raise e, s').
Proof. intros H. by rewrite run_bind, H. Qed.

Lemma run_pure_Ret {A B} (x : outcome A) (k : A -> M S B) s a :
  x = Ret a → bind (pure x) k s = k a s.
Proof. by intros ->. Qed.

Lemma run_call_ext {A} (c : E S A) s r x :
  c (ext s) = (r, x) → call_ext c s = (r, mk_st x (fs_log s)).
Proof. unfold call_ext. by intros ->. Qed.

Lemma run_call_ext_at {A} (c : E S A) x log r x' :
  c x = (r, x') → call_ext c (mk_st x log) = (r, mk_st x' log).
Proof. unfold call_ext. simpl. by intros ->. Qed.

(** What [contractMethod.name] being there says about the record. *)
Lemma method_name_Some tx name :
  method_name tx = Some name →
  ∃ m, dict_get tx "contractMethod" PNone = PDict m ∧
       dict_lookup "name" m = Some name.
Proof.
  unfold method_name, dict_get.
  destruct (dict_lookup "contractMethod" tx) as [[| | | | |m]|]; try done.
  intros H. by exists m.
Qed.

Lemma lacks_false_civ tx :
  lacks_inputs_or_method tx = false →
  truthy (civ_of tx) = true ∧ truthy (method_of tx) = true.
Proof.
  unfold lacks_inputs_or_method, civ_of, method_of.
  intros [H1 H2]%orb_false_elim.
  split; by apply negb_false_iff.
Qed.

(** **** Absent inputs or method *)

Lemma hh_brib_lacks tx kw s :
  lacks_inputs_or_method tx = true → _parse_hh_brib w tx kw s = (Ret None, s).
Proof. unfold _parse_hh_brib. by intros ->. Qed.

Lemma added_lacks tx kw s :
  lacks_inputs_or_method tx = true →
  _parse_added_transaction w tx kw s = (Ret None, s).
Proof. unfold _parse_added_transaction. by intros ->. Qed.

Lemma removed_lacks tx kw s :
  lacks_inputs_or_method tx = true →
  _parse_removed_transaction w tx kw s = (Ret None, s).
Proof. unfold _parse_removed_transaction. by intros ->. Qed.

Lemma permissions_lacks tx kw s :
  lacks_inputs_or_method tx = true →
  _parse_permissions w tx kw s = (Ret None, s).
Proof. unfold _parse_permissions. by intros ->. Qed.

Lemma transfer_lacks tx kw s :
  lacks_inputs_or_method tx = true →
  _parse_transfer w tx kw s = (Ret None, s).
Proof. unfold _parse_transfer. by intros ->. Qed.

Lemma set_recipient_list_lacks tx kw s x' :
  book_opened w kw s x' →
  lacks_inputs_or_method tx = true →
  _parse_set_recipient_list w tx kw s = (Ret None, mk_st x' (fs_log s)).
Proof.
  intros (id & book & Hid & Hbook) Hl. unfold _parse_set_recipient_list.
  rewrite (run_pure_Ret _ _ _ _ Hid).
  rewrite (run_bind_Ret _ _ _ _ _ (run_call_ext _ _ _ _ Hbook)).
  by rewrite Hl.
Qed.

(** **** Another method name *)

Lemma hh_brib_other_name tx kw s name :
  method_name tx = Some name → eq_str name "depositBribe" = false →
  _parse_hh_brib w tx kw s = (Ret None, s).
Proof.
  intros (m & Hm & Hn)%method_name_Some Hne. unfold _parse_hh_brib.
  destruct (lacks_inputs_or_method tx); [done|].
  unfold method_of. rewrite Hm. simpl. unfold dict_get. rewrite Hn.
  rewrite run_bind. simpl. by rewrite Hne.
Qed.

Lemma transfer_other_name tx kw s name :
  method_name tx = Some name → eq_str name "transfer" = false →
  _parse_transfer w tx kw s = (Ret None, s).
Proof.
  intros (m & Hm & Hn)%method_name_Some Hne. unfold _parse_transfer.
  destruct (lacks_inputs_or_method tx); [done|].
  unfold method_of. rewrite Hm. simpl. unfold dict_item. rewrite Hn.
  rewrite run_bind. simpl. by rewrite Hne.
Qed.

Lemma set_recipient_list_other_name tx kw s x' name :
  book_opened w kw s x' →
  method_name tx = Some name → eq_str name "setRecipientList" = false →
  _parse_set_recipient_list w tx kw s = (Ret None, mk_st x' (fs_log s)).
Proof.
  intros (id & book & Hid & Hbook) (m & Hm & Hn)%method_name_Some Hne.
  unfold _parse_set_recipient_list.
  rewrite (run_pure_Ret _ _ _ _ Hid).
  rewrite (run_bind_Ret _ _ _ _ _ (run_call_ext _ _ _ _ Hbook)).
  destruct (lacks_inputs_or_method tx); [done|].
  unfold method_of. rewrite Hm. simpl. unfold dict_get. rewrite Hn.
  rewrite run_bind. simpl. by rewrite Hne.
Qed.

Lemma permissions_other_name tx kw s n :
  method_name tx = Some (PStr n) → contains "Role" n = false →
  _parse_permissions w tx kw s = (Ret None, s).
Proof.
  intros (m & Hm & Hn)%method_name_Some Hne. unfold _parse_permissions.
  destruct (lacks_inputs_or_method tx); [done|].
  unfold method_of. rewrite Hm. simpl. unfold dict_get. rewrite Hn.
  rewrite run_bind. simpl. rewrite run_bind. simpl. by rewrite Hne.
Qed.

(** What the two gauge classifiers go by instead of the method name. *)
Lemma added_without_gauge_key tx kw s d :
  civ_of tx = PDict d →
  dict_lookup "gauge" d = None → dict_lookup "rootGauge" d = None →
  _parse_added_transaction w tx kw s = (Ret None, s).
Proof.
  intros Hc Hg Hr. unfold _parse_added_transaction.
  destruct (lacks_inputs_or_method tx); [done|].
  rewrite Hc. rewrite run_bind. simpl. by rewrite Hg, Hr.
Qed.

Lemma removed_without_data tx kw s d :
  civ_of tx = PDict d → truthy (dict_get d "data" PNone) = false →
  _parse_removed_transaction w tx kw s = (Ret None, s).
Proof.
  intros Hc Hd. unfold _parse_removed_transaction.
  destruct (lacks_inputs_or_method tx); [done|].
  rewrite Hc. by rewrite Hd.
Qed.

End classifier_facts.

(** Runs the service call at the head of the goal with its known
    answer. *)
Ltac run_ext H :=
  first
    [ rewrite (run_bind_Ret _ _ _ _ _ (run_call_ext _ _ _ _ H))
    | rewrite (run_bind_Ret _ _ _ _ _ (run_call_ext_at _ _ _ _ _ H)) ].

(** ** report_gauges.py: coverage bookkeeping *)

Section dict_facts.
Context {A : Type}.
Implicit Types (d : list (string * A)).

Lemma dict_lookup_set k k' (v : A) d :
  dict_lookup k (dict_set k' v d) =
    if String.eqb k k' then Some v else dict_lookup k d.
Proof.
  induction d as [|[k0 v0] d IH]; simpl.
  - done.
  - destruct (String.eqb k' k0) eqn:E'; simpl.
    + apply String.eqb_eq in E' as ->.
      by destruct (String.eqb k k0).
    + destruct (String.eqb k k0) eqn:E; [|exact IH].
      apply String.eqb_eq in E as ->.
      by rewrite String.eqb_sym, E'.
Qed.

Lemma dict_set_keys k (v : A) d :
  dict_lookup k d ≠ None → (dict_set k v d).*1 = d.*1.
Proof.
  induction d as [|[k0 v0] d IH]; [done|].
  cbn [dict_set dict_lookup].
  destruct (String.eqb k k0) eqn:E; [done|].
  intros H. rewrite !fmap_cons. f_equal. by apply IH.
Qed.

Lemma dict_lookup_Some_elem k (v : A) d :
  dict_lookup k d = Some v → (k, v) ∈ d.
Proof.
  induction d as [|[k0 v0] d IH]; simpl; [done|].
  destruct (String.eqb k k0) eqn:E.
  - apply String.eqb_eq in E as ->. intros [= ->]. by left.
  - intros H. right. by apply IH.
Qed.

Lemma dict_lookup_None_keys k d :
  dict_lookup k d = None ↔ k ∉ d.*1.
Proof.
  induction d as [|[k0 v0] d IH]; simpl.
  - split; [intros _; apply not_elem_of_nil|done].
  - rewrite not_elem_of_cons. destruct (String.eqb k k0) eqn:E.
    + apply String.eqb_eq in E as ->. split; [done|]. by intros [? _].
    + apply String.eqb_neq in E. rewrite IH. naive_solver.
Qed.
End dict_facts.

(** The dicts of the first loop hold, under each name, the data of the
    last file of that name. *)
Lemma lookup_by_file {A} (g : file → A) (files : list file) :
  ∀ d name,
    dict_lookup name
      (foldl (fun d f => dict_set (file_name f) (g f) d) d files)
    = match last_file name files with
      | Some f => Some (g f)
      | None => dict_lookup name d
      end.
Proof.
  induction files as [|f files IH]; intros d name; simpl; [done|].
  rewrite IH. destruct (last_file name files); [done|].
  rewrite dict_lookup_set. by destruct (String.eqb name (file_name f)).
Qed.

Lemma tx_list_len_lookup files name :
  dict_lookup name (tx_list_len_by_file files)
  = (fun f => length (transactions f)) <$> last_file name files.
Proof.
  unfold tx_list_len_by_file. rewrite lookup_by_file.
  by destruct (last_file name files).
Qed.

Lemma empty_covered_lookup files name :
  dict_lookup name (empty_covered_by_file files)
  = (fun _ => ∅) <$> last_file name files.
Proof.
  unfold empty_covered_by_file.
  rewrite (lookup_by_file (fun _ => ∅ : gset hkey)).
  by destruct (last_file name files).
Qed.

Lemma filedata_lookup files name :
  dict_lookup name (filedata_by_file files) = last_file name files.
Proof.
  unfold filedata_by_file. rewrite (lookup_by_file (fun f => f)).
  by destruct (last_file name files).
Qed.

Lemma last_file_name name files f :
  last_file name files = Some f → file_name f = name ∧ f ∈ files.
Proof.
  induction files as [|f0 files IH]; simpl; [done|].
  destruct (last_file name files) as [f'|].
  - intros [= ->]. destruct (IH eq_refl). split; [done|by right].
  - destruct (String.eqb name (file_name f0)) eqn:E; [|done].
    intros [= ->]. apply String.eqb_eq in E. split; [done|by left].
Qed.

Lemma last_file_None name files :
  last_file name files = None → ∀ f, f ∈ files → file_name f ≠ name.
Proof.
  induction files as [|f0 files IH]; simpl; intros H f Hf.
  - by apply elem_of_nil in Hf.
  - destruct (last_file name files); [done|].
    destruct (String.eqb name (file_name f0)) eqn:E; [done|].
    apply String.eqb_neq in E.
    apply elem_of_cons in Hf as [->|Hf]; [done|by apply IH].
Qed.

(** [set(range(n))] holds the indices below [n] and nothing else. *)
Lemma elem_of_range_set n k :
  k ∈ range_set n ↔ ∃ i, i < n ∧ k = KInt (Z.of_nat i).
Proof.
  unfold range_set. rewrite elem_of_list_to_set, list_elem_of_fmap.
  split.
  - intros (i & -> & Hi). apply elem_of_seq in Hi. exists i. split; [lia|done].
  - intros (i & Hi & ->). exists i. split; [done|]. apply elem_of_seq. lia.
Qed.

(** The symmetric difference is the difference once the covered indices
    are indices of the file; index 0 is then added only to an empty
    file. *)
Lemma uncovered_indexs_difference n covered :
  covered ⊆ range_set n →
  covered ≠ ∅ ∨ 0 < n →
  uncovered_indexs n covered = range_set n ∖ covered.
Proof.
  intros Hsub Hne. unfold uncovered_indexs.
  assert (covered ∖ range_set n = ∅) as ->.
  { apply set_eq. intros k. rewrite elem_of_difference.
    split; [intros [? ?]; exfalso; auto|]. by intros ?%not_elem_of_empty. }
  cbv zeta. rewrite !union_empty_r_L.
  case_bool_decide as Hsz; [|done].
  apply size_empty_inv in Hsz. apply leibniz_equiv in Hsz. subst covered.
  destruct Hne as [|Hn]; [done|].
  assert (KInt 0 ∈ range_set n) as H0
    by (apply elem_of_range_set; by exists 0).
  clear Hsub. revert H0. generalize (range_set n). intros X H0.
  apply set_eq. intros k.
  rewrite elem_of_union, elem_of_singleton, elem_of_difference.
  split; [|by left]. intros [?| ->]; [done|]. split; [done|].
  apply not_elem_of_empty.
Qed.

Lemma uncovered_indexs_unclaimed n covered i :
  i < n → KInt (Z.of_nat i) ∉ covered →
  KInt (Z.of_nat i) ∈ uncovered_indexs n covered.
Proof.
  intros Hi Hn. unfold uncovered_indexs.
  assert (KInt (Z.of_nat i) ∈ range_set n) as Hin
    by (apply elem_of_range_set; by exists i).
  revert Hin. generalize (range_set n). intros X Hin.
  assert (KInt (Z.of_nat i) ∈ X ∖ covered ∪ covered ∖ X)
    by (apply elem_of_union; left; by apply elem_of_difference).
  case_bool_decide; [apply elem_of_union; by left|done].
Qed.

Lemma uncovered_indexs_nothing_covered n :
  KInt 0 ∈ uncovered_indexs n ∅.
Proof.
  unfold uncovered_indexs. rewrite bool_decide_eq_true_2 by apply size_empty.
  apply elem_of_union. right. by apply elem_of_singleton.
Qed.

(** The second loop adds to each file's set the indices claimed for it and
    leaves the names of the dict as they are. *)
Lemma add_claims_empty o : add_claims ∅ o = o.
Proof. destruct o as [c|]; simpl; [|done]. by rewrite union_empty_r_L. Qed.

Lemma add_claims_twice a b o :
  add_claims b (add_claims a o) = add_claims (a ∪ b) o.
Proof.
  destruct o as [c|]; simpl; [|done]. f_equal. by rewrite (assoc_L (∪)).
Qed.

Lemma cover_output_lookup filename covered output covered' :
  cover_output filename covered output = Ret covered' →
  ∀ name,
    dict_lookup name covered'
    = add_claims (if String.eqb name filename
                  then list_to_set (omap claimed_index [output]) else ∅)
        (dict_lookup name covered).
Proof.
  unfold cover_output.
  destruct (dict_lookup filename covered) as [indexes|] eqn:Hf; [|done].
  destruct (hash_key (dict_get output "tx_index" PNone)) as [k|e] eqn:Hk;
    [|done].
  simpl. intros [= <-] name. rewrite dict_lookup_set.
  destruct (String.eqb name filename) eqn:E.
  - apply String.eqb_eq in E as ->. rewrite Hf. simpl.
    unfold claimed_index. rewrite Hk. simpl. by rewrite union_empty_r_L.
  - by rewrite add_claims_empty.
Qed.

Lemma cover_outputs_lookup filename outs : ∀ covered covered',
  ofold (cover_output filename) outs covered = Ret covered' →
  ∀ name,
    dict_lookup name covered'
    = add_claims (if String.eqb name filename
                  then list_to_set (omap claimed_index outs) else ∅)
        (dict_lookup name covered).
Proof.
  induction outs as [|o outs IH]; intros covered covered'; simpl.
  - intros [= <-] name. destruct (String.eqb name filename);
      by rewrite add_claims_empty.
  - destruct (cover_output filename covered o) as [c1|e] eqn:Ho; [|done].
    simpl. intros Hrest name.
    rewrite (IH _ _ Hrest name), (cover_output_lookup _ _ _ _ Ho name).
    rewrite add_claims_twice. f_equal.
    destruct (String.eqb name filename); [|by rewrite union_empty_r_L].
    simpl. destruct (claimed_index o); simpl; set_solver.
Qed.

Lemma cover_report_lookup report : ∀ covered covered',
  cover_report covered report = Ret covered' →
  ∀ name,
    dict_lookup name covered'
    = add_claims (claimed_by_report name report) (dict_lookup name covered).
Proof.
  unfold cover_report, claimed_by_report.
  induction report as [|[filename info] report IH]; intros covered covered';
    simpl.
  - intros [= <-] name. by rewrite add_claims_empty.
  - destruct (ofold (cover_output filename) (outputs info) covered)
      as [c1|e] eqn:Ho; [|done].
    simpl. intros Hrest name.
    rewrite (IH _ _ Hrest name), (cover_outputs_lookup _ _ _ _ Ho name).
    by rewrite add_claims_twice.
Qed.

Lemma cover_reports_lookup all_reports : ∀ covered covered',
  ofold cover_report all_reports covered = Ret covered' →
  ∀ name,
    dict_lookup name covered'
    = add_claims (claimed all_reports name) (dict_lookup name covered).
Proof.
  unfold claimed.
  induction all_reports as [|report all_reports IH]; intros covered covered';
    simpl.
  - intros [= <-] name. by rewrite add_claims_empty.
  - destruct (cover_report covered report) as [c1|e] eqn:Ho; [|done].
    simpl. intros Hrest name.
    rewrite (IH _ _ Hrest name), (cover_report_lookup _ _ _ Ho name).
    by rewrite add_claims_twice.
Qed.

(** After the second loop, the set kept for a file is the union of the
    indices the reports claim for it. *)
Lemma covered_indexs_by_file_lookup all_reports files covered name :
  covered_indexs_by_file all_reports files = Ret covered →
  dict_lookup name covered
  = (fun _ => claimed all_reports name) <$> last_file name files.
Proof.
  unfold covered_indexs_by_file. intros H.
  rewrite (cover_reports_lookup _ _ _ H name), empty_covered_lookup.
  destruct (last_file name files); simpl; [|done].
  by rewrite union_empty_l_L.
Qed.

(** Membership in the claimed indices, spelled out. *)
Lemma elem_of_claimed all_reports name k :
  k ∈ claimed all_reports name ↔
  ∃ report info output,
    report ∈ all_reports ∧ (name, info) ∈ report ∧ output ∈ outputs info ∧
    hash_key (dict_get output "tx_index" PNone) = Ret k.
Proof.
  unfold claimed, claimed_by_report. rewrite elem_of_union_list. split.
  - intros (X & HX & Hk). apply list_elem_of_fmap in HX as (report & -> & Hr).
    apply elem_of_union_list in Hk as (Y & HY & Hk).
    apply list_elem_of_fmap in HY as ([fn info] & -> & He).
    unfold claimed_by_entry in Hk. simpl in Hk.
    destruct (String.eqb name fn) eqn:E; [|set_solver].
    apply String.eqb_eq in E as <-.
    apply elem_of_list_to_set, list_elem_of_omap in Hk as (o & Ho & Hc).
    exists report, info, o. repeat split; try done.
    unfold claimed_index in Hc.
    by destruct (hash_key (dict_get o "tx_index" PNone)); simplify_eq.
  - intros (report & info & o & Hr & He & Ho & Hk).
    exists (⋃ (claimed_by_entry name <$> report)). split.
    { apply list_elem_of_fmap. by exists report. }
    apply elem_of_union_list. exists (claimed_by_entry name (name, info)).
    split. { apply list_elem_of_fmap. by exists (name, info). }
    unfold claimed_by_entry. simpl. rewrite String.eqb_refl.
    apply elem_of_list_to_set, list_elem_of_omap. exists o. split; [done|].
    unfold claimed_index. by rewrite Hk.
Qed.

(** *** The walk over a set of indexes *)

Lemma keys_split (l : list hkey) :
  ((KInt <$> omap int_of_key l)
   ++ filter (λ k, int_of_key k = None) l)%list ≡ₚ l.
Proof.
  induction l as [|k l IH]; [done|].
  destruct k as [|z|str].
  - rewrite filter_cons_True by done. simpl.
    rewrite <- Permutation_middle. by constructor.
  - rewrite filter_cons_False by done. simpl. by constructor.
  - rewrite filter_cons_True by done. simpl.
    rewrite <- Permutation_middle. by constructor.
Qed.

Lemma set_iter_Permutation (X : gset hkey) : set_iter X ≡ₚ elements X.
Proof.
  unfold set_iter. rewrite merge_sort_Permutation. apply keys_split.
Qed.

Lemma set_iter_length (X : gset hkey) : length (set_iter X) = size X.
Proof. by rewrite set_iter_Permutation. Qed.

Lemma elem_of_set_iter (X : gset hkey) k : k ∈ set_iter X ↔ k ∈ X.
Proof. by rewrite set_iter_Permutation, elem_of_elements. Qed.

Lemma set_iter_singleton k : set_iter {[k]} = [k].
Proof.
  unfold set_iter. rewrite elements_singleton. by destruct k.
Qed.

Section pool_facts.
Context {S C AB BP : Type} (w : World S C AB BP).
Implicit Types (s : st S).

(** The sidechain branch once the recipient is known, the chain is
    switched and the [try] has ended in an exception. *)
Lemma extract_sidechain_pool_except chain gauge s recipient x1 network_id x2
    style e s3 :
  call w gauge "getRecipient" (ext s) = (Ret recipient, x1) →
  sidechain_network_id w chain = Ret network_id →
  switch_chain_if_needed w network_id x1 = (Ret tt, x2) →
  sidechain_try w recipient (mk_st x2 (fs_log s))
    = (Ret (style, inl e), s3) →
  extract_sidechain_pool w chain gauge s
  = bind (except_unverified e) (λ info, ret (info, default STYLE_L0 style))
      s3.
Proof.
  intros Hrec Hnet Hswitch Htry. unfold extract_sidechain_pool.
  run_ext Hrec.
  rewrite (run_pure_Ret _ _ _ _ Hnet).
  run_ext Hswitch.
  simpl. by rewrite (run_bind_Ret _ _ _ _ _ Htry).
Qed.

Lemma extract_pool_sidechain chain gauge selectors s :
  chain ≠ Some CHAIN_MAINNET →
  _extract_pool w chain gauge selectors s
  = bind (extract_sidechain_pool w chain gauge)
      (λ '(info, style),
         tokens' <- call_ext (prettify_tokens_list w (tokens info));
         ret (mk_pool_info (pool_name info) (pool_symbol info) (pool_id info)
                (pool_address info) (a_factor info) (fee info) tokens'
                (rate_providers info), style)) s.
Proof.
  intros Hne. unfold _extract_pool. by rewrite bool_decide_eq_false_2.
Qed.

(** C5: when the pool lookup of the sidechain branch of [_extract_pool]
    fails with the block explorer's "Contract source code not verified"
    error, the error is caught: every pool field becomes
    [CONTRACT_UNVERIFIED], the token and rate-provider lists are empty
    (the token list then goes through [prettify_tokens_list] like any
    other), and [_extract_pool] goes on instead of raising. *)
Theorem extract_pool_unverified chain gauge selectors s recipient x1
    network_id x2 style s3 :
  chain ≠ Some CHAIN_MAINNET →
  call w gauge "getRecipient" (ext s) = (Ret recipient, x1) →
  sidechain_network_id w chain = Ret network_id →
  switch_chain_if_needed w network_id x1 = (Ret tt, x2) →
  sidechain_try w recipient (mk_st x2 (fs_log s))
    = (Ret (style, inl (ValueError UNVERIFIED_MESSAGE)), s3) →
  extract_sidechain_pool w chain gauge s
    = (Ret (mk_pool_info CONTRACT_UNVERIFIED CONTRACT_UNVERIFIED
              CONTRACT_UNVERIFIED CONTRACT_UNVERIFIED CONTRACT_UNVERIFIED
              CONTRACT_UNVERIFIED (PList []) (PList []),
            default STYLE_L0 style), s3) ∧
  _extract_pool w chain gauge selectors s
    = bind (call_ext (prettify_tokens_list w (PList [])))
        (λ tokens',
           ret (mk_pool_info CONTRACT_UNVERIFIED CONTRACT_UNVERIFIED
                  CONTRACT_UNVERIFIED CONTRACT_UNVERIFIED
                  CONTRACT_UNVERIFIED CONTRACT_UNVERIFIED tokens'
                  (PList []),
                default STYLE_L0 style)) s3.
Proof.
  intros Hne Hrec Hnet Hswitch Htry.
  pose proof (extract_sidechain_pool_except _ _ _ _ _ _ _ _ _ _
                Hrec Hnet Hswitch Htry) as Hside.
  assert (Hpool : extract_sidechain_pool w chain gauge s
            = (Ret (unverified_pool, default STYLE_L0 style), s3)).
  { rewrite Hside. unfold except_unverified.
    by rewrite String.eqb_refl. }
  split; [exact Hpool|].
  rewrite extract_pool_sidechain by done.
  by rewrite (run_bind_Ret _ _ _ _ _ Hpool).
Qed.

(** Any other exception of that [try] leaves [_extract_pool]. *)
Lemma extract_pool_other_error chain gauge selectors s recipient x1
    network_id x2 style e s3 :
  chain ≠ Some CHAIN_MAINNET →
  call w gauge "getRecipient" (ext s) = (Ret recipient, x1) →
  sidechain_network_id w chain = Ret network_id →
  switch_chain_if_needed w network_id x1 = (Ret tt, x2) →
  sidechain_try w recipient (mk_st x2 (fs_log s))
    = (Ret (style, inl e), s3) →
  e ≠ ValueError UNVERIFIED_MESSAGE →
  _extract_pool w chain gauge selectors s = (Raise e, s3).
Proof.
  intros Hne Hrec Hnet Hswitch Htry He.
  rewrite extract_pool_sidechain by done.
  apply run_bind_Raise.
  rewrite (extract_sidechain_pool_except _ _ _ _ _ _ _ _ _ _
             Hrec Hnet Hswitch Htry).
  apply run_bind_Raise. unfold except_unverified.
  destruct e as [msg| | | | | | |]; try done.
  destruct (String.eqb msg UNVERIFIED_MESSAGE) eqn:E; [|done].
  apply String.eqb_eq in E. by subst msg.
Qed.

(** [_parse_removed_transaction] turns any failure to decode the call
    of the target into [None]. *)
Lemma removed_decode_failure tx kw s d x1 e s2 :
  lacks_inputs_or_method tx = false →
  civ_of tx = PDict d →
  truthy (dict_get d "data" PNone) = true →
  switch_chain_if_needed w (PInt 1) (ext s) = (Ret tt, x1) →
  decode_target_call w tx (mk_st x1 (fs_log s)) = (Raise e, s2) →
  _parse_removed_transaction w tx kw s = (Ret None, s2).
Proof.
  intros Hl Hc Hd Hswitch Hdec. unfold _parse_removed_transaction.
  rewrite Hl, Hc, Hd. simpl.
  run_ext Hswitch.
  rewrite run_bind. unfold try. by rewrite Hdec.
Qed.

(** The single-recipient branch replaces an [AttributeError] of its
    [try] by the "no escrow" placeholders. *)
Lemma extract_single_recipient_no_escrow gauge s address x1 recipient x2
    s3 again x4 :
  call w gauge "getRecipient" (ext s) = (Ret address, x1) →
  Contract w address x1 = (Ret recipient, x2) →
  escrow_pool_info w recipient (mk_st x2 (fs_log s))
    = (Raise AttributeError, s3) →
  call w gauge "getRecipient" (ext s3) = (Ret again, x4) →
  extract_single_recipient_pool w gauge s
    = (Ret (no_escrow_pool, STYLE_SINGLE_RECIPIENT), mk_st x4 (fs_log s3)).
Proof.
  intros Hrec Hcon Htry Hagain. unfold extract_single_recipient_pool.
  run_ext Hrec.
  run_ext Hcon.
  simpl. rewrite run_bind. unfold try at 1. rewrite Htry.
  rewrite run_bind.
  by run_ext Hagain.
Qed.

End pool_facts.

Section classifier_claims.
Context {S C AB BP : Type} (w : World S C AB BP).
Implicit Types (tx : transaction) (kw : kwargs) (s : st S).

(** C2, as amended: for a transaction whose [contractMethod.name] is
    there and is not the classifier's method name, [_parse_hh_brib]
    (depositBribe) and [_parse_transfer] (transfer) return [None], and so
    does [_parse_set_recipient_list] (setRecipientList) once it has
    opened the address book of the chain; [_parse_permissions] returns
    [None] for every name that is a string without "Role" in it.
    [_parse_added_transaction] and [_parse_removed_transaction] do not
    go by the method name: the first returns [None] when the inputs hold
    neither a [gauge] nor a [rootGauge] key, the second when the inputs
    hold no [data]. *)
Theorem other_method_name_returns_None tx kw s name :
  method_name tx = Some name →
  (eq_str name "depositBribe" = false →
     _parse_hh_brib w tx kw s = (Ret None, s)) ∧
  (eq_str name "transfer" = false →
     _parse_transfer w tx kw s = (Ret None, s)) ∧
  (eq_str name "setRecipientList" = false →
     ∀ x', book_opened w kw s x' →
       _parse_set_recipient_list w tx kw s
         = (Ret None, mk_st x' (fs_log s))) ∧
  (∀ n, name = PStr n → contains "Role" n = false →
     _parse_permissions w tx kw s = (Ret None, s)) ∧
  (∀ d, civ_of tx = PDict d →
     dict_lookup "gauge" d = None → dict_lookup "rootGauge" d = None →
     _parse_added_transaction w tx kw s = (Ret None, s)) ∧
  (∀ d, civ_of tx = PDict d → truthy (dict_get d "data" PNone) = false →
     _parse_removed_transaction w tx kw s = (Ret None, s)).
Proof.
  intros Hname. repeat split.
  - intros ?. by eapply hh_brib_other_name.
  - intros ?. by eapply transfer_other_name.
  - intros Hne x' Hbook. by eapply set_recipient_list_other_name.
  - intros n -> Hn. by eapply permissions_other_name.
  - apply added_without_gauge_key.
  - apply removed_without_data.
Qed.

End classifier_claims.

(** ** Loops and steps of the script *)

Section step_facts.
Context {S : Type}.
Implicit Types (s : st S).

Lemma bind_Ret_inv {A B} (m : M S A) (k : A -> M S B) s b s' :
  bind m k s = (Ret b, s') →
  ∃ a s1, m s = (Ret a, s1) ∧ k a s1 = (Ret b, s').
Proof.
  unfold bind. destruct (m s) as [[a|e] s1]; [|done]. intros H. eauto.
Qed.

Lemma pure_Ret_inv {A} (x : outcome A) s a s' :
  pure x s = (Ret a, s') → x = Ret a ∧ s' = s.
Proof. unfold pure. by intros [= -> ->]. Qed.

Lemma ret_Ret_inv {A} (a a' : A) s s' :
  ret a s = (Ret a', s') → a' = a ∧ s' = s.
Proof. unfold ret. by intros [= -> ->]. Qed.

Lemma call_ext_inv {A} (c : E S A) s r s' :
  call_ext c s = (r, s') →
  ∃ x, c (ext s) = (r, x) ∧ s' = mk_st x (fs_log s).
Proof.
  unfold call_ext. destruct (c (ext s)) as [r0 x]. intros [= -> <-]. eauto.
Qed.

Lemma for_each_cons {A B} (body : B -> A -> M S B) x xs acc s :
  for_each body (x :: xs) acc s =
    match body acc x s with
    | (Ret acc', s1) => for_each body xs acc' s1
    | (Raise e, s1) => (Raise e, s1)
    end.
Proof. reflexivity. Qed.

(** A loop in which one turn cannot finish does not finish. *)
Lemma for_each_stuck {A B} (body : B -> A -> M S B) x xs :
  x ∈ xs →
  (∀ acc s, ¬ is_Ret (body acc x s).1) →
  ∀ acc s, ¬ is_Ret (for_each body xs acc s).1.
Proof.
  intros Hx Hstuck. induction xs as [|y xs IH]; intros acc s.
  - by apply elem_of_nil in Hx.
  - rewrite for_each_cons.
    destruct (body acc y s) as [[acc'|e] s1] eqn:Hy; [|simpl; tauto].
    apply elem_of_cons in Hx as [->|Hx].
    + exfalso. apply (Hstuck acc s). by rewrite Hy.
    + by apply IH.
Qed.

(** A property kept by every finished turn holds when the loop has
    finished. *)
Lemma for_each_invariant {A B} (body : B -> A -> M S B)
    (P : B → st S → Prop) xs :
  (∀ x acc s acc' s', x ∈ xs → P acc s →
     body acc x s = (Ret acc', s') → P acc' s') →
  ∀ acc s acc' s',
    P acc s → for_each body xs acc s = (Ret acc', s') → P acc' s'.
Proof.
  induction xs as [|x xs IH]; intros Hstep acc s acc' s' HP.
  - by intros [= <- <-].
  - rewrite for_each_cons.
    destruct (body acc x s) as [[a1|e] s1] eqn:Hx; [|done].
    apply IH.
    + intros y. intros. eapply (Hstep y); eauto. by right.
    + eapply Hstep; eauto. by left.
Qed.

(** A loop that appends one row per turn. *)
Lemma for_each_append_length {A R} (g : A → M S R) xs :
  ∀ (rows : list R) s rows' s',
    for_each (fun rows i => r <- g i; ret (rows ++ [r])%list) xs rows s
      = (Ret rows', s') →
    length rows' = length rows + length xs.
Proof.
  induction xs as [|x xs IH]; intros rows s rows' s'.
  - intros [= <- <-]. simpl. lia.
  - rewrite for_each_cons.
    destruct (bind (g x) (λ r, ret (rows ++ [r])%list) s)
      as [[a1|e] s1] eqn:Hx; [|done].
    intros H. apply IH in H. rewrite H.
    apply bind_Ret_inv in Hx as (r & s2 & _ & [-> _]%ret_Ret_inv).
    rewrite length_app. simpl. lia.
Qed.
End step_facts.

(** ** report_gauges.py: [parse_no_reports_report] *)

Section dict_keys.
Context {A : Type}.
Implicit Types (d : list (string * A)).

Lemma dict_set_keys_new k (v : A) d :
  dict_lookup k d = None → (dict_set k v d).*1 = (d.*1 ++ [k])%list.
Proof.
  induction d as [|[k0 v0] d IH]; [done|].
  cbn [dict_set dict_lookup].
  destruct (String.eqb k k0) eqn:E; [done|].
  intros H. rewrite !fmap_cons. simpl. f_equal. by apply IH.
Qed.

Lemma dict_set_NoDup k (v : A) d :
  NoDup d.*1 → NoDup (dict_set k v d).*1.
Proof.
  intros Hd. destruct (dict_lookup k d) as [v0|] eqn:Hk.
  - rewrite dict_set_keys; [done|]. by rewrite Hk.
  - rewrite dict_set_keys_new by done.
    apply NoDup_app. split; [done|]. split; [|apply NoDup_singleton].
    intros x Hx ->%list_elem_of_singleton.
    by apply dict_lookup_None_keys in Hk.
Qed.

Lemma dict_set_key_in k (v : A) d : k ∈ (dict_set k v d).*1.
Proof.
  destruct (dict_lookup k (dict_set k v d)) eqn:H.
  - apply dict_lookup_Some_elem in H.
    apply list_elem_of_fmap. by eexists (_, _).
  - by rewrite dict_lookup_set, String.eqb_refl in H.
Qed.

Lemma dict_lookup_elem_NoDup k (v : A) d :
  NoDup d.*1 → (k, v) ∈ d → dict_lookup k d = Some v.
Proof.
  induction d as [|[k0 v0] d IH]; simpl; intros Hd Hin.
  - by apply elem_of_nil in Hin.
  - apply NoDup_cons in Hd as [Hk0 Hd].
    apply elem_of_cons in Hin as [[= -> ->]|Hin].
    + by rewrite String.eqb_refl.
    + destruct (String.eqb k k0) eqn:E; [|by apply IH].
      apply String.eqb_eq in E as ->. exfalso. apply Hk0.
      apply list_elem_of_fmap. by exists (k0, v).
Qed.
End dict_keys.

Lemma by_file_NoDup {A} (g : file → A) files : ∀ d,
  NoDup d.*1 →
  NoDup (foldl (fun d f => dict_set (file_name f) (g f) d) d files).*1.
Proof.
  induction files as [|f files IH]; intros d Hd; simpl; [done|].
  apply IH. by apply dict_set_NoDup.
Qed.

Lemma cover_output_keys filename covered output covered' :
  cover_output filename covered output = Ret covered' →
  covered'.*1 = covered.*1.
Proof.
  unfold cover_output.
  destruct (dict_lookup filename covered) as [indexes|] eqn:Hf; [|done].
  destruct (hash_key (dict_get output "tx_index" PNone)) as [k|e]; [|done].
  simpl. intros [= <-]. apply dict_set_keys. by rewrite Hf.
Qed.

Lemma ofold_keys {A K V} (step : list (K * V) → A → outcome (list (K * V)))
    (xs : list A) :
  (∀ d x d', step d x = Ret d' → d'.*1 = d.*1) →
  ∀ d d', ofold step xs d = Ret d' → d'.*1 = d.*1.
Proof.
  intros Hstep. induction xs as [|x xs IH]; intros d d'; simpl.
  - by intros [= <-].
  - destruct (step d x) as [d1|e] eqn:Hx; [|done]. simpl.
    intros H. rewrite (IH _ _ H). by eapply Hstep.
Qed.

Lemma covered_indexs_by_file_NoDup all_reports files covered :
  covered_indexs_by_file all_reports files = Ret covered → NoDup covered.*1.
Proof.
  unfold covered_indexs_by_file. intros H.
  erewrite (ofold_keys cover_report); [| |exact H].
  - apply (by_file_NoDup (fun _ => ∅ : gset hkey)). simpl. apply NoDup_nil_2.
  - intros d report d'. unfold cover_report.
    apply (ofold_keys (fun cov '(filename, info) =>
             ofold (cover_output filename) (outputs info) cov)).
    intros d0 [filename info] d1. apply ofold_keys.
    intros ? ? ?. apply cover_output_keys.
Qed.

Lemma uncovered_indexs_empty_file :
  uncovered_indexs 0 ∅ = {[KInt 0]}.
Proof.
  unfold uncovered_indexs. rewrite bool_decide_eq_true_2 by apply size_empty.
  unfold range_set. simpl. set_solver.
Qed.

Section catch_all.
Context {S C AB BP : Type} (w : World S C AB BP).
Implicit Types (s : st S) (files : list file) (reps : reports).

(** The uncovered set of the file kept under [name]. *)
Local Abbreviation uncovered_of files name cov :=
  (uncovered_indexs
     (default 0 (dict_lookup name (tx_list_len_by_file files))) cov).

(** A finished turn of the third loop either found nothing uncovered or
    filed one row per uncovered index under the file's name. *)
Lemma report_uncovered_Ret files reps name cov s reps' s' :
  report_uncovered w files reps (name, cov) s = (Ret reps', s') →
  (size (uncovered_of files name cov) = 0 ∧ reps' = reps) ∨
  (size (uncovered_of files name cov) ≠ 0 ∧
   ∃ info, reps' = dict_set name info reps ∧
     report_file info = inr name ∧
     length (outputs info) = size (uncovered_of files name cov)).
Proof.
  unfold report_uncovered. case_bool_decide as Hsz.
  - intros [-> _]%ret_Ret_inv. by left.
  - destruct (dict_lookup name (filedata_by_file files)) as [filedata|];
      [|done].
    intros H. right. split; [done|].
    apply bind_Ret_inv in H as (multisig & s1 & _ & H).
    apply bind_Ret_inv in H as (id & s2 & _ & H).
    apply bind_Ret_inv in H as (addr & s3 & _ & H).
    apply bind_Ret_inv in H as (rows & s4 & Hrows & H).
    apply bind_Ret_inv in H as (id' & s5 & _ & H).
    apply bind_Ret_inv in H as (text & s6 & _ & H).
    apply ret_Ret_inv in H as [-> _].
    eexists. split; [done|]. split; [done|]. simpl.
    apply for_each_append_length in Hrows. rewrite Hrows. simpl.
    apply set_iter_length.
Qed.
(** The row for index 0 of a file without transactions cannot be built:
    [transactions[0]] is out of range. *)
Lemma no_report_row_empty_file name filedata chain_name addr s :
  transactions filedata = [] →
  no_report_row w name filedata chain_name addr (KInt 0) s
    = (Raise IndexError, s).
Proof. intros Hnil. unfold no_report_row. by rewrite Hnil. Qed.

(** The turn of the third loop for an empty file that nobody covered:
    it raises, whatever came before. *)
Lemma report_uncovered_empty_file files reps f s :
  last_file (file_name f) files = Some f →
  transactions f = [] →
  ¬ is_Ret (report_uncovered w files reps (file_name f, ∅) s).1.
Proof.
  intros Hlast Hnil. unfold report_uncovered.
  rewrite tx_list_len_lookup, filedata_lookup, Hlast. simpl.
  rewrite Hnil. simpl. rewrite uncovered_indexs_empty_file.
  rewrite size_singleton. simpl.
  rewrite set_iter_singleton.
  rewrite run_bind.
  destruct (pure (py_item (meta f) "createdFromSafeAddress") s)
    as [[multisig|e] s1]; [|simpl; tauto].
  rewrite run_bind.
  destruct (pure (py_int w (chainId f)) s1) as [[id|e] s2]; [|simpl; tauto].
  rewrite run_bind.
  destruct (call_ext (AddrBook w
              (default (PStr "Chain_not_found") (chain_names_by_id w id)))
            s2) as [[addr|e] s3]; [|simpl; tauto].
  rewrite run_bind, for_each_cons, run_bind.
  rewrite no_report_row_empty_file by done. simpl. tauto.
Qed.

(** ... and when the steps before it succeed, what it raises is the
    [IndexError] of that access. *)
Lemma report_uncovered_empty_file_IndexError files reps f s multisig id
    book x' :
  last_file (file_name f) files = Some f →
  transactions f = [] →
  py_item (meta f) "createdFromSafeAddress" = Ret multisig →
  py_int w (chainId f) = Ret id →
  AddrBook w (default (PStr "Chain_not_found") (chain_names_by_id w id))
    (ext s) = (Ret book, x') →
  report_uncovered w files reps (file_name f, ∅) s
    = (Raise IndexError, mk_st x' (fs_log s)).
Proof.
  intros Hlast Hnil Hm Hid Hbook. unfold report_uncovered.
  rewrite tx_list_len_lookup, filedata_lookup, Hlast. simpl.
  rewrite Hnil. simpl. rewrite uncovered_indexs_empty_file.
  rewrite size_singleton. simpl.
  rewrite set_iter_singleton.
  rewrite (run_pure_Ret _ _ _ _ Hm), (run_pure_Ret _ _ _ _ Hid).
  rewrite (run_bind_Ret _ _ _ _ _ (run_call_ext _ _ _ _ Hbook)).
  rewrite run_bind, for_each_cons, run_bind.
  by rewrite no_report_row_empty_file.
Qed.

(** A finished third loop: each name of the covered dict has a report
    exactly when something of the file is uncovered, with one row per
    uncovered index. *)
Lemma report_uncovered_loop files covered : ∀ reps s reps' s',
  NoDup covered.*1 →
  for_each (report_uncovered w files) covered reps s = (Ret reps', s') →
  ∀ name,
    match dict_lookup name covered with
    | None => dict_lookup name reps' = dict_lookup name reps
    | Some cov =>
        if decide (size (uncovered_of files name cov) = 0)
        then dict_lookup name reps' = dict_lookup name reps
        else ∃ info, dict_lookup name reps' = Some info ∧
               report_file info = inr name ∧
               length (outputs info) = size (uncovered_of files name cov)
    end.
Proof.
  induction covered as [|[n0 c0] covered IH]; intros reps s reps' s' Hnd.
  - by intros [= <- <-] name.
  - rewrite for_each_cons.
    destruct (report_uncovered w files reps (n0, c0) s)
      as [[reps1|e] s1] eqn:Hturn; [|done].
    rewrite fmap_cons in Hnd. apply NoDup_cons in Hnd as [Hn0 Hnd].
    simpl in Hn0.
    intros Hrest name.
    pose proof (IH _ _ _ _ Hnd Hrest name) as Hname.
    apply report_uncovered_Ret in Hturn.
    cbn [dict_lookup]. destruct (String.eqb name n0) eqn:E.
    + apply String.eqb_eq in E as ->.
      apply dict_lookup_None_keys in Hn0. rewrite Hn0 in Hname.
      rewrite Hname.
      destruct Hturn as [[Hz ->]|[Hnz (info & -> & Hf & Hlen)]].
      * by rewrite decide_True.
      * rewrite decide_False by done. exists info.
        by rewrite dict_lookup_set, String.eqb_refl.
    + assert (dict_lookup name reps1 = dict_lookup name reps) as Hsame.
      { destruct Hturn as [[_ ->]|[_ (info & -> & _)]]; [done|].
        by rewrite dict_lookup_set, E. }
      by rewrite Hsame in Hname.
Qed.

(** A finished run reports a file exactly when something of it is
    uncovered, with one row per uncovered index. *)
Lemma parse_no_reports_report_file (all_reports : list reports) files
    (f : file) s no_reports s' :
  last_file (file_name f) files = Some f →
  parse_no_reports_report w all_reports files s = (Ret no_reports, s') →
  let n := length (transactions f) in
  let cov := claimed all_reports (file_name f) in
  if decide (uncovered_indexs n cov = ∅)
  then dict_lookup (file_name f) no_reports = None
  else ∃ info, dict_lookup (file_name f) no_reports = Some info ∧
         report_file info = inr (file_name f) ∧
         length (outputs info) = size (uncovered_indexs n cov).
Proof.
  intros Hlast Hrun n cov. unfold parse_no_reports_report in Hrun.
  destruct (covered_indexs_by_file all_reports files) as [covered|e]
    eqn:Hcov; [|done].
  change (bind (pure (Ret covered)) ?k s) with (k covered s) in Hrun.
  pose proof (report_uncovered_loop files covered [] s no_reports s'
    (covered_indexs_by_file_NoDup _ _ _ Hcov) Hrun (file_name f)) as H.
  rewrite (covered_indexs_by_file_lookup _ _ _ _ Hcov), Hlast in H.
  simpl in H. rewrite tx_list_len_lookup, Hlast in H. simpl in H.
  fold n cov in H.
  destruct (decide (uncovered_indexs n cov = ∅)) as [He|Hne].
  - rewrite decide_True in H; [done|]. rewrite He. apply size_empty.
  - rewrite decide_False in H; [done|].
    intros Hz. apply Hne. by apply size_empty_inv, leibniz_equiv in Hz.
Qed.

(** C1, as amended: for every file of the run and every list of
    reports, [parse_no_reports_report] gathers as covered the union of
    the [tx_index] values claimed for the file by the outputs of the
    reports, and computes the uncovered indices as the symmetric
    difference between all transaction indices and the covered ones, with
    index 0 added when nothing is covered.  That is the set difference
    whenever every covered index is an index of the file and either
    something is covered or the file has a transaction.  A finished run
    reports the file exactly when that set is not empty, with one row per
    uncovered index. *)
Theorem parse_no_reports_report_uncovered
    (all_reports : list reports) files (f : file) covered :
  covered_indexs_by_file all_reports files = Ret covered →
  last_file (file_name f) files = Some f →
  let n := length (transactions f) in
  let cov := claimed all_reports (file_name f) in
  dict_lookup (file_name f) covered = Some cov ∧
  uncovered_of files (file_name f) cov = uncovered_indexs n cov ∧
  uncovered_indexs n cov
    = (range_set n ∖ cov) ∪ (cov ∖ range_set n)
      ∪ (if decide (cov = ∅) then {[KInt 0]} else ∅) ∧
  (cov ⊆ range_set n → cov ≠ ∅ ∨ 0 < n →
   uncovered_indexs n cov = range_set n ∖ cov) ∧
  (∀ s no_reports s',
     parse_no_reports_report w all_reports files s = (Ret no_reports, s') →
     if decide (uncovered_indexs n cov = ∅)
     then dict_lookup (file_name f) no_reports = None
     else ∃ info, dict_lookup (file_name f) no_reports = Some info ∧
            report_file info = inr (file_name f) ∧
            length (outputs info) = size (uncovered_indexs n cov)).
Proof.
  intros Hcov Hlast n cov.
  assert (Hlookup : dict_lookup (file_name f) covered = Some cov).
  { rewrite (covered_indexs_by_file_lookup _ _ _ _ Hcov). by rewrite Hlast. }
  assert (Hn : uncovered_of files (file_name f) cov = uncovered_indexs n cov).
  { by rewrite tx_list_len_lookup, Hlast. }
  split; [done|]. split; [done|]. split; [|split].
  - unfold uncovered_indexs. cbv zeta.
    case_bool_decide as Hsz.
    + apply size_empty_inv, leibniz_equiv in Hsz.
      by rewrite decide_True.
    + rewrite decide_False; [by rewrite union_empty_r_L|].
      intros ->. by rewrite size_empty in Hsz.
  - apply uncovered_indexs_difference.
  - intros s no_reports s' Hrun.
    by apply (parse_no_reports_report_file all_reports files f s no_reports s').
Qed.

(** C9: when no handler covered any transaction of a file,
    [parse_no_reports_report] adds index 0 to the file's uncovered set,
    whatever the length of its transaction list, and then reads the
    transaction at index 0.  So a run can only finish if every file
    nobody covered has a transaction; for a file with an empty
    transaction list the read is out of range and the run ends in
    [IndexError]. *)
Theorem parse_no_reports_report_empty_file :
  (∀ n, KInt 0 ∈ uncovered_indexs n ∅) ∧
  (∀ all_reports files s no_reports s',
     parse_no_reports_report w all_reports files s = (Ret no_reports, s') →
     ∀ f, last_file (file_name f) files = Some f →
          claimed all_reports (file_name f) = ∅ →
          transactions f ≠ []) ∧
  (∀ f s multisig id book x',
     transactions f = [] →
     py_item (meta f) "createdFromSafeAddress" = Ret multisig →
     py_int w (chainId f) = Ret id →
     AddrBook w (default (PStr "Chain_not_found") (chain_names_by_id w id))
       (ext s) = (Ret book, x') →
     parse_no_reports_report w [] [f] s
       = (Raise IndexError, mk_st x' (fs_log s))).
Proof.
  split; [apply uncovered_indexs_nothing_covered|]. split.
  - intros all_reports files s no_reports s' Hrun f Hlast Hclaimed Hnil.
    unfold parse_no_reports_report in Hrun.
    destruct (covered_indexs_by_file all_reports files) as [covered|e]
      eqn:Hcov; [|done].
    change (bind (pure (Ret covered)) ?k s) with (k covered s) in Hrun.
    assert (Hin : (file_name f, ∅) ∈ covered).
    { apply dict_lookup_Some_elem.
      rewrite (covered_indexs_by_file_lookup _ _ _ _ Hcov), Hlast. simpl.
      by rewrite Hclaimed. }
    eapply (for_each_stuck (report_uncovered w files) _ _ Hin).
    + intros acc s0. by apply report_uncovered_empty_file.
    + by rewrite Hrun.
  - intros f s multisig id book x' Hnil Hm Hid Hbook.
    unfold parse_no_reports_report.
    assert (covered_indexs_by_file [] [f] = Ret [(file_name f, ∅)]) as ->
      by reflexivity.
    change (bind (pure (Ret ?c)) ?k s) with (k c s). cbv beta.
    rewrite for_each_cons.
    assert (Hlast : last_file (file_name f) [f] = Some f)
      by (simpl; by rewrite String.eqb_refl).
    by rewrite (report_uncovered_empty_file_IndexError [f] [] f s
                  multisig id book x' Hlast Hnil Hm Hid Hbook).
Qed.

End catch_all.

(** ** Nothing but [main] writes *)

Section quiet_facts.
Context {S : Type}.

Lemma quiet_ret {A} (a : A) : quiet (ret (S:=S) a).
Proof. by intros s. Qed.

Lemma quiet_raise {A} e : quiet (raise (S:=S) (A:=A) e).
Proof. by intros s. Qed.

Lemma quiet_pure {A} (x : outcome A) : quiet (pure (S:=S) x).
Proof. by intros s. Qed.

Lemma quiet_call_ext {A} (c : E S A) : quiet (call_ext c).
Proof. intros s. unfold call_ext. by destruct (c (ext s)). Qed.

Lemma quiet_bind {A B} (m : M S A) (k : A → M S B) :
  quiet m → (∀ a, quiet (k a)) → quiet (bind m k).
Proof.
  intros Hm Hk s. unfold bind. specialize (Hm s).
  destruct (m s) as [[a|e] s1]; simpl in *; [|done].
  by rewrite Hk.
Qed.

Lemma quiet_try {A} (m : M S A) : quiet m → quiet (try m).
Proof.
  intros Hm s. unfold try. specialize (Hm s).
  by destruct (m s) as [[a|e] s1].
Qed.

Lemma quiet_for_each {A B} (body : B → A → M S B) xs :
  (∀ acc x, quiet (body acc x)) → ∀ acc, quiet (for_each body xs acc).
Proof.
  intros Hbody. induction xs as [|x xs IH]; intros acc; simpl.
  - apply quiet_ret.
  - apply quiet_bind; [apply Hbody|apply IH].
Qed.
End quiet_facts.

(** Takes a step that is built from binds, branches and service calls
    apart. *)
Ltac quiet_step :=
  match goal with
  | |- quiet (bind _ _) => apply quiet_bind; [|intros ?]
  | |- quiet (ret _) => apply quiet_ret
  | |- quiet (raise _) => apply quiet_raise
  | |- quiet (pure _) => apply quiet_pure
  | |- quiet (call_ext _) => apply quiet_call_ext
  | |- quiet (try _) => apply quiet_try
  | |- quiet (for_each _ _ _) => apply quiet_for_each; intros ? ?
  | |- quiet (if ?b then _ else _) => destruct b
  | |- quiet (match ?x with _ => _ end) => destruct x
  | |- quiet (let _ := _ in _) => cbv zeta
  end.

Ltac quiet := repeat quiet_step.

Section classifiers_quiet.
Context {S C AB BP : Type} (w : World S C AB BP).

Lemma except_unverified_quiet e : quiet (except_unverified (S:=S) e).
Proof. unfold except_unverified. quiet. Qed.

Lemma extract_pool_quiet chain gauge selectors :
  quiet (_extract_pool w chain gauge selectors).
Proof.
  unfold _extract_pool, extract_sidechain_pool, extract_single_recipient_pool,
    extract_mainnet_pool, sidechain_try, sidechain_recipient_of,
    sidechain_pool_info, escrow_pool_info.
  quiet; try apply except_unverified_quiet.
Qed.

Lemma gauge_cap_quiet gauge selectors :
  quiet (gauge_cap_of w gauge selectors).
Proof. unfold gauge_cap_of. quiet. Qed.

Lemma set_recipient_list_quiet tx kw :
  quiet (_parse_set_recipient_list w tx kw).
Proof. unfold _parse_set_recipient_list. quiet. Qed.

Lemma hh_brib_quiet tx kw : quiet (_parse_hh_brib w tx kw).
Proof. unfold _parse_hh_brib. quiet. Qed.

Lemma added_quiet tx kw : quiet (_parse_added_transaction w tx kw).
Proof.
  unfold _parse_added_transaction.
  quiet; try apply gauge_cap_quiet; try apply extract_pool_quiet.
Qed.

Lemma removed_quiet tx kw : quiet (_parse_removed_transaction w tx kw).
Proof.
  unfold _parse_removed_transaction, decode_target_call.
  quiet; try apply gauge_cap_quiet; try apply extract_pool_quiet.
Qed.

Lemma permissions_quiet tx kw : quiet (_parse_permissions w tx kw).
Proof. unfold _parse_permissions. quiet. Qed.

Lemma find_chain_quiet items chain_id : quiet (find_chain w items chain_id).
Proof.
  induction items as [|[c_name c_id] items IH]; simpl; quiet. apply IH.
Qed.

Lemma transfer_quiet tx kw : quiet (_parse_transfer w tx kw).
Proof.
  unfold _parse_transfer. quiet; try apply find_chain_quiet.
Qed.

Lemma handler_quiet files handler_func :
  (∀ tx kw, quiet (handler_func tx kw)) →
  quiet (handler w files handler_func).
Proof.
  intros Hf. unfold handler, handle_file, handle_transaction.
  quiet; try apply Hf.
Qed.

Lemma parse_no_reports_report_quiet all_reports files :
  quiet (parse_no_reports_report w all_reports files).
Proof.
  unfold parse_no_reports_report, report_uncovered, no_report_row.
  quiet.
Qed.

End classifiers_quiet.

(** ** report_gauges.py: [handler] *)

Section handler_facts.
Context {S C AB BP : Type} (w : World S C AB BP).
Context (handler_func : transaction → kwargs → M S (option row)).
Hypothesis handler_func_quiet : ∀ tx kw, quiet (handler_func tx kw).

Implicit Types (s : st S) (f : file) (evs : list event).

(** What a step that logs nothing leaves behind, whatever its outcome. *)
Lemma quiet_run {A} (m : M S A) s r s' :
  quiet m → m s = (r, s') → fs_log s' = fs_log s.
Proof. intros Hq Hm. specialize (Hq s). by rewrite Hm in Hq. Qed.

(** A recorded call logs the call, then the value if there is one. *)
Lemma recording_run tx kw s r s' :
  recording handler_func tx kw s = (r, s') →
  match r with
  | Ret data => fs_log s' = fs_log s ++ [Called tx kw; Returned data]
  | Raise _ => fs_log s' = fs_log s ++ [Called tx kw]
  end.
Proof.
  unfold recording, bind, log_event, ret. simpl.
  destruct (handler_func tx kw {| ext := ext s;
              fs_log := fs_log s ++ [Called tx kw] |})
    as [[data|e] s1] eqn:Hf.
  - intros [= <- <-]. simpl.
    rewrite (quiet_run _ _ _ _ (handler_func_quiet tx kw) Hf). simpl.
    by rewrite <- app_assoc.
  - intros [= <- <-].
    by rewrite (quiet_run _ _ _ _ (handler_func_quiet tx kw) Hf).
Qed.

(** One turn of the inner loop: at most one call, the one owed to the
    transaction at position [i]; a finished turn made it and appended its
    report, if any, to the outputs. *)
Lemma handle_transaction_run f outputs i tx s r s' :
  handle_transaction w (recording handler_func) f (outputs, i) tx s
    = (r, s') →
  ∃ evs, fs_log s' = fs_log s ++ evs ∧
    omap call_of evs `prefix_of` [(tx, chainId f, PInt (Z.of_nat i))] ∧
    ∀ acc, r = Ret acc →
      omap call_of evs = [(tx, chainId f, PInt (Z.of_nat i))] ∧
      acc = ((outputs ++ omap report_of evs)%list, Datatypes.S i).
Proof.
  unfold handle_transaction. rewrite run_bind.
  destruct (pure (meta_bip_number tx) s) as [[b|e] s1] eqn:Hb.
  2: { intros [= <- <-]. exists []. rewrite app_nil_r.
       rewrite (quiet_run _ _ _ _ (quiet_pure _) Hb).
       split; [done|]. split; [apply prefix_nil|done]. }
  rewrite run_bind.
  destruct ((if truthy b then ret b else call_ext (extract_bip_number w f))
              s1) as [[bip|e] s2] eqn:Hbip.
  2: { intros [= <- <-]. exists []. rewrite app_nil_r.
       assert (fs_log s2 = fs_log s1) as ->.
       { destruct (truthy b);
           [by injection Hbip as _ <-
           |by rewrite (quiet_run _ _ _ _ (quiet_call_ext _) Hbip)]. }
       rewrite (quiet_run _ _ _ _ (quiet_pure _) Hb).
       split; [done|]. split; [apply prefix_nil|done]. }
  assert (fs_log s2 = fs_log s) as Hlog.
  { rewrite <- (quiet_run _ _ _ _ (quiet_pure _) Hb).
    destruct (truthy b);
      [by injection Hbip as _ <-
      |by rewrite (quiet_run _ _ _ _ (quiet_call_ext _) Hbip)]. }
  rewrite run_bind.
  destruct (recording handler_func tx
              (mk_kwargs (chainId f) bip (PInt (Z.of_nat i))) s2)
    as [[data|e] s3] eqn:Hrec; apply recording_run in Hrec;
    rewrite Hlog in Hrec.
  - intros [= <- <-].
    eexists. split; [exact Hrec|]. simpl. split; [done|].
    intros acc [= <-]. split; [done|]. f_equal.
    unfold append_report. destruct data as [[|item row]|]; simpl;
      by rewrite ?app_nil_r.
  - intros [= <- <-].
    eexists. split; [exact Hrec|]. simpl. split; [done|done].
Qed.

(** The inner loop: the calls are made in the order of the transaction
    list, each with its position; the outputs follow the returned
    reports in that order. *)
Lemma handle_transactions_run f txs : ∀ outputs i s r s',
  for_each (handle_transaction w (recording handler_func) f) txs
    (outputs, i) s = (r, s') →
  ∃ evs, fs_log s' = fs_log s ++ evs ∧
    omap call_of evs `prefix_of` calls_from f i txs ∧
    ∀ acc, r = Ret acc →
      omap call_of evs = calls_from f i txs ∧
      acc = ((outputs ++ omap report_of evs)%list, i + length txs).
Proof.
  induction txs as [|tx txs IH]; intros outputs i s r s'.
  - intros [= <- <-]. exists []. rewrite app_nil_r. split; [done|].
    split; [done|]. intros acc [= <-]. split; [done|].
    simpl. rewrite app_nil_r. f_equal. lia.
  - rewrite for_each_cons.
    destruct (handle_transaction w (recording handler_func) f
                (outputs, i) tx s) as [[acc1|e] s1] eqn:Hturn;
      apply handle_transaction_run in Hturn as (evs1 & Hlog1 & Hpre1 & Hret1).
    + destruct (Hret1 _ eq_refl) as [Hcalls1 ->].
      intros Hrest.
      apply IH in Hrest as (evs2 & Hlog2 & Hpre2 & Hret2).
      exists (evs1 ++ evs2). rewrite Hlog2, Hlog1, <- app_assoc.
      split; [done|].
      assert (Hcons : calls_from f i (tx :: txs)
                = (tx, chainId f, PInt (Z.of_nat i))
                  :: calls_from f (Datatypes.S i) txs).
      { unfold calls_from. simpl. rewrite Nat.add_0_r. f_equal.
        apply imap_ext. intros j y _. simpl. do 3 f_equal. lia. }
      rewrite Hcons, omap_app, Hcalls1. split.
      { by apply (prefix_app [_]). }
      intros acc Hacc. destruct (Hret2 _ Hacc) as [Hcalls2 ->].
      split; [by rewrite Hcalls2|].
      rewrite omap_app, app_assoc. f_equal. simpl. lia.
    + intros [= <- <-]. exists evs1. split; [done|]. split; [|done].
      etrans; [exact Hpre1|]. unfold calls_from. simpl.
      rewrite Nat.add_0_r. by apply (prefix_app_r [_] [_]).
Qed.

(** One turn of the outer loop: the calls owed to the file, in order;
    when it finishes, the report of the file holds the returned reports
    in the order of the calls, and there is no report when there is no
    output. *)
Lemma handle_file_run reps f s r s' :
  handle_file w (recording handler_func) reps f s = (r, s') →
  ∃ evs, fs_log s' = fs_log s ++ evs ∧
    omap call_of evs `prefix_of` calls_of_file f ∧
    ∀ reps', r = Ret reps' →
      omap call_of evs = calls_of_file f ∧
      ((omap report_of evs = [] ∧ reps' = reps) ∨
       (omap report_of evs ≠ [] ∧
        ∃ text, reps' = dict_set (file_name f)
                  (mk_report_info text (inl f) (omap report_of evs)) reps)).
Proof.
  unfold handle_file. rewrite run_bind.
  destruct (for_each (handle_transaction w (recording handler_func) f)
              (transactions f) ([], 0) s) as [[acc|e] s1] eqn:Hloop;
    apply handle_transactions_run in Hloop as (evs & Hlog & Hpre & Hret).
  2: { intros [= <- <-]. exists evs. split; [done|]. split; [done|done]. }
  destruct (Hret _ eq_refl) as [Hcalls ->]. simpl.
  change (calls_from f 0 (transactions f)) with (calls_of_file f) in *.
  destruct (omap report_of evs) as [|o outs] eqn:Houts.
  - intros [= <- <-]. exists evs. split; [done|]. split; [done|].
    intros reps' [= <-]. split; [done|]. by left.
  - intros Hrest. exists evs.
    assert (fs_log s' = fs_log s1) as ->.
    { eapply quiet_run; [|exact Hrest]. quiet. }
    split; [done|]. split; [done|]. rewrite Houts.
    intros reps' ->. split; [done|]. right. split; [done|].
    apply bind_Ret_inv in Hrest as (multisig & s2 & _ & Hrest).
    apply bind_Ret_inv in Hrest as (id & s3 & _ & Hrest).
    apply bind_Ret_inv in Hrest as (text & s4 & _ & Hrest).
    apply ret_Ret_inv in Hrest as [-> _]. by exists text.
Qed.

(** The outer loop, from any reports already made: an entry of the
    result was there before or was filed for one of the files, with the
    reports returned for it; a name under which nothing is filed keeps
    what it had; and a file for which something was returned has its
    entry, unless a later file of the same name took its place. *)
Lemma handle_files_run files : ∀ reps0 s r s',
  for_each (handle_file w (recording handler_func)) files reps0 s = (r, s') →
  ∃ segs : list (list event),
    fs_log s' = fs_log s ++ concat segs ∧
    omap call_of (concat segs) `prefix_of` flat_map calls_of_file files ∧
    ∀ reps, r = Ret reps →
      Forall2 (λ f seg, omap call_of seg = calls_of_file f) files segs ∧
      (∀ name info, dict_lookup name reps = Some info →
        dict_lookup name reps0 = Some info ∨
        ∃ f seg, (f, seg) ∈ zip files segs ∧ file_name f = name ∧
          report_file info = inl f ∧ outputs info = omap report_of seg ∧
          outputs info ≠ []) ∧
      (∀ name,
        (∀ j f seg, files !! j = Some f → segs !! j = Some seg →
                    file_name f = name → omap report_of seg = []) →
        dict_lookup name reps = dict_lookup name reps0) ∧
      (∀ i f seg, files !! i = Some f → segs !! i = Some seg →
        omap report_of seg ≠ [] →
        (∀ j f' seg', i < j → files !! j = Some f' → segs !! j = Some seg' →
                      file_name f' = file_name f → omap report_of seg' = []) →
        ∃ info, dict_lookup (file_name f) reps = Some info ∧
          report_file info = inl f ∧ outputs info = omap report_of seg).
Proof.
  induction files as [|f files IH]; intros reps0 s r s'.
  - intros [= <- <-]. exists []. simpl. rewrite app_nil_r.
    split; [done|]. split; [done|]. intros reps [= <-].
    split; [constructor|]. split; [|split].
    + intros name info H. by left.
    + done.
    + intros i f seg Hf. by rewrite lookup_nil in Hf.
  - rewrite for_each_cons.
    destruct (handle_file w (recording handler_func) reps0 f s)
      as [[reps1|e] s1] eqn:Hturn;
      apply handle_file_run in Hturn as (evs & Hlog & Hpre & Hret).
    + destruct (Hret _ eq_refl) as [Hcalls Hreps1].
      intros Hrest. apply IH in Hrest as (segs & Hlog2 & Hpre2 & Hret2).
      exists (evs :: segs). simpl.
      rewrite Hlog2, Hlog, <- app_assoc. split; [done|].
      rewrite omap_app, Hcalls. split; [by apply prefix_app|].
      intros reps Hr. destruct (Hret2 _ Hr) as (Hall & Hlook & Hkeep & Hfiled).
      split; [by constructor|].
      assert (Hother : ∀ name, (file_name f = name → omap report_of evs = [])
                → dict_lookup name reps1 = dict_lookup name reps0).
      { intros name Hname.
        destruct Hreps1 as [[_ ->]|[Hne (text & ->)]]; [done|].
        rewrite dict_lookup_set.
        destruct (String.eqb name (file_name f)) eqn:E; [|done].
        apply String.eqb_eq in E. by destruct Hne, Hname. }
      split; [|split].
      * intros name info Hinfo.
        destruct (Hlook _ _ Hinfo)
          as [Hin1|(f' & seg & Hz & ? & ? & ? & ?)].
        2: { right. exists f', seg. split; [by right|done]. }
        destruct Hreps1 as [[_ ->]|[Hne (text & ->)]]; [by left|].
        rewrite dict_lookup_set in Hin1.
        destruct (String.eqb name (file_name f)) eqn:E; [|by left].
        apply String.eqb_eq in E. injection Hin1 as <-.
        right. exists f, evs. split; [by left|done].
      * intros name Hnone. rewrite Hkeep.
        -- apply Hother. intros Hname. by apply (Hnone 0 f evs).
        -- intros j f' seg' Hf' Hseg'. by apply (Hnone (Datatypes.S j)).
      * intros [|i] f' seg' Hf' Hseg' Hne Hlater; simpl in Hf', Hseg'.
        -- injection Hf' as <-. injection Hseg' as <-.
           rewrite Hkeep.
           2: { intros j f' seg' Hf' Hseg'.
                apply (Hlater (Datatypes.S j)); [lia|done|done]. }
           destruct Hreps1 as [[Hnil _]|[_ (text & ->)]]; [done|].
           rewrite dict_lookup_set, String.eqb_refl. by eexists.
        -- apply (Hfiled i); [done..|].
           intros j f'' seg'' Hj. apply (Hlater (Datatypes.S j)). lia.
    + intros [= <- <-]. exists [evs]. simpl. rewrite app_nil_r.
      split; [done|]. split; [|done].
      by apply prefix_app_r.
Qed.

End handler_facts.

(** ** report_gauges.py: [main] *)

Section dict_membership.
Context {A : Type}.
Implicit Types (d : list (string * A)).

Lemma dict_set_keys_elem k (v : A) d name :
  name ∈ (dict_set k v d).*1 ↔ name = k ∨ name ∈ d.*1.
Proof.
  destruct (dict_lookup k d) as [v0|] eqn:Hk.
  - rewrite dict_set_keys by (by rewrite Hk). split; [by right|].
    intros [->|?]; [|done].
    apply dict_lookup_Some_elem in Hk.
    apply list_elem_of_fmap. by exists (k, v0).
  - rewrite dict_set_keys_new by done.
    rewrite elem_of_app, list_elem_of_singleton. tauto.
Qed.

Lemma dict_keys_lookup name d :
  name ∈ d.*1 ↔ is_Some (dict_lookup name d).
Proof.
  rewrite <- not_eq_None_Some, dict_lookup_None_keys.
  destruct (decide (name ∈ d.*1)); tauto.
Qed.
End dict_membership.

(** The merged map has one entry per file name found in the reports. *)
Lemma merge_report_keys merged entry name :
  name ∈ (merge_report merged entry).*1 ↔ name = entry.1 ∨ name ∈ merged.*1.
Proof. destruct entry as [filename info]. apply dict_set_keys_elem. Qed.

Lemma merge_report_NoDup merged entry :
  NoDup merged.*1 → NoDup (merge_report merged entry).*1.
Proof. destruct entry as [filename info]. apply dict_set_NoDup. Qed.

Lemma merge_one_report report : ∀ merged,
  (NoDup merged.*1 → NoDup (foldl merge_report merged report).*1) ∧
  ∀ name, name ∈ (foldl merge_report merged report).*1
          ↔ name ∈ report.*1 ∨ name ∈ merged.*1.
Proof.
  induction report as [|entry report IH]; intros merged; simpl.
  - split; [done|]. intros name. rewrite elem_of_nil. tauto.
  - destruct (IH (merge_report merged entry)) as [Hnd Hin]. split.
    + intros H. by apply Hnd, merge_report_NoDup.
    + intros name. rewrite Hin, merge_report_keys, elem_of_cons. tauto.
Qed.

Lemma merge_reports all_reports : ∀ merged,
  (NoDup merged.*1 →
   NoDup (foldl (λ m report, foldl merge_report m report) merged
            all_reports).*1) ∧
  ∀ name,
    name ∈ (foldl (λ m report, foldl merge_report m report) merged
              all_reports).*1
    ↔ (∃ report, report ∈ all_reports ∧ name ∈ report.*1) ∨ name ∈ merged.*1.
Proof.
  induction all_reports as [|report all_reports IH]; intros merged; simpl.
  - split; [done|]. intros name. split; [by right|].
    intros [(? & []%elem_of_nil & _)|?]; done.
  - destruct (IH (foldl merge_report merged report)) as [Hnd Hin].
    destruct (merge_one_report report merged) as [Hnd1 Hin1]. split.
    + intros H. by apply Hnd, Hnd1.
    + intros name. rewrite Hin, Hin1. split.
      * intros [(r & Hr & Hn)|[Hn|Hn]].
        -- left. exists r. split; [by right|done].
        -- left. exists report. split; [by left|done].
        -- by right.
      * intros [(r & Hr & Hn)|Hn]; [|by right; right].
        apply elem_of_cons in Hr as [->|Hr]; [by right; left|].
        left. by exists r.
Qed.

Lemma merge_files_model_keys all_reports :
  NoDup (merge_files_model all_reports).*1 ∧
  ∀ name, name ∈ (merge_files_model all_reports).*1
          ↔ ∃ report, report ∈ all_reports ∧ name ∈ report.*1.
Proof.
  unfold merge_files_model.
  destruct (merge_reports all_reports []) as [Hnd Hin]. split.
  - apply Hnd. constructor.
  - intros name. rewrite Hin. split; [|by left].
    by intros [?|[]%elem_of_nil].
Qed.

Section main_facts.
Context {S C AB BP : Type} (w : World S C AB BP).
Implicit Types (s : st S) (files : list file).

(** The reports of a handler are filed under names of the files. *)
Lemma handle_file_keys handler_func reps f s reps' s' :
  handle_file w handler_func reps f s = (Ret reps', s') →
  ∀ name, name ∈ reps'.*1 → name = file_name f ∨ name ∈ reps.*1.
Proof.
  unfold handle_file. intros H.
  apply bind_Ret_inv in H as ([outs i] & s1 & _ & H).
  destruct outs as [|o outs].
  - apply ret_Ret_inv in H as [-> _]. by right.
  - apply bind_Ret_inv in H as (multisig & s2 & _ & H).
    apply bind_Ret_inv in H as (id & s3 & _ & H).
    apply bind_Ret_inv in H as (text & s4 & _ & H).
    apply ret_Ret_inv in H as [-> _].
    intros name. by rewrite dict_set_keys_elem.
Qed.

Lemma handler_keys handler_func files s reps s' :
  handler w files handler_func s = (Ret reps, s') →
  ∀ name, name ∈ reps.*1 → ∃ f, f ∈ files ∧ file_name f = name.
Proof.
  unfold handler.
  apply (for_each_invariant (handle_file w handler_func)
           (λ reps _, ∀ name, name ∈ reps.*1 →
                        ∃ f, f ∈ files ∧ file_name f = name)).
  - intros f acc s0 acc' s0' Hf Hacc Hturn name Hname.
    destruct (handle_file_keys _ _ _ _ _ _ Hturn name Hname) as [->|Hin];
      [by exists f|by apply Hacc].
  - by intros name []%elem_of_nil.
Qed.

(** So are the reports of the catch-all reporter. *)
Lemma parse_no_reports_report_keys all_reports files s no_reports s' :
  parse_no_reports_report w all_reports files s = (Ret no_reports, s') →
  ∀ name, name ∈ no_reports.*1 → ∃ f, f ∈ files ∧ file_name f = name.
Proof.
  unfold parse_no_reports_report. intros Hrun.
  destruct (covered_indexs_by_file all_reports files) as [covered|e]
    eqn:Hcov; [|done].
  change (bind (pure (Ret covered)) ?k s) with (k covered s) in Hrun.
  revert Hrun.
  apply (for_each_invariant (report_uncovered w files)
           (λ reps _, ∀ name, name ∈ reps.*1 →
                        ∃ f, f ∈ files ∧ file_name f = name)).
  - intros [n0 c0] acc s0 acc' s0' Hin Hacc Hturn name Hname.
    apply report_uncovered_Ret in Hturn
      as [[_ ->]|[_ (info & -> & _)]]; [by apply Hacc|].
    apply dict_set_keys_elem in Hname as [->|Hname]; [|by apply Hacc].
    assert (is_Some (dict_lookup n0 covered)) as [c Hc].
    { apply dict_keys_lookup, list_elem_of_fmap. by exists (n0, c0). }
    rewrite (covered_indexs_by_file_lookup _ _ _ _ Hcov) in Hc.
    destruct (last_file n0 files) as [f|] eqn:Hlast; [|done].
    apply last_file_name in Hlast as [? ?]. by exists f.
  - by intros name []%elem_of_nil.
Qed.

Lemma last_file_of_member files f :
  f ∈ files →
  ∃ f', last_file (file_name f) files = Some f'.
Proof.
  intros Hf. destruct (last_file (file_name f) files) as [f'|] eqn:Hlast;
    [by exists f'|].
  exfalso. by eapply last_file_None.
Qed.

(** Every file of a finished run is reported by a handler or by the
    catch-all reporter. *)
Lemma every_file_reported all_reports files s no_reports s' f :
  parse_no_reports_report w all_reports files s = (Ret no_reports, s') →
  f ∈ files →
  file_name f ∈ no_reports.*1 ∨
  ∃ report, report ∈ all_reports ∧ file_name f ∈ report.*1.
Proof.
  intros Hrun Hf.
  destruct (last_file_of_member _ _ Hf) as [f' Hlast].
  destruct (last_file_name _ _ _ Hlast) as [Hname _].
  rewrite <- Hname in Hlast.
  pose proof (parse_no_reports_report_file w all_reports files f' s
                no_reports s' Hlast Hrun) as H. simpl in H. rewrite Hname in *.
  destruct (decide (uncovered_indexs (length (transactions f'))
                      (claimed all_reports (file_name f)) = ∅)) as [He|Hne].
  - right.
    destruct (decide (claimed all_reports (file_name f) = ∅)) as [Hc|Hc].
    + exfalso. rewrite Hc in He.
      pose proof (uncovered_indexs_nothing_covered (length (transactions f')))
        as H0. rewrite He in H0. by apply not_elem_of_empty in H0.
    + apply set_choose_L in Hc as [k Hk].
      apply elem_of_claimed in Hk as (report & info & _ & Hr & He' & _).
      exists report. split; [done|].
      apply list_elem_of_fmap. by exists (file_name f, info).
  - left. destruct H as (info & Hinfo & _).
    apply dict_keys_lookup. by rewrite Hinfo.
Qed.

(** What opening and writing a file leaves in the log. *)
Lemma write_file_run path chunks s r s' :
  write_file w path chunks s = (r, s') →
  match r with
  | Ret _ => fs_log s' = fs_log s ++ Opened path :: (Written path <$> chunks)
  | Raise _ => fs_log s' = fs_log s
  end.
Proof.
  unfold write_file. rewrite run_bind.
  destruct (call_ext (open_w w path) s) as [[[]|e] s1] eqn:Hopen.
  2: { intros [= <- <-]. eapply quiet_run; [apply quiet_call_ext|done]. }
  assert (fs_log s1 = fs_log s) as Hlog1
    by (eapply quiet_run; [apply quiet_call_ext|done]).
  rewrite run_bind. unfold log_event at 1.
  assert (∀ s2 r', for_each (λ _ chunk, log_event (Written path chunk))
                     chunks () s2 = (r', s') →
            r' = Ret tt ∧ fs_log s' = fs_log s2 ++ (Written path <$> chunks))
    as Hloop.
  { clear. induction chunks as [|c chunks IH]; intros s2 r'.
    - intros [= <- <-]. by rewrite app_nil_r.
    - rewrite for_each_cons. unfold log_event at 1.
      intros H. apply IH in H as [-> ->]. simpl.
      by rewrite <- app_assoc. }
  intros H. apply Hloop in H as [-> ->]. simpl.
  by rewrite Hlog1, <- app_assoc.
Qed.

Lemma write_reports_run merged : ∀ s r s',
  for_each (λ _ '(filename, report),
              write_file w (report_path filename) [report]) merged tt s
    = (r, s') →
  r = Ret tt → fs_log s' = fs_log s ++ report_events merged.
Proof.
  induction merged as [|[filename report] merged IH]; intros s r s'.
  - intros [= <- <-] _. by rewrite app_nil_r.
  - rewrite for_each_cons.
    destruct (write_file w (report_path filename) [report] s)
      as [[[]|e] s1] eqn:Hw.
    + apply write_file_run in Hw. intros H Hr.
      rewrite (IH _ _ _ H Hr), Hw. simpl. by rewrite <- app_assoc.
    + by intros [= <- <-] ?.
Qed.

(** The run of [main] to its end, with [merge_files] joining the report
    texts per file name. *)
Lemma main_run_merged s s' :
  (∀ all_reports x, ∃ x',
     merge_files w all_reports x = (Ret (merge_files_model all_reports), x')) →
  main w s = (Ret tt, s') →
  ∃ files x1 merged,
    get_changed_files w (ext s) = (Ret files, x1) ∧
    fs_log s' = fs_log s ++ payload_events merged ++ report_events merged ∧
    NoDup merged.*1 ∧
    (∀ name, name ∈ merged.*1 ↔ ∃ f, f ∈ files ∧ file_name f = name) ∧
    (merged = [] ↔ files = []).
Proof.
  intros Hmerge Hmain. unfold main in Hmain.
  apply bind_Ret_inv in Hmain as (files & s0 & Hfiles & Hmain).
  pose proof (quiet_run _ _ _ _ (quiet_call_ext _) Hfiles) as Hl0.
  apply call_ext_inv in Hfiles as (x1 & Hfiles & _).
  apply bind_Ret_inv in Hmain as (r1 & s1 & H1 & Hmain).
  apply bind_Ret_inv in Hmain as (r2 & s2 & H2 & Hmain).
  apply bind_Ret_inv in Hmain as (r3 & s3 & H3 & Hmain).
  apply bind_Ret_inv in Hmain as (r4 & s4 & H4 & Hmain).
  apply bind_Ret_inv in Hmain as (r5 & s5 & H5 & Hmain).
  apply bind_Ret_inv in Hmain as (r6 & s6 & H6 & Hmain).
  cbv zeta in Hmain.
  apply bind_Ret_inv in Hmain as (no_reports & s7 & Hcatch & Hmain).
  apply bind_Ret_inv in Hmain as (merged & s8 & Hmerged & Hmain).
  apply bind_Ret_inv in Hmain as ([] & s9 & Hpayload & Hreports).
  pose proof (quiet_run _ _ _ _
    (handler_quiet w files _ (added_quiet w)) H1) as Hl1.
  pose proof (quiet_run _ _ _ _
    (handler_quiet w files _ (removed_quiet w)) H2) as Hl2.
  pose proof (quiet_run _ _ _ _
    (handler_quiet w files _ (transfer_quiet w)) H3) as Hl3.
  pose proof (quiet_run _ _ _ _
    (handler_quiet w files _ (permissions_quiet w)) H4) as Hl4.
  pose proof (quiet_run _ _ _ _
    (handler_quiet w files _ (hh_brib_quiet w)) H5) as Hl5.
  pose proof (quiet_run _ _ _ _
    (handler_quiet w files _ (set_recipient_list_quiet w)) H6) as Hl6.
  pose proof (quiet_run _ _ _ _
    (parse_no_reports_report_quiet w _ files) Hcatch) as Hl7.
  pose proof (quiet_run _ _ _ _ (quiet_call_ext _) Hmerged) as Hl8.
  apply call_ext_inv in Hmerged as (x8 & Hmerged & _).
  set (all := [r1; r2; r3; r4; r5; r6; no_reports]).
  change ([r1; r2; r3; r4; r5; r6] ++ [no_reports]) with all in *.
  destruct (Hmerge all (ext s7)) as [x8' Hmodel].
  rewrite Hmodel in Hmerged. injection Hmerged as <- _.
  destruct (merge_files_model_keys all) as [Hnd Hkeys].
  assert (Hnames : ∀ name, name ∈ (merge_files_model all).*1
            ↔ ∃ f, f ∈ files ∧ file_name f = name).
  { intros name. rewrite Hkeys. split.
    - intros (report & Hr & Hname). unfold all in Hr.
      repeat (apply elem_of_cons in Hr as [->|Hr]);
        [match goal with
         | H : handler _ _ _ _ = (Ret ?r, _), Hn : name ∈ ?r.*1 |- _ =>
             exact (handler_keys _ _ _ _ _ H name Hn)
         end ..| |by apply elem_of_nil in Hr].
      exact (parse_no_reports_report_keys _ _ _ _ _ Hcatch name Hname).
    - intros (f & Hf & <-).
      destruct (every_file_reported _ _ _ _ _ f Hcatch Hf)
        as [Hin|(report & Hr & Hin)].
      + exists no_reports. split; [|done]. unfold all.
        do 6 right. by left.
      + exists report. split; [|done]. unfold all.
        repeat (apply elem_of_cons in Hr as [->|Hr]);
          [by left|by do 1 right; left|by do 2 right; left
          |by do 3 right; left|by do 4 right; left|by do 5 right; left
          |by apply elem_of_nil in Hr]. }
  exists files, x1, (merge_files_model all).
  split; [done|]. split; [|split; [done|split; [done|]]].
  - apply write_reports_run in Hreports; [|done]. rewrite Hreports.
    rewrite app_assoc. f_equal.
    assert (fs_log s8 = fs_log s) as Hl
      by (by rewrite Hl8, Hl7, Hl6, Hl5, Hl4, Hl3, Hl2, Hl1, Hl0).
    destruct (merge_files_model all) as [|entry merged] eqn:Hm.
    + apply ret_Ret_inv in Hpayload as [_ ->]. simpl.
      by rewrite app_nil_r.
    + apply write_file_run in Hpayload. by rewrite Hpayload, Hl.
  - split.
    + intros Hm. destruct files as [|f files]; [done|]. exfalso.
      assert (file_name f ∈ (merge_files_model all).*1) as Hin
        by (apply Hnames; exists f; split; [by left|done]).
      rewrite Hm in Hin. by apply elem_of_nil in Hin.
    + intros ->. destruct (merge_files_model all) as [|[name text] merged];
        [done|]. exfalso.
      assert (name ∈ ((name, text) :: merged).*1) as Hin by (by left).
      apply Hnames in Hin as (f & []%elem_of_nil & _).
Qed.

(** After [main] has completed, with [merge_files] joining the report
    texts per file name, one text report has been written per input file
    name, at the file name with every ".json" replaced by ".report.txt"
    (two directories up); when there is at least one input file, the
    combined [payload_reports.txt] holding every per-file report has been
    written before them, and a run without input files has written
    nothing. *)
Theorem main_writes_reports s s' :
  (∀ all_reports x, ∃ x',
     merge_files w all_reports x = (Ret (merge_files_model all_reports), x')) →
  main w s = (Ret tt, s') →
  ∃ files x1 merged,
    get_changed_files w (ext s) = (Ret files, x1) ∧
    fs_log s' = fs_log s ++ payload_events merged ++ report_events merged ∧
    NoDup merged.*1 ∧
    (∀ name, name ∈ merged.*1 ↔ ∃ f, f ∈ files ∧ file_name f = name) ∧
    (merged = [] ↔ files = []).
Proof. apply main_run_merged. Qed.
End main_facts.

(** ** What the classifiers report *)

(** Takes a finished run apart, step by step, keeping what each step
    returned and each branch taken. *)
Ltac invert_step H :=
  lazymatch type of H with
  | bind _ _ _ = (Ret _, _) =>
      let a := fresh "a" in
      let s1 := fresh "s" in
      let Ha := fresh "Hstep" in
      apply bind_Ret_inv in H as (a & s1 & Ha & H)
  | ret _ _ = (Ret _, _) =>
      let E := fresh "Hret" in
      apply ret_Ret_inv in H as [E _]
  | raise _ _ = (Ret _, _) => discriminate H
  | pure _ _ = (Ret _, _) =>
      let E := fresh "Hpure" in
      apply pure_Ret_inv in H as [E _]
  | (if ?b then _ else _) _ = (Ret _, _) =>
      let E := fresh "Hif" in destruct b eqn:E
  | (match ?x with _ => _ end) _ = (Ret _, _) =>
      let E := fresh "Hcase" in destruct x eqn:E
  | (let '(_, _) := ?x in _) _ = (Ret _, _) => destruct x
  end.

Ltac invert_pures :=
  repeat match goal with
  | H : pure _ _ = (Ret _, _) |- _ => apply pure_Ret_inv in H as [H _]
  end.

Ltac invert_run H := repeat invert_step H; invert_pures.

Section row_facts.
Context {S C AB BP : Type} (w : World S C AB BP).
Implicit Types (tx : transaction) (kw : kwargs) (s : st S) (r : row).

Lemma set_recipient_list_keeps_index :
  keeps_index (_parse_set_recipient_list w).
Proof.
  intros tx kw s r s' H. unfold _parse_set_recipient_list in H.
  invert_run H; by simplify_eq.
Qed.

Lemma hh_brib_keeps_index : keeps_index (_parse_hh_brib w).
Proof.
  intros tx kw s r s' H. unfold _parse_hh_brib in H.
  invert_run H; by simplify_eq.
Qed.

Lemma added_keeps_index : keeps_index (_parse_added_transaction w).
Proof.
  intros tx kw s r s' H. unfold _parse_added_transaction in H.
  invert_run H; by simplify_eq.
Qed.

Lemma removed_keeps_index : keeps_index (_parse_removed_transaction w).
Proof.
  intros tx kw s r s' H. unfold _parse_removed_transaction in H.
  invert_run H; by simplify_eq.
Qed.

Lemma permissions_keeps_index : keeps_index (_parse_permissions w).
Proof.
  intros tx kw s r s' H. unfold _parse_permissions in H.
  invert_run H; by simplify_eq.
Qed.

Lemma transfer_keeps_index : keeps_index (_parse_transfer w).
Proof.
  intros tx kw s r s' H. unfold _parse_transfer in H.
  invert_run H; by simplify_eq.
Qed.
End row_facts.

Section sound_facts.
Context {S C AB BP : Type} (w : World S C AB BP).
Implicit Types (tx : transaction) (kw : kwargs) (s : st S) (r : row).

Lemma eq_str_true v lit : eq_str v lit = true → v = PStr lit.
Proof.
  destruct v as [| | |x| |]; simpl; try done.
  by intros ->%String.eqb_eq.
Qed.

Lemma method_name_of_item tx name :
  py_item (method_of tx) "name" = Ret name → method_name tx = Some name.
Proof.
  unfold method_of, method_name, dict_get, py_item, dict_item.
  destruct (dict_lookup "contractMethod" tx) as [[| | | | |m]|]; try done.
  by destruct (dict_lookup "name" m); intros [= ->].
Qed.

Lemma method_name_of_get tx name :
  py_get (method_of tx) "name" PNone = Ret name → name ≠ PNone →
  method_name tx = Some name.
Proof.
  unfold method_of, method_name, dict_get, py_get.
  destruct (dict_lookup "contractMethod" tx) as [[| | | | |m]|]; try done.
  unfold dict_get. destruct (dict_lookup "name" m); intros [= ->]; done.
Qed.

Lemma transfer_sound tx kw s r s' :
  _parse_transfer w tx kw s = (Ret (Some r), s') →
  lacks_inputs_or_method tx = false ∧
  method_name tx = Some (PStr "transfer") ∧
  is_Some (dict_lookup "to" tx) ∧
  dict_lookup "function" r = Some (PStr "transfer").
Proof.
  intros H. unfold _parse_transfer in H.
  invert_run H; simplify_eq.
  repeat match goal with
  | H : negb _ = false |- _ => apply negb_false_iff in H
  | H : eq_str _ _ = true |- _ => apply eq_str_true in H
  end. subst.
  split; [done|]. split; [by apply method_name_of_item|]. split; [|done].
  match goal with
  | H : dict_item tx "to" = Ret _ |- _ =>
      unfold dict_item in H; by destruct (dict_lookup "to" tx)
  end.
Qed.

Lemma hh_brib_sound tx kw s r s' :
  _parse_hh_brib w tx kw s = (Ret (Some r), s') →
  lacks_inputs_or_method tx = false ∧
  method_name tx = Some (PStr "depositBribe") ∧
  (∃ to x address x',
     dict_lookup "to" tx = Some to ∧
     to_checksum_address w to x = (Ret address, x') ∧
     (address = aura_briber w ∨ address = balancer_briber w)) ∧
  dict_lookup "function" r = Some (PStr "depositBribe").
Proof.
  intros H. unfold _parse_hh_brib in H.
  destruct (lacks_inputs_or_method tx) eqn:Hl;
    [by apply ret_Ret_inv in H as [? _]|].
  apply bind_Ret_inv in H as (name & s1 & [Hname _]%pure_Ret_inv & H).
  destruct (negb (eq_str name "depositBribe")) eqn:Hn;
    [by apply ret_Ret_inv in H as [? _]|].
  apply negb_false_iff, eq_str_true in Hn. subst name.
  apply bind_Ret_inv in H as (prop_map & s2 & _ & H).
  apply bind_Ret_inv in H as (to & s3 & [Hto _]%pure_Ret_inv & H).
  apply bind_Ret_inv in H as (address & s4 & Hsum & H).
  apply call_ext_inv in Hsum as (x' & Hsum & _).
  split; [done|]. split; [by apply method_name_of_get|].
  assert (Hmarket : address = aura_briber w ∨ address = balancer_briber w).
  { destruct (String.eqb address (aura_briber w)) eqn:Ea;
      [left; by apply String.eqb_eq|].
    destruct (String.eqb address (balancer_briber w)) eqn:Eb;
      [right; by apply String.eqb_eq|].
    by apply ret_Ret_inv in H as [? _]. }
  split.
  { exists to, (ext s3), address, x'. split; [|done].
    unfold dict_item in Hto. by destruct (dict_lookup "to" tx); simplify_eq. }
  invert_run H; by simplify_eq.
Qed.

Lemma set_recipient_list_sound tx kw s r s' :
  _parse_set_recipient_list w tx kw s = (Ret (Some r), s') →
  lacks_inputs_or_method tx = false ∧
  method_name tx = Some (PStr "setRecipientList") ∧
  is_Some (dict_lookup "to" tx) ∧
  dict_lookup "function" r = Some (PStr "setRecipientList").
Proof.
  intros H. unfold _parse_set_recipient_list in H.
  invert_run H; simplify_eq.
  repeat match goal with
  | H : negb _ = false |- _ => apply negb_false_iff in H
  | H : eq_str _ _ = true |- _ => apply eq_str_true in H
  end. subst.
  split; [done|]. split; [by apply method_name_of_get|]. split; [|done].
  match goal with
  | H : dict_item tx "to" = Ret _ |- _ =>
      unfold dict_item in H; by destruct (dict_lookup "to" tx)
  end.
Qed.

Lemma permissions_sound tx kw s r s' :
  _parse_permissions w tx kw s = (Ret (Some r), s') →
  lacks_inputs_or_method tx = false ∧
  (∃ name, method_name tx = Some name ∧ py_in "Role" name = Ret true) ∧
  is_Some (dict_lookup "to" tx).
Proof.
  intros H. unfold _parse_permissions in H.
  destruct (lacks_inputs_or_method tx) eqn:Hl;
    [by apply ret_Ret_inv in H as [? _]|].
  apply bind_Ret_inv in H as (name & s1 & [Hname _]%pure_Ret_inv & H).
  apply bind_Ret_inv in H as (has & s2 & [Hin _]%pure_Ret_inv & H).
  destruct has; [|by apply ret_Ret_inv in H as [? _]].
  split; [done|]. split.
  { exists name. split; [|done]. apply method_name_of_get; [done|].
    by intros ->. }
  invert_run H; simplify_eq.
  match goal with
  | H : dict_item tx "to" = Ret _ |- _ =>
      unfold dict_item in H; by destruct (dict_lookup "to" tx)
  end.
Qed.

Lemma added_sound tx kw s r s' :
  _parse_added_transaction w tx kw s = (Ret (Some r), s') →
  lacks_inputs_or_method tx = false ∧
  is_Some (method_name tx) ∧
  (∃ adder, gauge_adder_address w = Ret adder ∧
            dict_lookup "to" tx = Some (PStr adder)) ∧
  (∃ d, civ_of tx = PDict d ∧
        truthy (dict_get d "gaugeType" PNone) = true ∧
        (truthy (dict_get d "gauge" PNone) = true ∨
         truthy (dict_get d "rootGauge" PNone) = true)).
Proof.
  intros H. unfold _parse_added_transaction in H.
  destruct (lacks_inputs_or_method tx) eqn:Hl;
    [by apply ret_Ret_inv in H as [? _]|].
  apply bind_Ret_inv in H as (is_add & s1 & _ & H).
  destruct (negb is_add); [by apply ret_Ret_inv in H as [? _]|].
  apply bind_Ret_inv in H as (command & s2 & [Hcmd _]%pure_Ret_inv & H).
  apply bind_Ret_inv in H as (gauge_type & s3 & [Htype _]%pure_Ret_inv & H).
  destruct (negb (truthy gauge_type)) eqn:Htruthy;
    [by apply ret_Ret_inv in H as [? _]|].
  apply negb_false_iff in Htruthy.
  apply bind_Ret_inv in H as (to & s4 & [Hto _]%pure_Ret_inv & H).
  apply bind_Ret_inv in H as (adder & s5 & [Hadder _]%pure_Ret_inv & H).
  destruct (negb (eq_str to adder)) eqn:Hadd;
    [by apply ret_Ret_inv in H as [? _]|].
  apply negb_false_iff, eq_str_true in Hadd. subst to.
  apply bind_Ret_inv in H as ([] & s6 & _ & H).
  apply bind_Ret_inv in H as (chain & s7 & _ & H).
  apply bind_Ret_inv in H as (gauge_address & s8 & [Hga _]%pure_Ret_inv & H).
  destruct (negb (truthy gauge_address)) eqn:Hgt;
    [by apply ret_Ret_inv in H as [? _]|].
  apply negb_false_iff in Hgt. clear H.
  split; [done|]. split.
  { apply method_name_of_item in Hcmd. by rewrite Hcmd. }
  split.
  { exists adder. split; [done|]. unfold dict_item in Hto.
    by destruct (dict_lookup "to" tx); simplify_eq. }
  destruct (civ_of tx) as [| | | | |d]; try done.
  exists d. split; [done|]. injection Htype as <-. split; [done|].
  simpl in Hga.
  destruct (truthy (dict_get d "gauge" PNone)) eqn:Hg; [by left|].
  simpl in Hga.
  destruct (truthy (dict_get d "rootGauge" PNone)) eqn:Hr; [by right|].
  simpl in Hga. injection Hga as <-. by rewrite Hr in Hgt.
Qed.

Lemma removed_sound tx kw s r s' :
  _parse_removed_transaction w tx kw s = (Ret (Some r), s') →
  lacks_inputs_or_method tx = false ∧
  ∃ d target,
    civ_of tx = PDict d ∧
    truthy (dict_get d "data" PNone) = true ∧
    dict_lookup "target" d = Some target ∧
    (∃ s1 s2, decode_target_call w tx s1 = (Ret (CMD_GAUGE_KILL, []), s2)) ∧
    dict_lookup "gauge_address" r = Some target.
Proof.
  intros H. unfold _parse_removed_transaction in H.
  destruct (lacks_inputs_or_method tx) eqn:Hl;
    [by apply ret_Ret_inv in H as [? _]|].
  destruct (civ_of tx) as [| | | | |d] eqn:Hciv;
    try by apply ret_Ret_inv in H as [? _].
  destruct (negb (truthy (dict_get d "data" PNone))) eqn:Hd;
    [by apply ret_Ret_inv in H as [? _]|].
  apply negb_false_iff in Hd.
  apply bind_Ret_inv in H as ([] & s1 & _ & H).
  apply bind_Ret_inv in H as (decoded & s2 & Hdec & H).
  destruct decoded as [e|[command inputs]];
    [by apply ret_Ret_inv in H as [? _]|].
  destruct (negb (bool_decide (length inputs = 0)
                  && String.eqb command CMD_GAUGE_KILL)) eqn:Hkill;
    [by apply ret_Ret_inv in H as [? _]|].
  apply negb_false_iff, andb_true_iff in Hkill as [Hlen Hcmd].
  apply bool_decide_eq_true, nil_length_inv in Hlen.
  apply String.eqb_eq in Hcmd. subst inputs command.
  apply bind_Ret_inv in H as (target & s3 & [Htarget _]%pure_Ret_inv & H).
  split; [done|]. exists d, target. split; [done|]. split; [done|].
  simpl in Htarget. unfold dict_item in Htarget.
  destruct (dict_lookup "target" d) as [t|] eqn:Ht; [|done].
  injection Htarget as ->. split; [done|]. split.
  { unfold try in Hdec.
    destruct (decode_target_call w tx s1) as [[v|e] s1'] eqn:Hcall;
      [|done].
    injection Hdec as -> ->. by exists s1, s2. }
  invert_run H; by simplify_eq.
Qed.
End sound_facts.

Section classifier_theorems.
Context {S C AB BP : Type} (w : World S C AB BP).
Implicit Types (tx : transaction) (kw : kwargs) (s : st S) (r : row).

(** Every row returned by one of the six classifiers carries, under
    [tx_index], the index the classifier was called with. *)
Theorem classifier_rows_keep_tx_index :
  keeps_index (_parse_added_transaction w) ∧
  keeps_index (_parse_removed_transaction w) ∧
  keeps_index (_parse_transfer w) ∧
  keeps_index (_parse_permissions w) ∧
  keeps_index (_parse_hh_brib w) ∧
  keeps_index (_parse_set_recipient_list w).
Proof.
  repeat split.
  - apply added_keeps_index.
  - apply removed_keeps_index.
  - apply transfer_keeps_index.
  - apply permissions_keeps_index.
  - apply hh_brib_keeps_index.
  - apply set_recipient_list_keeps_index.
Qed.

(** The four classifiers that go by the method name report a transaction
    only under their own name: [transfer], [depositBribe] (and then only
    when the checksummed [to] address is one of the two bribers),
    [setRecipientList], and a name with "Role" in it. *)
Theorem named_classifiers_report_their_method tx kw s r s' :
  (_parse_transfer w tx kw s = (Ret (Some r), s') →
     method_name tx = Some (PStr "transfer") ∧
     is_Some (dict_lookup "to" tx) ∧
     dict_lookup "function" r = Some (PStr "transfer")) ∧
  (_parse_hh_brib w tx kw s = (Ret (Some r), s') →
     method_name tx = Some (PStr "depositBribe") ∧
     (∃ to x address x',
        dict_lookup "to" tx = Some to ∧
        to_checksum_address w to x = (Ret address, x') ∧
        (address = aura_briber w ∨ address = balancer_briber w)) ∧
     dict_lookup "function" r = Some (PStr "depositBribe")) ∧
  (_parse_set_recipient_list w tx kw s = (Ret (Some r), s') →
     method_name tx = Some (PStr "setRecipientList") ∧
     is_Some (dict_lookup "to" tx) ∧
     dict_lookup "function" r = Some (PStr "setRecipientList")) ∧
  (_parse_permissions w tx kw s = (Ret (Some r), s') →
     (∃ name, method_name tx = Some name ∧ py_in "Role" name = Ret true) ∧
     is_Some (dict_lookup "to" tx)).
Proof.
  split; [|split; [|split]].
  - intros H. by apply transfer_sound in H as (_ & ? & ? & ?).
  - intros H. by apply hh_brib_sound in H as (_ & ? & ? & ?).
  - intros H. by apply set_recipient_list_sound in H as (_ & ? & ? & ?).
  - intros H. by apply permissions_sound in H as (_ & ? & ?).
Qed.

(** No transaction is reported by two of these four classifiers. *)
Theorem named_classifiers_exclude_each_other tx :
  ¬ (reports_tx (_parse_transfer w) tx ∧ reports_tx (_parse_hh_brib w) tx) ∧
  ¬ (reports_tx (_parse_transfer w) tx
     ∧ reports_tx (_parse_set_recipient_list w) tx) ∧
  ¬ (reports_tx (_parse_transfer w) tx
     ∧ reports_tx (_parse_permissions w) tx) ∧
  ¬ (reports_tx (_parse_hh_brib w) tx
     ∧ reports_tx (_parse_set_recipient_list w) tx) ∧
  ¬ (reports_tx (_parse_hh_brib w) tx
     ∧ reports_tx (_parse_permissions w) tx) ∧
  ¬ (reports_tx (_parse_set_recipient_list w) tx
     ∧ reports_tx (_parse_permissions w) tx).
Proof.
  assert (Ht : reports_tx (_parse_transfer w) tx →
               method_name tx = Some (PStr "transfer")).
  { intros (kw & s & r & s' & H). by apply transfer_sound in H as (_ & ? & _). }
  assert (Hb : reports_tx (_parse_hh_brib w) tx →
               method_name tx = Some (PStr "depositBribe")).
  { intros (kw & s & r & s' & H). by apply hh_brib_sound in H as (_ & ? & _). }
  assert (Hs : reports_tx (_parse_set_recipient_list w) tx →
               method_name tx = Some (PStr "setRecipientList")).
  { intros (kw & s & r & s' & H).
    by apply set_recipient_list_sound in H as (_ & ? & _). }
  assert (Hp : reports_tx (_parse_permissions w) tx →
               ∃ name, method_name tx = Some name
                       ∧ py_in "Role" name = Ret true).
  { intros (kw & s & r & s' & H). by apply permissions_sound in H as (_ & ? & _). }
  repeat split; intros [H1 H2].
  - apply Ht in H1. apply Hb in H2. congruence.
  - apply Ht in H1. apply Hs in H2. congruence.
  - apply Ht in H1. apply Hp in H2 as (name & Hn & Hin).
    rewrite H1 in Hn. by injection Hn as <-.
  - apply Hb in H1. apply Hs in H2. congruence.
  - apply Hb in H1. apply Hp in H2 as (name & Hn & Hin).
    rewrite H1 in Hn. by injection Hn as <-.
  - apply Hs in H1. apply Hp in H2 as (name & Hn & Hin).
    rewrite H1 in Hn. by injection Hn as <-.
Qed.

(** The two gauge classifiers report a transaction only on what they
    find in its inputs: [_parse_added_transaction] when the transaction is
    sent to the gauge adder and carries a gauge type and a gauge address;
    [_parse_removed_transaction] when the target contract decodes the
    call data as [killGauge()] without arguments, and the row then names
    the target as the gauge. *)
Theorem gauge_classifiers_report_gauge_calls tx kw s r s' :
  (_parse_added_transaction w tx kw s = (Ret (Some r), s') →
     is_Some (method_name tx) ∧
     (∃ adder, gauge_adder_address w = Ret adder ∧
               dict_lookup "to" tx = Some (PStr adder)) ∧
     (∃ d, civ_of tx = PDict d ∧
           truthy (dict_get d "gaugeType" PNone) = true ∧
           (truthy (dict_get d "gauge" PNone) = true ∨
            truthy (dict_get d "rootGauge" PNone) = true))) ∧
  (_parse_removed_transaction w tx kw s = (Ret (Some r), s') →
     ∃ d target,
       civ_of tx = PDict d ∧
       truthy (dict_get d "data" PNone) = true ∧
       dict_lookup "target" d = Some target ∧
       (∃ s1 s2,
          decode_target_call w tx s1 = (Ret (CMD_GAUGE_KILL, []), s2)) ∧
       dict_lookup "gauge_address" r = Some target).
Proof.
  split.
  - intros H. by apply added_sound in H as (_ & ? & ? & ?).
  - intros H. by apply removed_sound in H as (_ & ?).
Qed.
End classifier_theorems.

(** ** [handler] and the catch-all reporter together *)

Section dict_elems.
Context {A : Type}.
Implicit Types (d : list (string * A)).

Lemma dict_set_elem k (v : A) d name x :
  (name, x) ∈ dict_set k v d → (name = k ∧ x = v) ∨ (name, x) ∈ d.
Proof.
  induction d as [|[k0 v0] d IH]; simpl.
  - intros [= -> ->]%list_elem_of_singleton. by left.
  - destruct (String.eqb k k0) eqn:E.
    + apply String.eqb_eq in E as ->.
      intros [[= -> ->]|Hin]%elem_of_cons; [by left|]. right. by right.
    + intros [[= -> ->]|Hin]%elem_of_cons; [right; by left|].
      destruct (IH Hin) as [?|?]; [by left|]. right. by right.
Qed.
End dict_elems.

Lemma NoDup_file_name files f f' :
  NoDup (file_name <$> files) → f ∈ files → f' ∈ files →
  file_name f = file_name f' → f = f'.
Proof.
  induction files as [|f0 files IH]; intros Hnd Hf Hf' Heq.
  - by apply elem_of_nil in Hf.
  - rewrite fmap_cons in Hnd. apply NoDup_cons in Hnd as [Hn0 Hnd].
    apply elem_of_cons in Hf as [->|Hf];
      apply elem_of_cons in Hf' as [->|Hf']; try done.
    + exfalso. apply Hn0. rewrite Heq. by apply list_elem_of_fmap_2.
    + exfalso. apply Hn0. rewrite <- Heq. by apply list_elem_of_fmap_2.
    + by apply IH.
Qed.

Section handler_rows.
Context {S C AB BP : Type} (w : World S C AB BP).
Context (handler_func : transaction → kwargs → M S (option row)).
Implicit Types (s : st S) (f : file).

(** The inner loop: the counter ends at the length of the list, and the
    outputs carry positions below the counter. *)
Lemma handle_transactions_indexes f txs : ∀ outputs i s outputs' i' s',
  keeps_index handler_func →
  for_each (handle_transaction w handler_func f) txs (outputs, i) s
    = (Ret (outputs', i'), s') →
  i' = i + length txs ∧
  (Forall (λ r, ∃ j, j < i ∧ dict_lookup "tx_index" r
                              = Some (PInt (Z.of_nat j))) outputs →
   Forall (λ r, ∃ j, j < i' ∧ dict_lookup "tx_index" r
                               = Some (PInt (Z.of_nat j))) outputs').
Proof.
  intros outputs i s outputs' i' s' Hkeeps. revert outputs i s.
  induction txs as [|tx txs IH]; intros outputs i s.
  - intros [= <- <- <-]. split; [simpl; lia|done].
  - rewrite for_each_cons.
    destruct (handle_transaction w handler_func f (outputs, i) tx s)
      as [[[outputs1 i1]|e] s1] eqn:Hturn; [|done].
    intros Hrest. apply IH in Hrest as [-> Hall].
    unfold handle_transaction in Hturn.
    apply bind_Ret_inv in Hturn as (b & s2 & _ & Hturn).
    apply bind_Ret_inv in Hturn as (bip & s3 & _ & Hturn).
    apply bind_Ret_inv in Hturn as (data & s4 & Hdata & Hturn).
    apply ret_Ret_inv in Hturn as [[= -> ->] _].
    split; [simpl; lia|]. intros Hout. apply Hall.
    assert (Hweak : Forall (λ r, ∃ j, j < Datatypes.S i ∧
              dict_lookup "tx_index" r = Some (PInt (Z.of_nat j))) outputs).
    { eapply Forall_impl; [exact Hout|]. intros r (j & Hj & Hr).
      exists j. split; [lia|done]. }
    destruct data as [[|item r]|]; simpl; try done.
    apply Forall_app. split; [done|]. apply Forall_singleton.
    exists i. split; [lia|]. by apply Hkeeps in Hdata.
Qed.

Lemma handle_file_report reps f s reps' s' :
  keeps_index handler_func →
  handle_file w handler_func reps f s = (Ret reps', s') →
  ∀ entry, entry ∈ reps' → report_of_file f entry ∨ entry ∈ reps.
Proof.
  intros Hkeeps H. unfold handle_file in H.
  apply bind_Ret_inv in H as ([outs i] & s1 & Hloop & H).
  apply handle_transactions_indexes in Hloop as [-> Hall]; [|done].
  specialize (Hall (Forall_nil_2 _)).
  destruct outs as [|o outs].
  - apply ret_Ret_inv in H as [-> _]. by right.
  - apply bind_Ret_inv in H as (multisig & s2 & _ & H).
    apply bind_Ret_inv in H as (id & s3 & _ & H).
    apply bind_Ret_inv in H as (text & s4 & _ & H).
    apply ret_Ret_inv in H as [-> _].
    intros [name info] [[-> ->]|Hin]%dict_set_elem; [|by right].
    left. by repeat split.
Qed.

Lemma handler_reports files s reps s' :
  keeps_index handler_func →
  handler w files handler_func s = (Ret reps, s') →
  ∀ entry, entry ∈ reps → ∃ f, f ∈ files ∧ report_of_file f entry.
Proof.
  intros Hkeeps. unfold handler.
  apply (for_each_invariant (handle_file w handler_func)
           (λ reps _, ∀ entry, entry ∈ reps →
                        ∃ f, f ∈ files ∧ report_of_file f entry)).
  - intros f acc s0 acc' s0' Hf Hacc Hturn entry Hentry.
    destruct (handle_file_report _ _ _ _ _ Hkeeps Hturn entry Hentry)
      as [?|?]; [by exists f|by apply Hacc].
  - by intros entry []%elem_of_nil.
Qed.

(** For any classifier that hands back the index it was given, every
    report [handler] returns was made for one of the files: it is filed
    under the name of the file, holds the file, has at least one output,
    and each output carries the position of a transaction of that file. *)
Theorem handler_reports_belong_to_files files s reps s' name info :
  keeps_index handler_func →
  handler w files handler_func s = (Ret reps, s') →
  (name, info) ∈ reps →
  ∃ f, f ∈ files ∧ file_name f = name ∧ report_file info = inl f ∧
       outputs info ≠ [] ∧ Forall (index_of_file f) (outputs info).
Proof.
  intros Hkeeps Hrun Hin.
  destruct (handler_reports _ _ _ _ Hkeeps Hrun _ Hin)
    as (f & Hf & Hname & Hfile & Hne & Hall).
  exists f. by repeat split.
Qed.
End handler_rows.

(** The indices claimed by reports made for the files are indices of the
    file. *)
Lemma claimed_in_range (all_reports : list reports) files f :
  NoDup (file_name <$> files) →
  Forall (λ report : reports,
            ∀ entry, entry ∈ report →
                     ∃ f, f ∈ files ∧ report_of_file f entry) all_reports →
  f ∈ files →
  claimed all_reports (file_name f) ⊆ range_set (length (transactions f)).
Proof.
  intros Hnd Hall Hf k Hk.
  apply elem_of_claimed in Hk as (report & info & output & Hr & He & Ho & Hk).
  rewrite Forall_forall in Hall.
  destruct (Hall _ Hr _ He) as (f' & Hf' & Hname & _ & _ & Hidx).
  simpl in *.
  assert (f' = f) as -> by (by eapply NoDup_file_name).
  rewrite Forall_forall in Hidx. destruct (Hidx _ Ho) as (j & Hj & Hrow).
  unfold dict_get in Hk. rewrite Hrow in Hk. injection Hk as <-.
  apply elem_of_range_set. by exists j.
Qed.

(** Takes a goal "this run does not finish" one step further: the step at
    the head either raises or has returned. *)
Ltac stuck_step :=
  lazymatch goal with
  | |- ¬ is_Ret (bind ?m ?k ?s).1 =>
      let a := fresh "a" in
      let s1 := fresh "s" in
      let E := fresh "Hstep" in
      rewrite run_bind;
      destruct (m s) as [[a|?] s1] eqn:E;
        [try solve [unfold raise in E; discriminate E]|simpl; tauto]
  | |- ¬ is_Ret (raise _ _).1 => simpl; tauto
  | |- ¬ is_Ret (Raise _, _).1 => simpl; tauto
  end.

Section stuck_facts.
Context {S C AB BP : Type} (w : World S C AB BP).
Implicit Types (s : st S) (f : file) (tx : transaction).

Lemma bind_stuck_l {A B} (m : M S A) (k : A → M S B) s :
  ¬ is_Ret (m s).1 → ¬ is_Ret (bind m k s).1.
Proof.
  intros H. rewrite run_bind. destruct (m s) as [[a|e] s1]; simpl in *; tauto.
Qed.

Lemma bind_stuck_r {A B} (m : M S A) (k : A → M S B) s :
  (∀ a s1, ¬ is_Ret (k a s1).1) → ¬ is_Ret (bind m k s).1.
Proof.
  intros H. rewrite run_bind. destruct (m s) as [[a|e] s1]; [apply H|].
  simpl. tauto.
Qed.

(** A classifier that cannot finish on a transaction stops [handler] on
    any batch holding that transaction. *)
Lemma handler_stuck handler_func files f tx :
  f ∈ files → tx ∈ transactions f →
  (∀ kw s, ¬ is_Ret (handler_func tx kw s).1) →
  ∀ s, ¬ is_Ret (handler w files handler_func s).1.
Proof.
  intros Hf Htx Hstuck. unfold handler.
  apply (for_each_stuck _ f files Hf). intros reps s.
  unfold handle_file. apply bind_stuck_l.
  apply (for_each_stuck _ tx _ Htx). intros [outputs i] s0.
  unfold handle_transaction.
  do 2 stuck_step. by apply bind_stuck_l.
Qed.

(** ... and [main] with it, whichever of the six classifiers it is. *)
Lemma main_stuck s files x f tx :
  get_changed_files w (ext s) = (Ret files, x) →
  f ∈ files → tx ∈ transactions f →
  (∀ kw s, ¬ is_Ret (_parse_added_transaction w tx kw s).1) ∨
  (∀ kw s, ¬ is_Ret (_parse_removed_transaction w tx kw s).1) ∨
  (∀ kw s, ¬ is_Ret (_parse_transfer w tx kw s).1) ∨
  (∀ kw s, ¬ is_Ret (_parse_permissions w tx kw s).1) ∨
  (∀ kw s, ¬ is_Ret (_parse_hh_brib w tx kw s).1) ∨
  (∀ kw s, ¬ is_Ret (_parse_set_recipient_list w tx kw s).1) →
  ¬ is_Ret (main w s).1.
Proof.
  intros Hfiles Hf Htx Hstuck. unfold main.
  run_ext Hfiles.
  destruct Hstuck as [H|[H|[H|[H|[H|H]]]]].
  - apply bind_stuck_l. by eapply handler_stuck.
  - stuck_step. apply bind_stuck_l. by eapply handler_stuck.
  - do 2 stuck_step. apply bind_stuck_l. by eapply handler_stuck.
  - do 3 stuck_step. apply bind_stuck_l. by eapply handler_stuck.
  - do 4 stuck_step. apply bind_stuck_l. by eapply handler_stuck.
  - do 5 stuck_step. apply bind_stuck_l. by eapply handler_stuck.
Qed.

(** [_parse_transfer] on a record whose [contractMethod] has no name. *)
Lemma transfer_method_without_name tx kw s :
  lacks_inputs_or_method tx = false → method_name tx = None →
  ∃ e, _parse_transfer w tx kw s = (Raise e, s).
Proof.
  intros Hl Hn. unfold _parse_transfer. rewrite Hl.
  assert (∃ e, py_item (method_of tx) "name" = Raise e) as [e He].
  { unfold method_name in Hn. unfold method_of, dict_get, py_item, dict_item.
    destruct (dict_lookup "contractMethod" tx) as [[| | | | |m]|]; eauto.
    rewrite Hn. eauto. }
  exists e. by rewrite He.
Qed.

(** The loop of [_parse_transfer] over the chains of the address book,
    when no chain has the id of the batch. *)
Lemma find_chain_unknown items chain_id s r s' :
  (∀ c_name c_id id id', (c_name, c_id) ∈ items →
     py_int w chain_id = Ret id → py_int w c_id = Ret id' → id ≠ id') →
  find_chain w items chain_id s = (Ret r, s') → r = ("main", None).
Proof.
  revert s. induction items as [|[c_name c_id] items IH]; intros s Hno.
  - by intros [= <- <-].
  - simpl. intros H.
    apply bind_Ret_inv in H as (id & s1 & [Hid ->]%pure_Ret_inv & H).
    apply bind_Ret_inv in H as (id' & s2 & [Hid' ->]%pure_Ret_inv & H).
    destruct (id =? id')%Z eqn:E.
    + apply Z.eqb_eq in E. exfalso.
      eapply (Hno c_name c_id id id'); [by left|done|done|done].
    + eapply IH; [|exact H]. intros ? ? ? ? Hin. eapply Hno. by right.
Qed.

Lemma transfer_unknown_chain tx kw s :
  (∀ c_name c_id id id', (c_name, c_id) ∈ chain_ids_by_name w →
     py_int w (chain_id kw) = Ret id → py_int w c_id = Ret id' → id ≠ id') →
  lacks_inputs_or_method tx = false →
  method_name tx = Some (PStr "transfer") →
  ¬ is_Ret (_parse_transfer w tx kw s).1.
Proof.
  intros Hno Hl Hname. unfold _parse_transfer. rewrite Hl.
  stuck_step. apply pure_Ret_inv in Hstep as [Hstep _].
  apply method_name_of_item in Hstep. rewrite Hname in Hstep.
  injection Hstep as <-. simpl.
  stuck_step.
  match goal with
  | H : find_chain _ _ _ _ = _ |- _ =>
      apply find_chain_unknown in H as ->; [|done]
  end. simpl.
  repeat stuck_step.
Qed.
End stuck_facts.

(** ** Transactions no classifier takes *)

Section made_rows.
Context {S C AB BP : Type} (w : World S C AB BP).
Context (handler_func : transaction → kwargs → M S (option row)).
Implicit Types (s : st S) (f : file).

(** The inner loop appends only rows the classifier returned for the
    transaction of the turn. *)
Lemma handle_transactions_made f txs : ∀ pre outputs s outputs' i' s',
  transactions f = (pre ++ txs)%list →
  for_each (handle_transaction w handler_func f) txs (outputs, length pre) s
    = (Ret (outputs', i'), s') →
  Forall (λ r, ∃ j, returned_for handler_func f j r) outputs →
  Forall (λ r, ∃ j, returned_for handler_func f j r) outputs'.
Proof.
  induction txs as [|tx txs IH]; intros pre outputs s outputs' i' s' Hf.
  - by intros [= <- <- <-].
  - rewrite for_each_cons.
    destruct (handle_transaction w handler_func f (outputs, length pre) tx s)
      as [[[outputs1 i1]|e] s1] eqn:Hturn; [|done].
    unfold handle_transaction in Hturn.
    apply bind_Ret_inv in Hturn as (b & s2 & _ & Hturn).
    apply bind_Ret_inv in Hturn as (bip & s3 & _ & Hturn).
    apply bind_Ret_inv in Hturn as (data & s4 & Hdata & Hturn).
    apply ret_Ret_inv in Hturn as [[= -> ->] _].
    intros Hrest Hout.
    assert (Hlen : Datatypes.S (length pre) = length (pre ++ [tx])%list)
      by (rewrite length_app; simpl; lia).
    rewrite Hlen in Hrest.
    eapply (IH (pre ++ [tx])%list); [by rewrite <- app_assoc|exact Hrest|].
    destruct data as [[|item r]|]; simpl; try done.
    apply Forall_app. split; [done|]. apply Forall_singleton.
    exists (length pre), tx. eexists _, _, _. split; [|split; [|exact Hdata]].
    + rewrite Hf. by apply list_lookup_middle.
    + done.
Qed.

Lemma handle_file_made reps f s reps' s' :
  handle_file w handler_func reps f s = (Ret reps', s') →
  ∀ entry, entry ∈ reps' →
    (fst entry = file_name f ∧
     Forall (λ r, ∃ j, returned_for handler_func f j r)
       (outputs (snd entry)))
    ∨ entry ∈ reps.
Proof.
  intros H. unfold handle_file in H.
  apply bind_Ret_inv in H as ([outs i] & s1 & Hloop & H).
  apply (handle_transactions_made f (transactions f) []) in Hloop;
    [|done|constructor].
  destruct outs as [|o outs].
  - apply ret_Ret_inv in H as [-> _]. by right.
  - apply bind_Ret_inv in H as (multisig & s2 & _ & H).
    apply bind_Ret_inv in H as (id & s3 & _ & H).
    apply bind_Ret_inv in H as (text & s4 & _ & H).
    apply ret_Ret_inv in H as [-> _].
    intros [name info] [[-> ->]|Hin]%dict_set_elem; [|by right].
    by left.
Qed.

(** Every output of a report of [handler] is a row the classifier
    returned for a transaction of the file the report is filed under. *)
Lemma handler_made files s reps s' :
  handler w files handler_func s = (Ret reps, s') →
  ∀ entry, entry ∈ reps →
    ∃ f, f ∈ files ∧ fst entry = file_name f ∧
         Forall (λ r, ∃ j, returned_for handler_func f j r)
           (outputs (snd entry)).
Proof.
  unfold handler.
  apply (for_each_invariant (handle_file w handler_func)
           (λ reps _, ∀ entry, entry ∈ reps →
              ∃ f, f ∈ files ∧ fst entry = file_name f ∧
                   Forall (λ r, ∃ j, returned_for handler_func f j r)
                     (outputs (snd entry)))).
  - intros f acc s0 acc' s0' Hf Hacc Hturn entry Hentry.
    destruct (handle_file_made _ _ _ _ _ Hturn entry Hentry)
      as [[? ?]|?]; [by exists f|by apply Hacc].
  - by intros entry []%elem_of_nil.
Qed.

(** A transaction for which the classifier returns no row leaves its
    position unclaimed in the report of [handler]. *)
Lemma handler_leaves_unclaimed files f i tx s reps s' info output :
  keeps_index handler_func →
  (∀ kw s0 r s1, handler_func tx kw s0 ≠ (Ret (Some r), s1)) →
  NoDup (file_name <$> files) → f ∈ files →
  transactions f !! i = Some tx →
  handler w files handler_func s = (Ret reps, s') →
  (file_name f, info) ∈ reps → output ∈ outputs info →
  hash_key (dict_get output "tx_index" PNone) ≠ Ret (KInt (Z.of_nat i)).
Proof.
  intros Hkeeps Hnever Hnd Hf Htx Hrun Hentry Hout Hk.
  destruct (handler_made _ _ _ _ Hrun _ Hentry) as (f' & Hf' & Hname & Hall).
  simpl in Hname, Hall.
  assert (f' = f) as -> by (by eapply NoDup_file_name).
  rewrite Forall_forall in Hall.
  destruct (Hall _ Hout) as (j & tx' & kw & s0 & s1 & Htx' & Hj & Hcall).
  pose proof (Hkeeps _ _ _ _ _ Hcall) as Hidx.
  unfold dict_get in Hk. rewrite Hidx, Hj in Hk. simpl in Hk.
  injection Hk as Hji. apply Nat2Z.inj in Hji as ->.
  rewrite Htx in Htx'. injection Htx' as <-.
  by eapply Hnever.
Qed.
End made_rows.

Section unclassified.
Context {S C AB BP : Type} (w : World S C AB BP).
Implicit Types (s : st S) (f : file) (tx : transaction) (kw : kwargs).

(** A loop that appends one row per turn appends the rows of its turns,
    in their order. *)
Lemma for_each_append_rows {A R} (g : A → M S R) xs :
  ∀ (rows : list R) s rows' s',
    for_each (fun rows i => r <- g i; ret (rows ++ [r])%list) xs rows s
      = (Ret rows', s') →
    ∃ new, rows' = (rows ++ new)%list ∧
      Forall2 (λ i r, ∃ sa sb, g i sa = (Ret r, sb)) xs new.
Proof.
  induction xs as [|x xs IH]; intros rows s rows' s'.
  - intros [= <- <-]. exists []. by rewrite app_nil_r.
  - rewrite for_each_cons.
    destruct (bind (g x) (λ r, ret (rows ++ [r])%list) s)
      as [[a1|e] s1] eqn:Hx; [|done].
    intros H. apply IH in H as (new & -> & Hall).
    apply bind_Ret_inv in Hx as (r & s2 & Hr & [-> _]%ret_Ret_inv).
    exists (r :: new). rewrite <- app_assoc. split; [done|].
    constructor; [by eexists _, _|done].
Qed.

(** The row for the uncovered index [i] is made of the transaction at
    position [i]. *)
Lemma no_report_row_of_tx name f chain_name addr i tx s r s' :
  transactions f !! i = Some tx →
  no_report_row w name f chain_name addr (KInt (Z.of_nat i)) s = (Ret r, s') →
  unclassified_row w tx r.
Proof.
  intros Htx H. unfold no_report_row in H.
  apply bind_Ret_inv in H as (tx' & s1 & [Hitem _]%pure_Ret_inv & H).
  assert (tx' = tx) as ->.
  { unfold list_item in Hitem.
    destruct (Z.of_nat i <? 0)%Z eqn:E; [apply Z.ltb_lt in E; lia|].
    rewrite E, Nat2Z.id, Htx in Hitem. by injection Hitem. }
  apply bind_Ret_inv in H as (to & s2 & [Hto _]%pure_Ret_inv & H).
  apply bind_Ret_inv in H as (b & s3 & _ & H).
  apply bind_Ret_inv in H as (bip & s4 & _ & H).
  apply bind_Ret_inv in H as (civ_parsed & s5 & _ & H).
  apply bind_Ret_inv in H as (valuestring & s6 & _ & H).
  apply bind_Ret_inv in H as (fx_name & s7 & Hfx & H).
  apply bind_Ret_inv in H as (found & s8 & _ & H).
  apply bind_Ret_inv in H as (to_s & s9 & [Hrender _]%pure_Ret_inv & H).
  apply bind_Ret_inv in H as (inputs & s10 & _ & H).
  apply ret_Ret_inv in H as [-> _].
  split; [done|]. split.
  - exists to, found, to_s. split; [|done].
    unfold dict_item in Hto. destruct (dict_lookup "to" tx); [|done].
    by injection Hto as ->.
  - exists fx_name. split; [|done].
    destruct (truthy (dict_get tx "contractMethod" (PDict []))).
    + by apply pure_Ret_inv in Hfx as [? _].
    + by apply ret_Ret_inv in Hfx as [-> _].
Qed.

(** A finished turn of the third loop that found something uncovered
    filed the rows of the uncovered indexes, as the set is walked. *)
Lemma report_uncovered_rows files reps name cov s reps' s' :
  report_uncovered w files reps (name, cov) s = (Ret reps', s') →
  size (uncovered_indexs
          (default 0 (dict_lookup name (tx_list_len_by_file files))) cov)
    ≠ 0 →
  ∃ filedata chain_name addr info,
    dict_lookup name (filedata_by_file files) = Some filedata ∧
    reps' = dict_set name info reps ∧
    report_file info = inr name ∧
    Forall2 (λ i r, ∃ sa sb,
               no_report_row w name filedata chain_name addr i sa
                 = (Ret r, sb))
      (set_iter (uncovered_indexs
         (default 0 (dict_lookup name (tx_list_len_by_file files))) cov))
      (outputs info).
Proof.
  unfold report_uncovered. intros H Hsz.
  rewrite bool_decide_eq_false_2 in H by done.
  destruct (dict_lookup name (filedata_by_file files)) as [filedata|];
    [|done].
  apply bind_Ret_inv in H as (multisig & s1 & _ & H).
  apply bind_Ret_inv in H as (id & s2 & _ & H).
  apply bind_Ret_inv in H as (addr & s3 & _ & H).
  apply bind_Ret_inv in H as (rows & s4 & Hrows & H).
  apply bind_Ret_inv in H as (id' & s5 & _ & H).
  apply bind_Ret_inv in H as (text & s6 & _ & H).
  apply ret_Ret_inv in H as [-> _].
  apply for_each_append_rows in Hrows as (new & -> & Hall).
  eexists filedata, _, addr, _. split; [done|]. split; [done|].
  split; [done|]. exact Hall.
Qed.

Lemma report_uncovered_loop_rows files covered : ∀ reps s reps' s',
  NoDup covered.*1 →
  for_each (report_uncovered w files) covered reps s = (Ret reps', s') →
  ∀ name cov,
    dict_lookup name covered = Some cov →
    size (uncovered_indexs
            (default 0 (dict_lookup name (tx_list_len_by_file files))) cov)
      ≠ 0 →
    ∃ filedata chain_name addr info,
      dict_lookup name (filedata_by_file files) = Some filedata ∧
      dict_lookup name reps' = Some info ∧
      report_file info = inr name ∧
      Forall2 (λ i r, ∃ sa sb,
                 no_report_row w name filedata chain_name addr i sa
                   = (Ret r, sb))
        (set_iter (uncovered_indexs
           (default 0 (dict_lookup name (tx_list_len_by_file files))) cov))
        (outputs info).
Proof.
  induction covered as [|[n0 c0] covered IH]; intros reps s reps' s' Hnd.
  - by intros _ name cov.
  - rewrite for_each_cons.
    destruct (report_uncovered w files reps (n0, c0) s)
      as [[reps1|e] s1] eqn:Hturn; [|done].
    rewrite fmap_cons in Hnd. apply NoDup_cons in Hnd as [Hn0 Hnd].
    simpl in Hn0.
    intros Hrest name cov. cbn [dict_lookup].
    destruct (String.eqb name n0) eqn:E.
    + apply String.eqb_eq in E as ->. intros [= ->] Hsz.
      destruct (report_uncovered_rows _ _ _ _ _ _ _ Hturn Hsz)
        as (filedata & chain_name & addr & info & Hfile & -> & Hinr & Hall).
      exists filedata, chain_name, addr, info. split; [done|].
      split; [|done].
      pose proof (report_uncovered_loop w files covered _ _ _ _ Hnd Hrest n0)
        as Hsame.
      apply dict_lookup_None_keys in Hn0. rewrite Hn0 in Hsame.
      by rewrite Hsame, dict_lookup_set, String.eqb_refl.
    + intros Hcov Hsz. by eapply IH.
Qed.

(** A finished run of the catch-all reporter filed, for a file with
    something uncovered, the rows of its uncovered indexes. *)
Lemma parse_no_reports_report_rows (all_reports : list reports) files f s
    no_reports s' :
  last_file (file_name f) files = Some f →
  parse_no_reports_report w all_reports files s = (Ret no_reports, s') →
  uncovered_indexs (length (transactions f))
    (claimed all_reports (file_name f)) ≠ ∅ →
  ∃ chain_name addr info,
    dict_lookup (file_name f) no_reports = Some info ∧
    report_file info = inr (file_name f) ∧
    Forall2 (λ i r, ∃ sa sb,
               no_report_row w (file_name f) f chain_name addr i sa
                 = (Ret r, sb))
      (set_iter (uncovered_indexs (length (transactions f))
                   (claimed all_reports (file_name f))))
      (outputs info).
Proof.
  intros Hlast Hrun Hne. unfold parse_no_reports_report in Hrun.
  destruct (covered_indexs_by_file all_reports files) as [covered|e]
    eqn:Hcov; [|done].
  change (bind (pure (Ret covered)) ?k s) with (k covered s) in Hrun.
  assert (Hlook : dict_lookup (file_name f) covered
                  = Some (claimed all_reports (file_name f))).
  { rewrite (covered_indexs_by_file_lookup _ _ _ _ Hcov). by rewrite Hlast. }
  destruct (report_uncovered_loop_rows files covered [] s no_reports s'
              (covered_indexs_by_file_NoDup _ _ _ Hcov) Hrun _ _ Hlook)
    as (filedata & chain_name & addr & info & Hfile & Hinfo & Hinr & Hall).
  - rewrite tx_list_len_lookup, Hlast. simpl.
    intros Hz. apply Hne. by apply size_empty_inv, leibniz_equiv in Hz.
  - rewrite filedata_lookup, Hlast in Hfile. injection Hfile as <-.
    rewrite tx_list_len_lookup, Hlast in Hall. simpl in Hall.
    by exists chain_name, addr, info.
Qed.

Lemma last_file_NoDup files f :
  NoDup (file_name <$> files) → f ∈ files →
  last_file (file_name f) files = Some f.
Proof.
  intros Hnd Hf. destruct (last_file_of_member files f Hf) as [f' Hlast].
  rewrite Hlast. f_equal.
  apply last_file_name in Hlast as [Hname Hf'].
  by eapply NoDup_file_name.
Qed.

End unclassified.

(** ** The run as a whole *)

Section run_theorems.
Context {S C AB BP : Type} (w : World S C AB BP).
Implicit Types (s : st S) (f : file) (tx : transaction).

(** For reports made by [handler] over the same files, with classifiers
    that hand back the index they were given, and file names that differ:
    the indices claimed for a file are indices of the file, so that the
    catch-all reporter's uncovered set is the plain difference for a file
    with transactions, and is index 0 alone for a file without. *)
Theorem uncovered_after_handlers files (all_reports : list reports) f :
  NoDup (file_name <$> files) →
  Forall (λ report : reports,
            ∃ handler_func s s',
              keeps_index handler_func ∧
              handler w files handler_func s = (Ret report, s'))
    all_reports →
  f ∈ files →
  claimed all_reports (file_name f) ⊆ range_set (length (transactions f)) ∧
  (transactions f ≠ [] →
   uncovered_indexs (length (transactions f))
     (claimed all_reports (file_name f))
   = range_set (length (transactions f))
       ∖ claimed all_reports (file_name f)) ∧
  (transactions f = [] →
   uncovered_indexs (length (transactions f))
     (claimed all_reports (file_name f)) = {[KInt 0]}).
Proof.
  intros Hnd Hall Hf.
  assert (Hsub : claimed all_reports (file_name f)
                   ⊆ range_set (length (transactions f))).
  { apply (claimed_in_range all_reports files f Hnd); [|done].
    eapply Forall_impl; [exact Hall|].
    intros report (hf & s & s' & Hkeeps & Hrun).
    by eapply handler_reports. }
  split; [done|]. split.
  - intros Hne. apply uncovered_indexs_difference; [done|].
    right. destruct (transactions f); [done|simpl; lia].
  - intros Hnil. rewrite Hnil in *. simpl in *.
    assert (claimed all_reports (file_name f) = ∅) as ->.
    { apply set_eq. intros k. split; [|by intros ?%not_elem_of_empty].
      intros Hk. apply Hsub, elem_of_range_set in Hk as (i & Hi & _). lia. }
    apply uncovered_indexs_empty_file.
Qed.

(** No file of a finished run is left out: each file is reported by the
    catch-all reporter or by one of the reports handed to it. *)
Theorem no_file_left_out (all_reports : list reports) files s no_reports s' f :
  parse_no_reports_report w all_reports files s = (Ret no_reports, s') →
  f ∈ files →
  file_name f ∈ no_reports.*1 ∨
  ∃ report, report ∈ all_reports ∧ file_name f ∈ report.*1.
Proof. apply every_file_reported. Qed.

(** [main] writes only after everything is classified and merged: when it
    has completed, the six classifiers have been run over the changed
    files by [handler], one after the other in the order of the source,
    the catch-all reporter has been run on their six reports, and
    [merge_files] on the seven; nothing was written until then, and the
    log then holds, after what was there, the combined report of what
    [merge_files] returned (nothing when that is empty) and one report
    per entry, named by [report_path]. *)
Theorem main_writes_after_merging s s' :
  main w s = (Ret tt, s') →
  ∃ files x1 r1 s1 r2 s2 r3 s3 r4 s4 r5 s5 r6 s6 no_reports s7 merged x8,
    get_changed_files w (ext s) = (Ret files, x1) ∧
    handler w files (_parse_added_transaction w) (mk_st x1 (fs_log s))
      = (Ret r1, s1) ∧
    handler w files (_parse_removed_transaction w) s1 = (Ret r2, s2) ∧
    handler w files (_parse_transfer w) s2 = (Ret r3, s3) ∧
    handler w files (_parse_permissions w) s3 = (Ret r4, s4) ∧
    handler w files (_parse_hh_brib w) s4 = (Ret r5, s5) ∧
    handler w files (_parse_set_recipient_list w) s5 = (Ret r6, s6) ∧
    parse_no_reports_report w [r1; r2; r3; r4; r5; r6] files s6
      = (Ret no_reports, s7) ∧
    merge_files w [r1; r2; r3; r4; r5; r6; no_reports] (ext s7)
      = (Ret merged, x8) ∧
    fs_log s7 = fs_log s ∧
    fs_log s' = fs_log s ++ payload_events merged ++ report_events merged.
Proof.
  intros Hmain. unfold main in Hmain.
  apply bind_Ret_inv in Hmain as (files & s0 & Hfiles & Hmain).
  pose proof (quiet_run _ _ _ _ (quiet_call_ext _) Hfiles) as Hl0.
  apply call_ext_inv in Hfiles as (x1 & Hfiles & ->).
  apply bind_Ret_inv in Hmain as (r1 & s1 & H1 & Hmain).
  apply bind_Ret_inv in Hmain as (r2 & s2 & H2 & Hmain).
  apply bind_Ret_inv in Hmain as (r3 & s3 & H3 & Hmain).
  apply bind_Ret_inv in Hmain as (r4 & s4 & H4 & Hmain).
  apply bind_Ret_inv in Hmain as (r5 & s5 & H5 & Hmain).
  apply bind_Ret_inv in Hmain as (r6 & s6 & H6 & Hmain).
  cbv zeta in Hmain.
  apply bind_Ret_inv in Hmain as (no_reports & s7 & Hcatch & Hmain).
  apply bind_Ret_inv in Hmain as (merged & s8 & Hmerged & Hmain).
  apply bind_Ret_inv in Hmain as ([] & s9 & Hpayload & Hreports).
  pose proof (quiet_run _ _ _ _
    (handler_quiet w files _ (added_quiet w)) H1) as Hl1.
  pose proof (quiet_run _ _ _ _
    (handler_quiet w files _ (removed_quiet w)) H2) as Hl2.
  pose proof (quiet_run _ _ _ _
    (handler_quiet w files _ (transfer_quiet w)) H3) as Hl3.
  pose proof (quiet_run _ _ _ _
    (handler_quiet w files _ (permissions_quiet w)) H4) as Hl4.
  pose proof (quiet_run _ _ _ _
    (handler_quiet w files _ (hh_brib_quiet w)) H5) as Hl5.
  pose proof (quiet_run _ _ _ _
    (handler_quiet w files _ (set_recipient_list_quiet w)) H6) as Hl6.
  pose proof (quiet_run _ _ _ _
    (parse_no_reports_report_quiet w _ files) Hcatch) as Hl7.
  pose proof (quiet_run _ _ _ _ (quiet_call_ext _) Hmerged) as Hl8.
  apply call_ext_inv in Hmerged as (x8 & Hmerged & _).
  assert (fs_log s7 = fs_log s) as Hlog7
    by (by rewrite Hl7, Hl6, Hl5, Hl4, Hl3, Hl2, Hl1, Hl0).
  exists files, x1, r1, s1, r2, s2, r3, s3, r4, s4, r5, s5, r6, s6.
  exists no_reports, s7, merged, x8.
  do 9 (split; [done|]). split; [exact Hlog7|].
  apply write_reports_run in Hreports; [|done]. rewrite Hreports.
  rewrite app_assoc. f_equal.
  assert (fs_log s8 = fs_log s) as Hl by (by rewrite Hl8, Hlog7).
  destruct merged as [|entry merged].
  - apply ret_Ret_inv in Hpayload as [_ ->]. simpl. by rewrite app_nil_r.
  - apply write_file_run in Hpayload. by rewrite Hpayload, Hl.
Qed.

(** One record whose [contractMethod] is there but has no [name] stops
    the whole run: [_parse_transfer] raises on it, in whatever file of the
    batch it is, and [main] does not complete. *)
Theorem main_aborts_on_method_without_name s files x f tx :
  get_changed_files w (ext s) = (Ret files, x) →
  f ∈ files → tx ∈ transactions f →
  lacks_inputs_or_method tx = false → method_name tx = None →
  (∀ kw s0, ∃ e, _parse_transfer w tx kw s0 = (Raise e, s0)) ∧
  (∀ s0, ¬ is_Ret (handler w files (_parse_transfer w) s0).1) ∧
  ¬ is_Ret (main w s).1.
Proof.
  intros Hfiles Hf Htx Hl Hn.
  assert (Hraise : ∀ kw s0, ∃ e, _parse_transfer w tx kw s0 = (Raise e, s0))
    by (intros; by apply transfer_method_without_name).
  assert (Hstuck : ∀ kw s0, ¬ is_Ret (_parse_transfer w tx kw s0).1).
  { intros kw s0. destruct (Hraise kw s0) as [e ->]. simpl. tauto. }
  split; [done|]. split.
  - by eapply handler_stuck.
  - eapply main_stuck; [done..|]. right; right; by left.
Qed.

(** A transfer in a batch whose chain id is that of no chain of the
    address book is never reported: the loop over the chains leaves
    [addresses] unbound, so [_parse_transfer] raises where it would use
    it (if nothing raised before), and with it the run. *)
Theorem transfer_on_unknown_chain_never_returns s files x f tx :
  get_changed_files w (ext s) = (Ret files, x) →
  f ∈ files → tx ∈ transactions f →
  lacks_inputs_or_method tx = false →
  method_name tx = Some (PStr "transfer") →
  (∀ c_name c_id id id', (c_name, c_id) ∈ chain_ids_by_name w →
     py_int w (chainId f) = Ret id → py_int w c_id = Ret id' → id ≠ id') →
  (∀ bip i s0,
     ¬ is_Ret (_parse_transfer w tx (mk_kwargs (chainId f) bip i) s0).1) ∧
  ¬ is_Ret (main w s).1.
Proof.
  intros Hfiles Hf Htx Hl Hname Hno.
  assert (Hstuck : ∀ bip i s0,
    ¬ is_Ret (_parse_transfer w tx (mk_kwargs (chainId f) bip i) s0).1).
  { intros bip i s0. by apply transfer_unknown_chain. }
  split; [done|]. unfold main. run_ext Hfiles.
  do 2 stuck_step. apply bind_stuck_l. unfold handler.
  apply (for_each_stuck _ f files Hf). intros reps s2.
  unfold handle_file. apply bind_stuck_l.
  apply (for_each_stuck _ tx _ Htx). intros [outputs i] s3.
  unfold handle_transaction. do 2 stuck_step. apply bind_stuck_l.
  apply Hstuck.
Qed.
End run_theorems.

(** ** [_extract_pool] by branch *)

Section pool_theorems.
Context {S C AB BP : Type} (w : World S C AB BP).
Implicit Types (s : st S).

Lemma sidechain_recipient_of_style recipient s c style s' :
  sidechain_recipient_of w recipient s = (Ret (c, style), s') →
  style = None ∨ style = Some STYLE_CHILD_CHAIN_STREAMER.
Proof.
  unfold sidechain_recipient_of. intros H.
  apply bind_Ret_inv in H as (c0 & s1 & _ & H).
  case_bool_decide.
  - apply bind_Ret_inv in H as (receiver & s2 & _ & H).
    apply bind_Ret_inv in H as (c1 & s3 & _ & H).
    apply ret_Ret_inv in H as [[= _ ->] _]. by right.
  - apply ret_Ret_inv in H as [[= _ ->] _]. by left.
Qed.

Lemma sidechain_try_style recipient s style r s' :
  sidechain_try w recipient s = (Ret (style, r), s') →
  style = None ∨ style = Some STYLE_CHILD_CHAIN_STREAMER.
Proof.
  unfold sidechain_try. intros H.
  apply bind_Ret_inv in H as (r1 & s1 & Htry & H).
  destruct r1 as [e|[c style1]].
  - apply ret_Ret_inv in H as [[= -> _] _]. by left.
  - apply bind_Ret_inv in H as (r2 & s2 & _ & H).
    apply ret_Ret_inv in H as [[= -> _] _].
    unfold try in Htry.
    destruct (sidechain_recipient_of w recipient s) as [[v|e] s0] eqn:Hrec;
      [|done].
    injection Htry as -> ->. by eapply sidechain_recipient_of_style.
Qed.

Lemma extract_pool_without_chain gauge selectors s :
  ¬ is_Ret (_extract_pool w None gauge selectors s).1.
Proof.
  unfold _extract_pool. simpl. apply bind_stuck_l.
  unfold extract_sidechain_pool. stuck_step. simpl. tauto.
Qed.

(** The style [_extract_pool] returns tells the branch taken: "mainnet"
    for a mainnet gauge with a [name] selector, "Single Recipient" for a
    mainnet gauge without, and "L0 sidechain" or "ChildChainStreamer" for
    a gauge of another chain, whose name (less "-main", avalanche for
    avax) is then a chain of the address book.  Without a chain it never
    returns. *)
Theorem extract_pool_style chain gauge selectors s info style s' :
  _extract_pool w chain gauge selectors s = (Ret (info, style), s') →
  (chain = Some CHAIN_MAINNET ∧ "name" ∈ selectors
   ∧ style = STYLE_MAINNET) ∨
  (chain = Some CHAIN_MAINNET ∧ "name" ∉ selectors
   ∧ style = STYLE_SINGLE_RECIPIENT) ∨
  (∃ c, chain = Some c ∧ c ≠ CHAIN_MAINNET ∧
        (style = STYLE_L0 ∨ style = STYLE_CHILD_CHAIN_STREAMER) ∧
        is_Some (dict_lookup
                   (str_replace "avax" "avalanche" (str_replace "-main" "" c))
                   (chain_ids_by_name w))).
Proof.
  unfold _extract_pool. intros H.
  apply bind_Ret_inv in H as ([info0 style0] & s1 & Hbranch & H).
  apply bind_Ret_inv in H as (tokens' & s2 & _ & H).
  apply ret_Ret_inv in H as [[= _ ->] _].
  case_bool_decide as Hchain; simpl in Hbranch.
  - case_bool_decide as Hname; simpl in Hbranch.
    + left. unfold extract_mainnet_pool in Hbranch.
      apply bind_Ret_inv in Hbranch as (lp & s3 & _ & Hbranch).
      apply bind_Ret_inv in Hbranch as (i & s4 & _ & Hbranch).
      by apply ret_Ret_inv in Hbranch as [[= _ ->] _].
    + right; left. unfold extract_single_recipient_pool in Hbranch.
      apply bind_Ret_inv in Hbranch as (a & s3 & _ & Hbranch).
      apply bind_Ret_inv in Hbranch as (c & s4 & _ & Hbranch).
      apply bind_Ret_inv in Hbranch as (r & s5 & _ & Hbranch).
      apply bind_Ret_inv in Hbranch as (i & s6 & _ & Hbranch).
      by apply ret_Ret_inv in Hbranch as [[= _ ->] _].
  - right; right. unfold extract_sidechain_pool in Hbranch.
    apply bind_Ret_inv in Hbranch as (recipient & s3 & _ & Hbranch).
    apply bind_Ret_inv in Hbranch
      as (network_id & s4 & [Hnet _]%pure_Ret_inv & Hbranch).
    apply bind_Ret_inv in Hbranch as ([] & s5 & _ & Hbranch).
    apply bind_Ret_inv in Hbranch as ([style1 r] & s6 & Htry & Hbranch).
    apply bind_Ret_inv in Hbranch as (i & s7 & _ & Hbranch).
    apply ret_Ret_inv in Hbranch as [[= _ ->] _].
    destruct chain as [c|]; [|done]. exists c. split; [done|].
    split; [congruence|]. split.
    + apply sidechain_try_style in Htry as [->| ->]; [by left|by right].
    + unfold sidechain_network_id, dict_item in Hnet.
      by destruct (dict_lookup _ (chain_ids_by_name w)).
Qed.

(** A gauge type that [TYPE_TO_CHAIN_MAP] does not know gives no chain,
    and [_parse_added_transaction] then reports nothing: it has returned
    [None] before it gets to the pool, or it raises. *)
Theorem added_unknown_gauge_type_never_reports tx kw s d t :
  civ_of tx = PDict d →
  dict_lookup "gaugeType" d = Some (PStr t) →
  dict_lookup t TYPE_TO_CHAIN_MAP = None →
  ∀ r s', _parse_added_transaction w tx kw s ≠ (Ret (Some r), s').
Proof.
  intros Hciv Htype Hmap r s' H. unfold _parse_added_transaction in H.
  rewrite Hciv in H.
  destruct (lacks_inputs_or_method tx);
    [by apply ret_Ret_inv in H as [? _]|].
  apply bind_Ret_inv in H as (is_add & s1 & _ & H).
  destruct (negb is_add); [by apply ret_Ret_inv in H as [? _]|].
  apply bind_Ret_inv in H as (command & s2 & _ & H).
  apply bind_Ret_inv in H as (gauge_type & s3 & [Hgt _]%pure_Ret_inv & H).
  simpl in Hgt. unfold dict_get in Hgt. rewrite Htype in Hgt.
  injection Hgt as <-.
  destruct (negb (truthy (PStr t))); [by apply ret_Ret_inv in H as [? _]|].
  apply bind_Ret_inv in H as (to & s4 & _ & H).
  apply bind_Ret_inv in H as (adder & s5 & _ & H).
  destruct (negb (eq_str to adder)); [by apply ret_Ret_inv in H as [? _]|].
  apply bind_Ret_inv in H as ([] & s6 & _ & H).
  apply bind_Ret_inv in H as (chain & s7 & [Hchain _]%pure_Ret_inv & H).
  unfold chain_of_gauge_type in Hchain. rewrite Hmap in Hchain.
  injection Hchain as <-.
  apply bind_Ret_inv in H as (gauge_address & s8 & _ & H).
  destruct (negb (truthy gauge_address));
    [by apply ret_Ret_inv in H as [? _]|].
  apply bind_Ret_inv in H as (gauge & s9 & _ & H).
  cbv zeta in H.
  apply bind_Ret_inv in H as (cap & s10 & _ & H).
  apply bind_Ret_inv in H as (pool & s11 & Hpool & _).
  apply (extract_pool_without_chain gauge (selectors_values w gauge) s10).
  by rewrite Hpool.
Qed.
End pool_theorems.

(** ** The name of a report *)

Lemma replace_no_occurrence old new s :
  contains old s = false → str_replace old new s = s.
Proof.
  unfold str_replace. induction s as [|c s IH]; [done|].
  cbn [contains replace_from]. intros [Hp Hc]%orb_false_elim.
  rewrite Hp. f_equal. by apply IH.
Qed.

Lemma is_prefix_cons a p c s :
  is_prefix (String a p) (String c s) = Ascii.eqb a c && is_prefix p s.
Proof. reflexivity. Qed.

Lemma json_prefix_of_app b :
  is_prefix ".json" (b ++ ".json")%string = true →
  b = "" ∨ is_prefix ".json" b = true.
Proof.
  destruct b as [|c1 b]; [intros _; by left|]. intros H. right.
  change (String c1 b ++ ".json")%string
    with (String c1 (b ++ ".json")) in H.
  rewrite is_prefix_cons in *.
  destruct (Ascii.eqb "." c1); [|done]. cbn [andb] in *.
  destruct b as [|c2 b]; [by vm_compute in H|].
  change (String c2 b ++ ".json")%string
    with (String c2 (b ++ ".json")) in H.
  rewrite is_prefix_cons in *.
  destruct (Ascii.eqb "j" c2); [|done]. cbn [andb] in *.
  destruct b as [|c3 b]; [by vm_compute in H|].
  change (String c3 b ++ ".json")%string
    with (String c3 (b ++ ".json")) in H.
  rewrite is_prefix_cons in *.
  destruct (Ascii.eqb "s" c3); [|done]. cbn [andb] in *.
  destruct b as [|c4 b]; [by vm_compute in H|].
  change (String c4 b ++ ".json")%string
    with (String c4 (b ++ ".json")) in H.
  rewrite is_prefix_cons in *.
  destruct (Ascii.eqb "o" c4); [|done]. cbn [andb] in *.
  destruct b as [|c5 b]; [by vm_compute in H|].
  change (String c5 b ++ ".json")%string
    with (String c5 (b ++ ".json")) in H.
  rewrite is_prefix_cons in *.
  by destruct (Ascii.eqb "n" c5).
Qed.

Lemma replace_json_suffix base :
  contains ".json" base = false →
  str_replace ".json" ".report.txt" (base ++ ".json")
  = (base ++ ".report.txt")%string.
Proof.
  unfold str_replace. induction base as [|c base IH]; [done|].
  cbn [contains]. intros [Hp Hc]%orb_false_elim.
  change (String c base ++ ".json")%string
    with (String c (base ++ ".json")).
  cbn [replace_from].
  destruct (is_prefix ".json" (String c (base ++ ".json"))) eqn:E.
  - exfalso.
    destruct (json_prefix_of_app (String c base) E) as [?|Hpre]; [done|].
    by rewrite Hpre in Hp.
  - change (String c base ++ ".report.txt")%string
      with (String c (base ++ ".report.txt")).
    f_equal. by apply IH.
Qed.

(** Where [main] saves the report of a file: for a name that ends in
    ".json" and has no other ".json" in it, under the same name with the
    ending ".report.txt"; for a name without ".json", under the very name
    of the file; in both cases two directories up. *)
Theorem report_path_by_name :
  (∀ base, contains ".json" base = false →
     report_path (base ++ ".json")
     = ("../../" ++ base ++ ".report.txt")%string) ∧
  (∀ name, contains ".json" name = false →
     report_path name = ("../../" ++ name)%string).
Proof.
  split.
  - intros base H. unfold report_path. by rewrite replace_json_suffix.
  - intros name H. unfold report_path. by rewrite replace_no_occurrence.
Qed.

(** ** The catch-all reporter and reports for other files *)

Lemma ofold_stuck {A B} (f : B → A → outcome B) (P : B → Prop) x xs :
  x ∈ xs →
  (∀ acc, P acc → ¬ is_Ret (f acc x)) →
  (∀ acc y acc', P acc → f acc y = Ret acc' → P acc') →
  ∀ acc, P acc → ¬ is_Ret (ofold f xs acc).
Proof.
  intros Hx Hstuck Hkeep. induction xs as [|y xs IH]; intros acc HP.
  - by apply elem_of_nil in Hx.
  - simpl. destruct (f acc y) as [acc'|e] eqn:Hy; [|simpl; tauto]. simpl.
    apply elem_of_cons in Hx as [->|Hx].
    + exfalso. apply (Hstuck acc HP). by rewrite Hy.
    + apply IH; [done|]. by eapply Hkeep.
Qed.

Lemma cover_report_keeps_unknown name covered report covered' :
  dict_lookup name covered = None →
  cover_report covered report = Ret covered' →
  dict_lookup name covered' = None.
Proof.
  intros Hn H. rewrite (cover_report_lookup _ _ _ H name), Hn. done.
Qed.

Lemma cover_report_unknown_file name info covered report :
  (name, info) ∈ report → outputs info ≠ [] →
  dict_lookup name covered = None →
  ¬ is_Ret (cover_report covered report).
Proof.
  intros Hin Hne Hn. unfold cover_report.
  apply (ofold_stuck _ (λ cov, dict_lookup name cov = None)
           (name, info) report Hin); [| |done].
  - intros acc Hacc. destruct (outputs info) as [|o outs]; [done|].
    simpl. unfold cover_output at 1. rewrite Hacc. simpl. tauto.
  - intros acc [fn i] acc' Hacc Hstep.
    by rewrite (cover_outputs_lookup _ _ _ _ Hstep name), Hacc.
Qed.

Section unknown_file.
Context {S C AB BP : Type} (w : World S C AB BP).

(** A report with outputs, filed under a name that is the name of none of
    the files, makes [parse_no_reports_report] raise before it reports
    anything: the set of covered indices it would add to is not there. *)
Theorem parse_no_reports_report_unknown_file (all_reports : list reports)
    (files : list file) report name info (s : st S) :
  report ∈ all_reports → (name, info) ∈ report → outputs info ≠ [] →
  (∀ f, f ∈ files → file_name f ≠ name) →
  ∃ e, covered_indexs_by_file all_reports files = Raise e ∧
       parse_no_reports_report w all_reports files s = (Raise e, s).
Proof.
  intros Hr Hin Hne Hfiles.
  assert (Hstuck : ¬ is_Ret (covered_indexs_by_file all_reports files)).
  { unfold covered_indexs_by_file.
    apply (ofold_stuck _ (λ cov, dict_lookup name cov = None)
             report all_reports Hr).
    - intros acc Hacc. by eapply cover_report_unknown_file.
    - intros acc y acc' Hacc Hstep.
      by eapply cover_report_keeps_unknown.
    - rewrite empty_covered_lookup.
      destruct (last_file name files) as [f|] eqn:Hlast; [|done].
      apply last_file_name in Hlast as [Hname Hf]. by apply Hfiles in Hf. }
  destruct (covered_indexs_by_file all_reports files) as [cov|e] eqn:Hcov.
  - exfalso. by apply Hstuck.
  - exists e. split; [done|]. unfold parse_no_reports_report.
    by rewrite Hcov.
Qed.
End unknown_file.

(** ** The reports [main] writes *)

Lemma report_events_segment merged name report :
  (name, report) ∈ merged →
  ∃ before after,
    report_events merged
    = before ++ [Opened (report_path name);
                 Written (report_path name) report] ++ after.
Proof.
  induction merged as [|[n0 r0] merged IH]; intros Hin.
  - by apply elem_of_nil in Hin.
  - apply elem_of_cons in Hin as [[= -> ->]|Hin].
    + by exists [], (report_events merged).
    + destruct (IH Hin) as (before & after & Heq).
      exists ([Opened (report_path n0); Written (report_path n0) r0]
              ++ before), after.
      simpl. by rewrite Heq.
Qed.

Section written.
Context {S C AB BP : Type} (w : World S C AB BP).
Implicit Types (s : st S) (f : file).

(** C8, as amended: after [main] has completed, with [merge_files]
    joining the report texts per file name, one text report has been
    written for every input file, at the file name with every ".json"
    replaced by ".report.txt", two directories up; for a name that ends
    in ".json" and has no other ".json" in it, that is the name with the
    ending replaced.  There are as many reports as input files when the
    file names differ.  When there is at least one input file, the
    combined [payload_reports.txt] has been written before them and
    holds every per-file report; a run without input files has written
    nothing, the combined report included. *)
Theorem main_writes_report_per_file s s' :
  (∀ all_reports x, ∃ x',
     merge_files w all_reports x = (Ret (merge_files_model all_reports), x')) →
  main w s = (Ret tt, s') →
  ∃ files x1 merged,
    get_changed_files w (ext s) = (Ret files, x1) ∧
    fs_log s' = fs_log s ++ payload_events merged ++ report_events merged ∧
    (∀ f, f ∈ files →
       ∃ report before after,
         (file_name f, report) ∈ merged ∧
         report_events merged
         = before ++ [Opened (report_path (file_name f));
                      Written (report_path (file_name f)) report]
             ++ after) ∧
    (∀ f base, f ∈ files → file_name f = (base ++ ".json")%string →
       contains ".json" base = false →
       report_path (file_name f)
       = ("../../" ++ base ++ ".report.txt")%string) ∧
    (NoDup (file_name <$> files) → length merged = length files) ∧
    (files ≠ [] →
       payload_events merged
       = Opened "payload_reports.txt"
         :: (Written "payload_reports.txt" <$> merged.*2)) ∧
    (files = [] → fs_log s' = fs_log s).
Proof.
  intros Hmerge Hmain.
  destruct (main_run_merged w s s' Hmerge Hmain)
    as (files & x1 & merged & Hfiles & Hlog & Hnd & Hnames & Hnil).
  exists files, x1, merged. split; [done|]. split; [done|].
  split; [|split; [|split; [|split]]].
  - intros f Hf.
    assert (Hin : file_name f ∈ merged.*1) by (apply Hnames; by exists f).
    apply list_elem_of_fmap in Hin as ([name report] & Hname & Hin).
    simpl in Hname. subst name.
    destruct (report_events_segment _ _ _ Hin) as (before & after & Heq).
    by exists report, before, after.
  - intros f base Hf Hname Hbase. rewrite Hname. unfold report_path.
    by rewrite replace_json_suffix.
  - intros Hfn. rewrite <- (length_fmap fst merged).
    rewrite <- (length_fmap file_name files).
    apply Permutation_length, NoDup_Permutation; [done|done|].
    intros name. rewrite Hnames. split.
    + intros (f & Hf & <-). by apply list_elem_of_fmap_2.
    + intros (f & -> & Hf)%list_elem_of_fmap. by exists f.
  - intros Hne. destruct merged as [|entry merged]; [|done].
    by destruct Hne, (proj1 Hnil).
  - intros Hempty. apply Hnil in Hempty as ->. simpl in Hlog.
    by rewrite app_nil_r in Hlog.
Qed.
End written.

(** ** Failed lookups *)

Section failure_facts.
Context {S : Type} (failures : S → list exn).
Implicit Types (P : list exn → Prop).

Lemma nothing_nil : nothing [].
Proof. reflexivity. Qed.

Lemma pool_catch_nil : pool_catch [].
Proof. by left. Qed.

Lemma at_most_one_nil : at_most_one [].
Proof. unfold at_most_one. simpl. lia. Qed.

Lemma pool_catch_at_most_one l : pool_catch l → at_most_one l.
Proof. unfold at_most_one. intros [->|[->| ->]]; simpl; lia. Qed.

Lemma swallows_ret {A} P (a : A) :
  P [] → swallows_only failures P (ret (S:=S) a).
Proof.
  intros HP s r s' [= <- <-]. exists []. by rewrite app_nil_r.
Qed.

Lemma swallows_raise {A} P e :
  P [] → swallows_only failures P (raise (S:=S) (A:=A) e).
Proof.
  intros HP s r s' [= <- <-]. exists []. rewrite app_nil_r.
  split; [done|]. exists []. split; [done|by left].
Qed.

Lemma swallows_pure {A} P (x : outcome A) :
  P [] → swallows_only failures P (pure (S:=S) x).
Proof.
  intros HP s r s' [= <- <-]. exists []. rewrite app_nil_r.
  split; [done|]. destruct x; [done|].
  exists []. split; [done|by left].
Qed.

Lemma swallows_call_ext {A} P (c : E S A) :
  P [] → records_failure failures c →
  swallows_only failures P (call_ext c).
Proof.
  intros HP Hc s r s'. unfold call_ext. specialize (Hc (ext s)).
  destruct (c (ext s)) as [r0 x]. simpl in Hc. intros [= <- <-]. simpl.
  eexists. split; [exact Hc|]. destruct r0; [done|].
  exists []. split; [done|by right].
Qed.

Lemma swallows_weaken {A} P Q (m : M S A) :
  (∀ l, P l → Q l) →
  swallows_only failures P m → swallows_only failures Q m.
Proof.
  intros HPQ Hm s r s' Hrun. destruct (Hm _ _ _ Hrun) as (l & Hl & Hr).
  exists l. split; [done|]. destruct r; [by apply HPQ|].
  destruct Hr as (l0 & Hl0 & Hcase). exists l0. split; [by apply HPQ|done].
Qed.

(** A step that swallows nothing, then any step. *)
Lemma swallows_bind_l {A B} P (m : M S A) (k : A → M S B) :
  P [] →
  swallows_only failures nothing m →
  (∀ a, swallows_only failures P (k a)) →
  swallows_only failures P (bind m k).
Proof.
  intros HP Hm Hk s r s'. unfold bind.
  destruct (m s) as [[a|e] s1] eqn:Hrun;
    destruct (Hm _ _ _ Hrun) as (l1 & Hl1 & Hr1).
  - unfold nothing in Hr1. subst l1. rewrite app_nil_r in Hl1.
    intros Hrest. destruct (Hk a _ _ _ Hrest) as (l & Hl & Hr).
    exists l. split; [by rewrite Hl, Hl1|done].
  - intros [= <- <-]. exists l1. split; [done|].
    destruct Hr1 as (l0 & -> & Hcase). by exists [].
Qed.

(** Any step, then a step that swallows nothing. *)
Lemma swallows_bind_r {A B} P (m : M S A) (k : A → M S B) :
  swallows_only failures P m →
  (∀ a, swallows_only failures nothing (k a)) →
  swallows_only failures P (bind m k).
Proof.
  intros Hm Hk s r s'. unfold bind.
  destruct (m s) as [[a|e] s1] eqn:Hrun;
    destruct (Hm _ _ _ Hrun) as (l1 & Hl1 & Hr1).
  - intros Hrest. destruct (Hk a _ _ _ Hrest) as (l & Hl & Hr).
    exists (l1 ++ l). split; [by rewrite Hl, Hl1, app_assoc|].
    destruct r as [b|e].
    + unfold nothing in Hr. subst l. by rewrite app_nil_r.
    + destruct Hr as (l0 & -> & Hcase). exists l1. split; [done|].
      destruct Hcase as [->| ->]; [left; by rewrite app_nil_r|by right].
  - intros [= <- <-]. by exists l1.
Qed.

Lemma swallows_for_each {A B} (body : B → A → M S B) xs :
  (∀ acc x, swallows_only failures nothing (body acc x)) →
  ∀ acc, swallows_only failures nothing (for_each body xs acc).
Proof.
  intros Hbody. induction xs as [|x xs IH]; intros acc; simpl.
  - by apply swallows_ret.
  - apply swallows_bind_l; [done|apply Hbody|apply IH].
Qed.

(** [try: m except: ...] when [m] swallows nothing itself: what follows
    either raises the exception again at once, or goes on with it
    swallowed. *)
Lemma swallows_try {A B} P (m : M S A) (k : exn + A → M S B) :
  P [] →
  swallows_only failures nothing m →
  (∀ a, swallows_only failures P (k (inr a))) →
  (∀ e, (∀ s, k (inl e) s = (Raise e, s)) ∨
        (P [e] ∧ swallows_only failures nothing (k (inl e)))) →
  swallows_only failures P (bind (try m) k).
Proof.
  intros HP Hm Hk Hcatch s r s'. unfold bind, try.
  destruct (m s) as [[a|e] s1] eqn:Hrun;
    destruct (Hm _ _ _ Hrun) as (l1 & Hl1 & Hr1).
  - unfold nothing in Hr1. subst l1. rewrite app_nil_r in Hl1.
    intros Hrest. destruct (Hk a _ _ _ Hrest) as (l & Hl & Hr).
    exists l. split; [by rewrite Hl, Hl1|done].
  - destruct Hr1 as (l0 & -> & Hl).
    assert (Hl1e : l1 = [] ∨ l1 = [e])
      by (destruct Hl as [->| ->]; [by left|by right]).
    clear Hl.
    destruct (Hcatch e) as [Hraise|[HPe Hstrict]].
    + rewrite Hraise. intros [= <- <-]. exists l1. split; [done|].
      exists []. split; [done|]. destruct Hl1e as [->| ->]; [by left|by right].
    + intros Hrest. destruct (Hstrict _ _ _ Hrest) as (l & Hl & Hr).
      exists (l1 ++ l). split; [by rewrite Hl, Hl1, app_assoc|].
      assert (HP1 : P l1) by (by destruct Hl1e as [->| ->]).
      destruct r as [b|e'].
      * unfold nothing in Hr. subst l. by rewrite app_nil_r.
      * destruct Hr as (l0 & -> & Hcase). exists l1. split; [done|].
        destruct Hcase as [->| ->]; [left; by rewrite app_nil_r|by right].
Qed.

(** A step that swallows nothing and returns has recorded nothing. *)
Lemma swallows_nothing_Ret {A} (m : M S A) s a s' :
  swallows_only failures nothing m → m s = (Ret a, s') →
  failures (ext s') = failures (ext s).
Proof.
  intros Hm Hrun. destruct (Hm _ _ _ Hrun) as (l & Hl & ->).
  by rewrite app_nil_r in Hl.
Qed.
End failure_facts.

(** Takes a step built from binds, branches and service calls apart,
    where every part but the pool lookup swallows nothing. *)
Ltac swallow_nil :=
  first [exact nothing_nil | exact pool_catch_nil | exact at_most_one_nil].

Ltac swallow_step :=
  lazymatch goal with
  | |- swallows_only _ _ (bind _ _) =>
      apply swallows_bind_l; [swallow_nil| |intros ?]
  | |- swallows_only _ _ (ret _) => apply swallows_ret; swallow_nil
  | |- swallows_only _ _ (raise _) => apply swallows_raise; swallow_nil
  | |- swallows_only _ _ (pure _) => apply swallows_pure; swallow_nil
  | |- swallows_only _ _ (call_ext _) =>
      apply swallows_call_ext; [swallow_nil|auto]
  | |- swallows_only _ _ (for_each _ _ _) =>
      apply swallows_for_each; intros ? ?
  | |- swallows_only _ _ (if ?b then _ else _) => destruct b
  | |- swallows_only _ _ (match ?x with _ => _ end) => destruct x
  | |- swallows_only _ _ (let _ := _ in _) => cbv zeta
  end.

Ltac swallow := repeat swallow_step.

Section failed_lookups.
Context {S C AB BP : Type} (w : World S C AB BP).
Context (failures : S → list exn).
Hypothesis recorded : failures_recorded w failures.
Implicit Types (s : st S) (tx : transaction) (kw : kwargs).

Local Abbreviation strict m := (swallows_only failures nothing m).

Lemma gauge_cap_strict gauge selectors :
  strict (gauge_cap_of w gauge selectors).
Proof. destruct recorded. unfold gauge_cap_of. swallow. Qed.

Lemma find_chain_strict items chain_id :
  strict (find_chain w items chain_id).
Proof.
  destruct recorded.
  induction items as [|[c_name c_id] items IH]; simpl; swallow. apply IH.
Qed.

Lemma transfer_strict tx kw : strict (_parse_transfer w tx kw).
Proof.
  destruct recorded. unfold _parse_transfer.
  swallow; try apply find_chain_strict.
Qed.

Lemma permissions_strict tx kw : strict (_parse_permissions w tx kw).
Proof. destruct recorded. unfold _parse_permissions. swallow. Qed.

Lemma hh_brib_strict tx kw : strict (_parse_hh_brib w tx kw).
Proof. destruct recorded. unfold _parse_hh_brib. swallow. Qed.

Lemma set_recipient_list_strict tx kw :
  strict (_parse_set_recipient_list w tx kw).
Proof. destruct recorded. unfold _parse_set_recipient_list. swallow. Qed.

Lemma decode_target_call_strict tx : strict (decode_target_call w tx).
Proof. destruct recorded. unfold decode_target_call. swallow. Qed.

(** The sidechain [try] ends with the failure it met, if any, on
    record. *)
Lemma sidechain_try_run recipient s r s' :
  sidechain_try w recipient s = (r, s') →
  ∃ style res l,
    r = Ret (style, res) ∧
    failures (ext s') = failures (ext s) ++ l ∧
    match res with
    | inr _ => l = []
    | inl e => l = [] ∨ l = [e]
    end.
Proof.
  assert (H1 : ∀ recipient, strict (sidechain_recipient_of w recipient))
    by (intros; destruct recorded; unfold sidechain_recipient_of; swallow).
  assert (H2 : ∀ c, strict (sidechain_pool_info w c))
    by (intros; destruct recorded; unfold sidechain_pool_info; swallow).
  unfold sidechain_try, bind, try.
  destruct (sidechain_recipient_of w recipient s) as [[[c style]|e] s1]
    eqn:Hrec; destruct (H1 _ _ _ _ Hrec) as (l1 & Hl1 & Hr1).
  - unfold nothing in Hr1. subst l1. rewrite app_nil_r in Hl1.
    destruct (sidechain_pool_info w c s1) as [[info|e] s2] eqn:Hinfo;
      destruct (H2 _ _ _ _ Hinfo) as (l2 & Hl2 & Hr2);
      intros [= <- <-].
    + exists style, (inr info), l2. rewrite Hl2, Hl1. by split.
    + exists style, (inl e), l2. rewrite Hl2, Hl1. split; [done|].
      split; [done|]. destruct Hr2 as (l0 & -> & [->| ->]); [by left|by right].
  - intros [= <- <-]. exists None, (inl e), l1. split; [done|].
    split; [done|]. destruct Hr1 as (l0 & -> & [->| ->]); [by left|by right].
Qed.

(** The sidechain branch swallows the unverified-contract error alone. *)
Lemma extract_sidechain_pool_swallows chain gauge :
  swallows_only failures pool_catch (extract_sidechain_pool w chain gauge).
Proof.
  pose proof recorded as Hrec. destruct Hrec.
  unfold extract_sidechain_pool.
  do 3 (apply swallows_bind_l; [swallow_nil|swallow|intros ?]).
  intros s r s'. rewrite run_bind.
  destruct (sidechain_try w a s) as [r1 s1] eqn:Htry.
  apply sidechain_try_run in Htry as (style & res & l & -> & Hl & Hres).
  rewrite run_bind. destruct res as [e|info].
  - unfold except_unverified.
    destruct e as [msg| | | | | | |];
      try (intros [= <- <-]; exists l; split; [done|]; exists [];
           split; [by left|]; destruct Hres as [->| ->]; [by left|by right]).
    destruct (String.eqb msg UNVERIFIED_MESSAGE) eqn:E.
    + apply String.eqb_eq in E as ->.
      intros [= <- <-]. exists l. split; [done|].
      destruct Hres as [->| ->]; [by left|right; by left].
    + intros [= <- <-]. exists l. split; [done|]. exists [].
      split; [by left|]. destruct Hres as [->| ->]; [by left|by right].
  - intros [= <- <-]. exists l. split; [done|]. subst l. by left.
Qed.

(** The single-recipient branch swallows an [AttributeError] alone. *)
Lemma extract_single_recipient_pool_swallows gauge :
  swallows_only failures pool_catch (extract_single_recipient_pool w gauge).
Proof.
  pose proof recorded as Hrec. destruct Hrec.
  unfold extract_single_recipient_pool.
  do 2 (apply swallows_bind_l; [swallow_nil|swallow|intros ?]).
  apply swallows_try; [swallow_nil| | |].
  - unfold escrow_pool_info. swallow.
  - intros info. swallow.
  - intros e. destruct e as [msg| | | | | | |];
      try (left; intros s; reflexivity).
    right. split; [right; by right|]. swallow.
Qed.

Lemma extract_mainnet_pool_swallows gauge :
  swallows_only failures pool_catch (extract_mainnet_pool w gauge).
Proof. destruct recorded. unfold extract_mainnet_pool. swallow. Qed.

(** [_extract_pool] swallows at most the one failure its branch
    catches. *)
Lemma extract_pool_swallows chain gauge selectors :
  swallows_only failures pool_catch (_extract_pool w chain gauge selectors).
Proof.
  pose proof recorded as Hrec. destruct Hrec.
  unfold _extract_pool. apply swallows_bind_r.
  - destruct (negb (bool_decide (chain = Some CHAIN_MAINNET)));
      [apply extract_sidechain_pool_swallows|].
    destruct (negb (bool_decide ("name" ∈ selectors)));
      [apply extract_single_recipient_pool_swallows
      |apply extract_mainnet_pool_swallows].
  - intros [info style]. swallow.
Qed.

(** What follows the pool lookup in the two gauge classifiers swallows
    nothing. *)
Ltac swallow_pool :=
  repeat first
    [ lazymatch goal with
      | |- swallows_only _ _ (bind (_extract_pool _ _ _ _) _) =>
          apply swallows_bind_r;
            [first [apply extract_pool_swallows
                   |eapply swallows_weaken;
                      [apply pool_catch_at_most_one
                      |apply extract_pool_swallows]]
            |intros ?]
      | |- swallows_only _ _ (gauge_cap_of _ _ _) => apply gauge_cap_strict
      end
    | swallow_step ].

Lemma added_swallows tx kw :
  swallows_only failures pool_catch (_parse_added_transaction w tx kw).
Proof.
  pose proof recorded as Hrec. destruct Hrec.
  unfold _parse_added_transaction. swallow_pool.
Qed.

Lemma removed_swallows tx kw :
  swallows_only failures at_most_one (_parse_removed_transaction w tx kw).
Proof.
  pose proof recorded as Hrec. destruct Hrec.
  unfold _parse_removed_transaction.
  destruct (lacks_inputs_or_method tx); [swallow|].
  destruct (civ_of tx) as [| | | | |d]; try solve [swallow].
  destruct (negb (truthy (dict_get d "data" PNone))); [swallow|].
  apply swallows_bind_l; [swallow_nil|swallow|intros _].
  apply swallows_try; [swallow_nil|apply decode_target_call_strict| |].
  - intros [command inputs]. swallow_pool.
  - intros e. right. split; [|swallow].
    unfold at_most_one. simpl. lia.
Qed.

(** A row of [_parse_removed_transaction] was made without a failure in
    its [try]. *)
Lemma removed_row_swallows tx kw s r s' :
  _parse_removed_transaction w tx kw s = (Ret (Some r), s') →
  ∃ l, failures (ext s') = failures (ext s) ++ l ∧ pool_catch l.
Proof.
  pose proof recorded as Hrec. destruct Hrec.
  unfold _parse_removed_transaction. intros H.
  destruct (lacks_inputs_or_method tx);
    [by apply ret_Ret_inv in H as [? _]|].
  destruct (civ_of tx) as [| | | | |d];
    try (by apply ret_Ret_inv in H as [? _]).
  destruct (negb (truthy (dict_get d "data" PNone)));
    [by apply ret_Ret_inv in H as [? _]|].
  apply bind_Ret_inv in H as ([] & s1 & Hswitch & H).
  apply bind_Ret_inv in H as (decoded & s2 & Htry & H).
  assert (Hl1 : failures (ext s1) = failures (ext s)).
  { eapply swallows_nothing_Ret; [|exact Hswitch]. swallow. }
  destruct decoded as [e|[command inputs]];
    [by apply ret_Ret_inv in H as [? _]|].
  assert (Hl2 : failures (ext s2) = failures (ext s1)).
  { unfold try in Htry.
    destruct (decode_target_call w tx s1) as [[a|e] s2'] eqn:Hdec; [|done].
    injection Htry as _ <-.
    eapply swallows_nothing_Ret; [apply decode_target_call_strict|done]. }
  destruct (negb (bool_decide (length inputs = 0)
                  && String.eqb command CMD_GAUGE_KILL));
    [by apply ret_Ret_inv in H as [? _]|].
  match type of H with
  | ?m s2 = _ =>
      assert (Hrest : swallows_only failures pool_catch m) by swallow_pool
  end.
  destruct (Hrest _ _ _ H) as (l & Hl & Hr).
  exists l. split; [by rewrite Hl, Hl2, Hl1|done].
Qed.

(** [handler] swallows nothing of its own. *)
Lemma handler_strict handler_func files :
  (∀ tx kw, strict (handler_func tx kw)) →
  strict (handler w files handler_func).
Proof.
  intros Hf. destruct recorded.
  unfold handler, handle_file, handle_transaction.
  swallow; try apply Hf.
Qed.

(** A loop that has finished has finished every turn. *)
Lemma for_each_Ret_each {A B} (body : B → A → M S B) xs :
  ∀ acc s acc' s',
    for_each body xs acc s = (Ret acc', s') →
    ∀ x, x ∈ xs → ∃ a0 s0 a1 s1, body a0 x s0 = (Ret a1, s1).
Proof.
  induction xs as [|y xs IH]; intros acc s acc' s' Hrun x Hx.
  - by apply elem_of_nil in Hx.
  - rewrite for_each_cons in Hrun.
    destruct (body acc y s) as [[a1|e] s1] eqn:Hy; [|done].
    apply elem_of_cons in Hx as [->|Hx]; [by eexists _, _, _, _|].
    by eapply IH.
Qed.

(** [handler] returns only when the classifier has returned for every
    transaction of every file. *)
Lemma handler_calls_returned handler_func files s reps s' f tx :
  handler w files handler_func s = (Ret reps, s') →
  f ∈ files → tx ∈ transactions f →
  returns_for handler_func f tx.
Proof.
  intros Hrun Hf Htx. unfold handler in Hrun.
  destruct (for_each_Ret_each _ _ _ _ _ _ Hrun f Hf)
    as (reps0 & s0 & reps1 & s1 & Hfile).
  unfold handle_file in Hfile.
  apply bind_Ret_inv in Hfile as ([outs i] & s2 & Hloop & _).
  destruct (for_each_Ret_each _ _ _ _ _ _ Hloop tx Htx)
    as ([outs0 i0] & s3 & acc1 & s4 & Hturn).
  unfold handle_transaction in Hturn.
  apply bind_Ret_inv in Hturn as (b & s5 & _ & Hturn).
  apply bind_Ret_inv in Hturn as (bip & s6 & _ & Hturn).
  apply bind_Ret_inv in Hturn as (data & s7 & Hdata & _).
  eexists _, _, _, _. split; [|exact Hdata]. done.
Qed.

(** ... and [main] only when each of the six classifiers has. *)
Lemma main_calls_returned s s' :
  main w s = (Ret tt, s') →
  ∃ files x,
    get_changed_files w (ext s) = (Ret files, x) ∧
    ∀ f tx, f ∈ files → tx ∈ transactions f →
      returns_for (_parse_added_transaction w) f tx ∧
      returns_for (_parse_removed_transaction w) f tx ∧
      returns_for (_parse_transfer w) f tx ∧
      returns_for (_parse_permissions w) f tx ∧
      returns_for (_parse_hh_brib w) f tx ∧
      returns_for (_parse_set_recipient_list w) f tx.
Proof.
  intros Hmain. unfold main in Hmain.
  apply bind_Ret_inv in Hmain as (files & s0 & Hfiles & Hmain).
  apply call_ext_inv in Hfiles as (x & Hfiles & _).
  apply bind_Ret_inv in Hmain as (r1 & s1 & H1 & Hmain).
  apply bind_Ret_inv in Hmain as (r2 & s2 & H2 & Hmain).
  apply bind_Ret_inv in Hmain as (r3 & s3 & H3 & Hmain).
  apply bind_Ret_inv in Hmain as (r4 & s4 & H4 & Hmain).
  apply bind_Ret_inv in Hmain as (r5 & s5 & H5 & Hmain).
  apply bind_Ret_inv in Hmain as (r6 & s6 & H6 & _).
  exists files, x. split; [done|]. intros f tx Hf Htx.
  repeat split; by eapply handler_calls_returned.
Qed.

End failed_lookups.

(** The services of [traced] keep their failures on record. *)
Lemma traced_call_records {S A} (c : E S A) :
  records_failure snd (traced_call c).
Proof.
  intros [x l]. unfold traced_call. simpl. by destruct (c x) as [r x'].
Qed.

Lemma traced_failures_recorded {S C AB BP} (w : World S C AB BP) :
  failures_recorded (traced w) snd.
Proof. split; intros; apply traced_call_records. Qed.

(** ** The classifiers on sample records *)

(** [_parse_transfer] subscripts [contractMethod] with ["name"]. *)
Lemma transfer_missing_name_raises {S C AB BP} (w : World S C AB BP) kw s :
  _parse_transfer w nameless_transfer_tx kw s = (Raise (KeyError "name"), s).
Proof. reflexivity. Qed.

(** C2 as stated fails for [_parse_added_transaction]: whatever method
    name it is taken to handle, it returns a report for a gauge-adder
    call under another name. *)
Lemma added_transaction_ignores_method_name :
  ¬ ∃ handled : string,
      ∀ (w : World unit unit unit unit) tx kw s name,
        method_name tx = Some name → eq_str name handled = false →
        (_parse_added_transaction w tx kw s).1 = Ret None.
Proof.
  intros [handled Hclaim].
  set (kw := mk_kwargs (PInt 1) (PStr "BIP-2") (PInt 0)).
  destruct (String.eqb "addGauge" handled) eqn:E.
  - apply String.eqb_eq in E as <-.
    specialize (Hclaim (plain_world (Ret tt) []) (gauge_add_tx "gauge_add")
                  kw start (PStr "gauge_add") eq_refl eq_refl).
    vm_compute in Hclaim. discriminate.
  - specialize (Hclaim (plain_world (Ret tt) []) (gauge_add_tx "addGauge")
                  kw start (PStr "addGauge") eq_refl E).
    vm_compute in Hclaim. discriminate.
Qed.



(** C1 as stated fails: for a file without transactions that no report
    covers, the uncovered set holds index 0, which the set difference does
    not. *)
Lemma uncovered_not_difference_for_empty_file :
  ¬ (∀ (all_reports : list reports) (files : list file) (f : file) covered,
       covered_indexs_by_file all_reports files = Ret covered →
       last_file (file_name f) files = Some f →
       uncovered_indexs (length (transactions f))
         (claimed all_reports (file_name f))
       = range_set (length (transactions f))
           ∖ claimed all_reports (file_name f)).
Proof.
  intros Hclaim.
  specialize (Hclaim [] [empty_file] empty_file _ eq_refl eq_refl).
  change (claimed [] (file_name empty_file)) with (∅ : gset hkey) in Hclaim.
  change (length (transactions empty_file)) with 0 in Hclaim.
  rewrite uncovered_indexs_empty_file in Hclaim.
  assert (KInt 0 ∈ range_set 0 ∖ (∅ : gset hkey)) as Hin
    by (rewrite <- Hclaim; by apply elem_of_singleton).
  apply elem_of_difference in Hin as [Hin _].
  apply elem_of_range_set in Hin as (i & Hi & _). lia.
Qed.

(** C8 as stated fails: a run without input files completes and writes
    nothing, no combined [payload_reports.txt] either. *)
Lemma main_without_files_writes_no_payload :
  ¬ (∀ (w : World unit unit unit unit) s s',
       (∀ all_reports x, ∃ x',
          merge_files w all_reports x
          = (Ret (merge_files_model all_reports), x')) →
       main w s = (Ret tt, s') →
       Opened "payload_reports.txt" ∈ fs_log s').
Proof.
  intros Hclaim.
  specialize (Hclaim (plain_world (Ret tt) []) start start
                (λ all_reports x, ex_intro _ x eq_refl) eq_refl).
  by apply elem_of_nil in Hclaim.
Qed.

(** ** The statements at sample inputs *)

Lemma other_method_name_returns_None_witness :
  _parse_transfer (plain_world (Ret tt) []) (gauge_add_tx "addGauge")
    (mk_kwargs (PInt 1) (PStr "BIP-2") (PInt 0)) start = (Ret None, start).
Proof.
  exact (proj1 (proj2 (other_method_name_returns_None
           (plain_world (Ret tt) []) (gauge_add_tx "addGauge")
           (mk_kwargs (PInt 1) (PStr "BIP-2") (PInt 0)) start
           (PStr "addGauge") eq_refl)) eq_refl).
Defined.



Lemma extract_pool_unverified_witness :
  _extract_pool (plain_world (Raise (ValueError UNVERIFIED_MESSAGE)) [])
    (Some "polygon-main") tt ["name"] start
  = (Ret (mk_pool_info CONTRACT_UNVERIFIED CONTRACT_UNVERIFIED
            CONTRACT_UNVERIFIED CONTRACT_UNVERIFIED CONTRACT_UNVERIFIED
            CONTRACT_UNVERIFIED (PList []) (PList []),
          STYLE_L0), start).
Proof.
  exact (proj2 (extract_pool_unverified
           (plain_world (Raise (ValueError UNVERIFIED_MESSAGE)) [])
           (Some "polygon-main") tt ["name"] start (PStr "0xresult") tt
           (PInt 137) tt None start
           ltac:(discriminate) eq_refl eq_refl eq_refl eq_refl)).
Defined.

Lemma parse_no_reports_report_uncovered_witness :
  uncovered_indexs 2 (claimed [sample_report] "BIPs/BIP-2.json")
  = range_set 2 ∖ claimed [sample_report] "BIPs/BIP-2.json".
Proof.
  destruct (covered_indexs_by_file [sample_report] [sample_file])
    as [covered|e] eqn:Hcov; [|vm_compute in Hcov; discriminate].
  destruct (parse_no_reports_report_uncovered (plain_world (Ret tt) [])
              [sample_report] [sample_file] sample_file covered Hcov eq_refl)
    as (_ & _ & _ & Hdiff & _).
  apply Hdiff.
  - intros k Hk. apply elem_of_claimed in Hk
      as (report & info & output & Hr & He & Ho & Hk).
    apply list_elem_of_singleton in Hr as ->.
    apply list_elem_of_singleton in He. injection He as ->.
    apply list_elem_of_singleton in Ho as ->.
    injection Hk as <-. apply elem_of_range_set. exists 0. split; [simpl; lia|done].
  - right. simpl. lia.
Defined.

Lemma parse_no_reports_report_empty_file_witness :
  parse_no_reports_report (plain_world (Ret tt) []) [] [empty_file] start
  = (Raise IndexError, start).
Proof.
  exact (proj2 (proj2 (parse_no_reports_report_empty_file
                         (plain_world (Ret tt) [])))
           empty_file start (PStr "0xSafe") 1%Z tt tt
           eq_refl eq_refl eq_refl eq_refl).
Defined.


Lemma main_writes_report_per_file_witness :
  report_path "BIPs/BIP-3.json" = "../../BIPs/BIP-3.report.txt" ∧
  ∃ report,
    Opened "payload_reports.txt"
      ∈ fs_log (main (plain_world (Ret tt) [mixed_file]) start).2 ∧
    Written "payload_reports.txt" report
      ∈ fs_log (main (plain_world (Ret tt) [mixed_file]) start).2 ∧
    Written "../../BIPs/BIP-3.report.txt" report
      ∈ fs_log (main (plain_world (Ret tt) [mixed_file]) start).2.
Proof.
  destruct (main (plain_world (Ret tt) [mixed_file]) start)
    as [[[]|e] s'] eqn:H; [|vm_compute in H; discriminate].
  destruct (main_writes_report_per_file (plain_world (Ret tt) [mixed_file])
              start s' (λ all_reports x, ex_intro _ x eq_refl) H)
    as (files & x1 & merged & Hfiles & Hlog & Hone & Hpath & Hlen & Hpay & _).
  injection Hfiles as <- _.
  assert (Hf : mixed_file ∈ [mixed_file]) by (by left).
  pose proof (Hpath mixed_file "BIPs/BIP-3" Hf eq_refl eq_refl) as Hp.
  split; [exact Hp|].
  destruct (Hone mixed_file Hf) as (report & before & after & Hin & Hseg).
  exists report. cbn [snd fs_log start app] in *.
  rewrite Hlog, Hpay by discriminate. rewrite Hseg, Hp.
  split; [apply elem_of_cons; left; reflexivity|]. split.
  - apply elem_of_cons. right. apply elem_of_app. left.
    apply (list_elem_of_fmap_2 (Written "payload_reports.txt")).
    exact (list_elem_of_fmap_2 snd merged (file_name mixed_file, report) Hin).
  - apply elem_of_app. right. apply elem_of_app. right.
    apply elem_of_cons. right. apply elem_of_cons. left. reflexivity.
Defined.

(** ** The further statements at sample inputs *)

Lemma classifier_rows_keep_tx_index_witness :
  ∃ r, (_parse_added_transaction (plain_world (Ret tt) [])
          (gauge_add_tx "addGauge") sample_kw start).1 = Ret (Some r) ∧
       dict_lookup "tx_index" r = Some (PInt 0).
Proof.
  destruct (_parse_added_transaction (plain_world (Ret tt) [])
              (gauge_add_tx "addGauge") sample_kw start)
    as [[[r|]|e] s'] eqn:H; [|vm_compute in H; discriminate..].
  exists r. split; [reflexivity|].
  exact (proj1 (classifier_rows_keep_tx_index (plain_world (Ret tt) []))
           _ _ _ _ _ H).
Defined.

Lemma named_classifiers_report_their_method_witness :
  ∃ r, (_parse_transfer (plain_world (Ret tt) []) transfer_tx sample_kw
          start).1 = Ret (Some r) ∧
       method_name transfer_tx = Some (PStr "transfer") ∧
       dict_lookup "function" r = Some (PStr "transfer").
Proof.
  destruct (_parse_transfer (plain_world (Ret tt) []) transfer_tx sample_kw
              start) as [[[r|]|e] s'] eqn:H; [|vm_compute in H; discriminate..].
  exists r. split; [reflexivity|].
  destruct (proj1 (named_classifiers_report_their_method
                     (plain_world (Ret tt) []) transfer_tx sample_kw start
                     r s') H) as (Hname & _ & Hfun).
  split; [exact Hname|exact Hfun].
Defined.

Lemma named_classifiers_exclude_each_other_witness :
  ¬ (reports_tx (_parse_transfer (plain_world (Ret tt) [])) transfer_tx
     ∧ reports_tx (_parse_permissions (plain_world (Ret tt) [])) transfer_tx).
Proof.
  exact (proj1 (proj2 (proj2 (named_classifiers_exclude_each_other
                                (plain_world (Ret tt) []) transfer_tx)))).
Defined.

Lemma gauge_classifiers_report_gauge_calls_witness :
  ∃ adder, gauge_adder_address (plain_world (Ret tt) []) = Ret adder ∧
           dict_lookup "to" (gauge_add_tx "addGauge") = Some (PStr adder).
Proof.
  destruct (_parse_added_transaction (plain_world (Ret tt) [])
              (gauge_add_tx "addGauge") sample_kw start)
    as [[[r|]|e] s'] eqn:H; [|vm_compute in H; discriminate..].
  destruct (proj1 (gauge_classifiers_report_gauge_calls
                     (plain_world (Ret tt) []) (gauge_add_tx "addGauge")
                     sample_kw start r s') H) as (_ & Hadder & _).
  exact Hadder.
Defined.

Lemma handler_reports_belong_to_files_witness :
  ∃ reps info,
    (handler (plain_world (Ret tt) []) [mixed_file]
       (_parse_transfer (plain_world (Ret tt) [])) start).1 = Ret reps ∧
    dict_lookup "BIPs/BIP-3.json" reps = Some info ∧
    Forall (index_of_file mixed_file) (outputs info).
Proof.
  destruct (handler (plain_world (Ret tt) []) [mixed_file]
              (_parse_transfer (plain_world (Ret tt) [])) start)
    as [[reps|e] s'] eqn:H; [|vm_compute in H; discriminate].
  destruct (dict_lookup "BIPs/BIP-3.json" reps) as [info|] eqn:Hinfo.
  2: { exfalso. revert Hinfo. injection H as <- _. by vm_compute. }
  exists reps, info. split; [reflexivity|]. split; [exact Hinfo|].
  destruct (handler_reports_belong_to_files (plain_world (Ret tt) [])
              (_parse_transfer (plain_world (Ret tt) [])) [mixed_file] start
              reps s' "BIPs/BIP-3.json" info
              (transfer_keeps_index (plain_world (Ret tt) [])) H
              (dict_lookup_Some_elem _ _ _ Hinfo))
    as (f & Hf & _ & _ & _ & Hall).
  apply list_elem_of_singleton in Hf. by subst f.
Defined.

Lemma uncovered_after_handlers_witness :
  ∃ report,
    (handler (plain_world (Ret tt) []) [mixed_file]
       (_parse_transfer (plain_world (Ret tt) [])) start).1 = Ret report ∧
    uncovered_indexs 3 (claimed [report] "BIPs/BIP-3.json")
    = range_set 3 ∖ claimed [report] "BIPs/BIP-3.json".
Proof.
  destruct (handler (plain_world (Ret tt) []) [mixed_file]
              (_parse_transfer (plain_world (Ret tt) [])) start)
    as [[report|e] s'] eqn:H; [|vm_compute in H; discriminate].
  exists report. split; [reflexivity|].
  assert (Hnd : NoDup (file_name <$> [mixed_file]))
    by (apply NoDup_singleton).
  assert (Hf : mixed_file ∈ [mixed_file]) by (by left).
  assert (Hall : Forall (λ report : reports,
            ∃ handler_func s s',
              keeps_index handler_func ∧
              handler (plain_world (Ret tt) []) [mixed_file] handler_func s
              = (Ret report, s')) [report]).
  { apply Forall_singleton.
    exists (_parse_transfer (plain_world (Ret tt) [])), start, s'.
    split; [apply transfer_keeps_index|exact H]. }
  destruct (uncovered_after_handlers (plain_world (Ret tt) []) [mixed_file]
              [report] mixed_file Hnd Hall Hf) as (_ & Hdiff & _).
  apply Hdiff. discriminate.
Defined.

Lemma no_file_left_out_witness :
  ∃ no_reports,
    (parse_no_reports_report (plain_world (Ret tt) []) [] [mixed_file]
       start).1 = Ret no_reports ∧
    "BIPs/BIP-3.json" ∈ no_reports.*1.
Proof.
  destruct (parse_no_reports_report (plain_world (Ret tt) []) [] [mixed_file]
              start) as [[no_reports|e] s'] eqn:H;
    [|vm_compute in H; discriminate].
  exists no_reports. split; [reflexivity|].
  destruct (no_file_left_out (plain_world (Ret tt) []) [] [mixed_file] start
              no_reports s' mixed_file H) as [Hin|(report & Hr & _)].
  - by left.
  - exact Hin.
  - by apply elem_of_nil in Hr.
Defined.

Lemma main_writes_after_merging_witness :
  ∃ r1 r2 r3 r4 r5 r6 no_reports s6 s7 merged,
    parse_no_reports_report (plain_world (Ret tt) [mixed_file])
      [r1; r2; r3; r4; r5; r6] [mixed_file] s6 = (Ret no_reports, s7) ∧
    length r1 = 1 ∧ r2 = [] ∧ length r3 = 1 ∧ length no_reports = 1 ∧
    merged = merge_files_model [r1; r2; r3; r4; r5; r6; no_reports] ∧
    fs_log (main (plain_world (Ret tt) [mixed_file]) start).2
    = payload_events merged ++ report_events merged.
Proof.
  destruct (main (plain_world (Ret tt) [mixed_file]) start)
    as [[[]|e] s'] eqn:H; [|vm_compute in H; discriminate].
  destruct (main_writes_after_merging (plain_world (Ret tt) [mixed_file])
              start s' H)
    as (files & x1 & r1 & s1 & r2 & s2 & r3 & s3 & r4 & s4 & r5 & s5 & r6
        & s6 & no_reports & s7 & merged & x8 & Hfiles & H1 & H2 & H3 & H4
        & H5 & H6 & Hcatch & Hmerged & _ & Hlog).
  injection Hfiles as <- <-.
  vm_compute in H1. injection H1 as <- <-.
  vm_compute in H2. injection H2 as <- <-.
  vm_compute in H3. injection H3 as <- <-.
  injection Hmerged as <- _.
  eexists _, _, _, r4, r5, r6, no_reports, s6, s7, _.
  split; [exact Hcatch|].
  assert (Hn : length no_reports = 1).
  { clear Hlog. vm_compute in H4. injection H4 as <- <-.
    vm_compute in H5. injection H5 as <- <-.
    vm_compute in H6. injection H6 as <- <-.
    vm_compute in Hcatch. by injection Hcatch as <- <-. }
  do 3 (split; [reflexivity|]). split; [exact Hn|].
  split; [reflexivity|]. exact Hlog.
Defined.

Lemma main_writes_reports_witness :
  ∃ merged,
    fs_log (main (plain_world (Ret tt) [mixed_file]) start).2
    = payload_events merged ++ report_events merged ∧
    ∀ name, name ∈ merged.*1 ↔ ∃ f, f ∈ [mixed_file] ∧ file_name f = name.
Proof.
  destruct (main (plain_world (Ret tt) [mixed_file]) start)
    as [[[]|e] s'] eqn:H; [|vm_compute in H; discriminate].
  destruct (main_writes_reports (plain_world (Ret tt) [mixed_file])
              start s'
              (λ all_reports x, ex_intro _ x eq_refl) H)
    as (files & x1 & merged & Hfiles & Hlog & _ & Hnames & _).
  injection Hfiles as <- _.
  exists merged. split; [exact Hlog|exact Hnames].
Defined.

Lemma main_aborts_on_method_without_name_witness :
  ¬ is_Ret (main (plain_world (Ret tt) [sample_file]) start).1.
Proof.
  refine (proj2 (proj2 (main_aborts_on_method_without_name
            (plain_world (Ret tt) [sample_file]) start [sample_file] tt
            sample_file nameless_transfer_tx eq_refl _ _ eq_refl eq_refl))).
  - by left.
  - right. by left.
Defined.

Lemma transfer_on_unknown_chain_never_returns_witness :
  ¬ is_Ret (main (plain_world (Ret tt) [unknown_chain_file]) start).1.
Proof.
  refine (proj2 (transfer_on_unknown_chain_never_returns
            (plain_world (Ret tt) [unknown_chain_file]) start
            [unknown_chain_file] tt unknown_chain_file transfer_tx
            eq_refl _ _ eq_refl eq_refl _)).
  - by left.
  - by left.
  - intros c_name c_id id id' Hin [= <-] Hid'.
    apply elem_of_cons in Hin as [[= -> ->]|Hin];
      [injection Hid' as <-; lia|].
    apply list_elem_of_singleton in Hin. injection Hin as -> ->.
    injection Hid' as <-. lia.
Defined.

Lemma extract_pool_style_witness :
  ∃ info, (_extract_pool (plain_world (Ret tt) []) (Some CHAIN_MAINNET) tt
             ["name"] start).1 = Ret (info, STYLE_MAINNET).
Proof.
  destruct (_extract_pool (plain_world (Ret tt) []) (Some CHAIN_MAINNET) tt
              ["name"] start) as [[[info style]|e] s'] eqn:H;
    [|vm_compute in H; discriminate].
  destruct (extract_pool_style (plain_world (Ret tt) []) _ _ _ _ _ _ _ H)
    as [(_ & _ & ->)|[(_ & Hno & _)|(c & [= <-] & Hne & _)]].
  - by exists info.
  - exfalso. apply Hno. by left.
  - by exfalso.
Defined.

Lemma added_unknown_gauge_type_never_reports_witness :
  ¬ ∃ r s',
      _parse_added_transaction (plain_world (Ret tt) []) fantom_gauge_tx
        sample_kw start = (Ret (Some r), s').
Proof.
  intros (r & s' & H).
  exact (added_unknown_gauge_type_never_reports (plain_world (Ret tt) [])
           fantom_gauge_tx sample_kw start
           [("gauge", PStr "0xGauge"); ("gaugeType", PStr "Fantom")] "Fantom"
           eq_refl eq_refl eq_refl r s' H).
Defined.

Lemma report_path_by_name_witness :
  report_path "BIPs/BIP-3.json" = "../../BIPs/BIP-3.report.txt".
Proof.
  exact (proj1 report_path_by_name "BIPs/BIP-3" eq_refl).
Defined.

Lemma parse_no_reports_report_unknown_file_witness :
  ∃ e, parse_no_reports_report (plain_world (Ret tt) []) [sample_report]
         [mixed_file] start = (Raise e, start).
Proof.
  destruct (parse_no_reports_report_unknown_file (plain_world (Ret tt) [])
              [sample_report] [mixed_file] sample_report "BIPs/BIP-2.json"
              (mk_report_info "report" (inl sample_file)
                 [[("function", PStr "GaugeAdderV4/addGauge");
                   ("tx_index", PInt 0)]]) start)
    as (e & _ & Hrun).
  - by left.
  - by left.
  - discriminate.
  - intros f Hf. apply list_elem_of_singleton in Hf. subst f. discriminate.
  - by exists e.
Defined.

End ReportGaugesSpec.

(** ** bribe_ecosystems.py: the lookups *)

Module BribeEcosystemsApiSpec.
Import Py BribeEcosystemsApi.
#[local] Open Scope list_scope.

Lemma find_proposal_skips before rest target_name :
  Forall (other_title target_name) before →
  find_proposal (before ++ rest) target_name = find_proposal rest target_name.
Proof.
  induction 1 as [|o before (title & Ht & Hne) _ IH]; [done|].
  rewrite <- app_comm_cons. cbn [find_proposal]. rewrite Ht. cbn [obind].
  by rewrite Hne.
Qed.

(** [get_hh_aura_target] returns the proposal hash of the first option
    with the title asked for, whatever comes after it, and [False] when
    no option has that title. *)
Theorem get_hh_aura_target_first_match response_json target_name :
  (∀ before option after,
     py_item response_json "data" = Ret (PList (before ++ option :: after)) →
     Forall (other_title target_name) before →
     py_item option "title" = Ret (PStr target_name) →
     get_hh_aura_target response_json target_name
     = py_item option "proposalHash") ∧
  (∀ options,
     py_item response_json "data" = Ret (PList options) →
     Forall (other_title target_name) options →
     get_hh_aura_target response_json target_name = Ret (PBool false)).
Proof.
  split.
  - intros before option after Hdata Hbefore Htitle.
    unfold get_hh_aura_target. rewrite Hdata. cbn [obind].
    rewrite find_proposal_skips by done. cbn [find_proposal].
    rewrite Htitle. cbn [obind eq_str]. by rewrite String.eqb_refl.
  - intros options Hdata Hall. unfold get_hh_aura_target. rewrite Hdata.
    cbn [obind]. rewrite <- (app_nil_r options).
    by rewrite find_proposal_skips.
Qed.

Section gauge_name_facts.
Context (toChecksumAddress : pyval → outcome string).

Lemma add_gauge_name_lookup output mapping output' a :
  add_gauge_name toChecksumAddress output mapping = Ret output' →
  dict_lookup a output'
  = match label_for toChecksumAddress a mapping with
    | Some label => Some label
    | None => dict_lookup a output
    end.
Proof.
  unfold add_gauge_name, label_for.
  destruct (py_item mapping "gauge") as [gauge|e]; [|done]. simpl.
  destruct (toChecksumAddress gauge) as [a'|e]; [|done]. simpl.
  destruct (py_item mapping "label") as [label|e]; [|done]. simpl.
  intros [= <-]. rewrite ReportGaugesSpec.dict_lookup_set.
  by destruct (String.eqb a a').
Qed.

Lemma gauge_names_lookup item_list : ∀ output output' a,
  ofold (add_gauge_name toChecksumAddress) item_list output = Ret output' →
  dict_lookup a output'
  = match last_label toChecksumAddress item_list a with
    | Some label => Some label
    | None => dict_lookup a output
    end.
Proof.
  induction item_list as [|mapping item_list IH]; intros output output' a.
  - by intros [= <-].
  - simpl.
    destruct (add_gauge_name toChecksumAddress output mapping)
      as [output1|e] eqn:Hadd; [|done]. simpl.
    intros Hrest. rewrite (IH _ _ a Hrest).
    destruct (last_label toChecksumAddress item_list a); [done|].
    by apply add_gauge_name_lookup.
Qed.

(** The name map [get_gauge_name_map] returns holds, for each checksummed
    gauge address, the label of the last mapping of the list for that
    address, and nothing for an address no mapping names. *)
Theorem get_gauge_name_map_last_label item_list output a :
  get_gauge_name_map toChecksumAddress item_list = Ret output →
  dict_lookup a output = last_label toChecksumAddress item_list a.
Proof.
  unfold get_gauge_name_map. intros H.
  rewrite (gauge_names_lookup _ _ _ a H).
  by destruct (last_label toChecksumAddress item_list a).
Qed.
End gauge_name_facts.

Lemma list_index_first choices target :
  match list_index choices target with
  | Ret i =>
      (∃ choice, choices !! i = Some choice ∧ eq_str choice target = true) ∧
      ∀ j choice, j < i → choices !! j = Some choice →
                  eq_str choice target = false
  | Raise e =>
      e = ValueError "is not in list" ∧
      Forall (λ choice, eq_str choice target = false) choices
  end.
Proof.
  induction choices as [|c choices IH]; simpl; [done|].
  destruct (eq_str c target) eqn:E.
  - split; [by exists c|]. intros j choice Hj. lia.
  - destruct (list_index choices target) as [i|e]; simpl.
    + destruct IH as [(choice & Hi & Hc) Hfirst]. split; [by exists choice|].
      intros [|j] choice' Hj; simpl; [by intros [= <-]|].
      apply Hfirst. lia.
    + destruct IH as [-> Hall]. split; [done|]. by constructor.
Qed.

(** [get_index] on an answer whose choices are a list: the index it
    returns is the first position of a choice equal to the target; it
    raises [ValueError] exactly when no choice is. *)
Theorem get_index_first_choice response_json target data proposal choices :
  py_item response_json "data" = Ret data →
  py_item data "proposal" = Ret proposal →
  py_item proposal "choices" = Ret (PList choices) →
  match get_index response_json target with
  | Ret i =>
      (∃ choice, choices !! i = Some choice ∧ eq_str choice target = true) ∧
      ∀ j choice, j < i → choices !! j = Some choice →
                  eq_str choice target = false
  | Raise e =>
      e = ValueError "is not in list" ∧
      Forall (λ choice, eq_str choice target = false) choices
  end.
Proof.
  intros Hdata Hprop Hchoices. unfold get_index.
  rewrite Hdata. simpl. rewrite Hprop. simpl. rewrite Hchoices. simpl.
  apply list_index_first.
Qed.

Lemma get_hh_aura_target_first_match_witness :
  get_hh_aura_target sample_options "B-rETH" = Ret (PStr "0x02").
Proof.
  refine (proj1 (get_hh_aura_target_first_match sample_options "B-rETH")
            [PDict [("title", PStr "B-stETH"); ("proposalHash", PStr "0x01")]]
            (PDict [("title", PStr "B-rETH"); ("proposalHash", PStr "0x02")])
            [PDict [("title", PStr "B-rETH"); ("proposalHash", PStr "0x03")]]
            eq_refl _ eq_refl).
  constructor; [|constructor]. by exists (PStr "B-stETH").
Defined.

Lemma get_gauge_name_map_last_label_witness :
  ∃ output,
    get_gauge_name_map address_of_str sample_labels = Ret output ∧
    dict_lookup "0xG" output = Some (PStr "new").
Proof.
  destruct (get_gauge_name_map address_of_str sample_labels)
    as [output|e] eqn:H; [|vm_compute in H; discriminate].
  exists output. split; [reflexivity|].
  exact (get_gauge_name_map_last_label address_of_str sample_labels output
           "0xG" H).
Defined.

Lemma get_index_first_choice_witness :
  ∃ i, get_index sample_choices "B-rETH" = Ret i ∧
       ∀ j choice, j < i →
         [PStr "B-stETH"; PStr "B-rETH"; PStr "B-rETH"] !! j = Some choice →
         eq_str choice "B-rETH" = false.
Proof.
  pose proof (get_index_first_choice sample_choices "B-rETH" _ _ _
                eq_refl eq_refl eq_refl) as H.
  destruct (get_index sample_choices "B-rETH") as [i|e] eqn:Hrun;
    [|vm_compute in Hrun; discriminate].
  exists i. split; [reflexivity|]. exact (proj2 H).
Defined.

End BribeEcosystemsApiSpec.
